(** * YouTube community-post loader: embedded-JSON locator and post parser

    A shallow embedding of
    [langchain_community/document_loaders/youtube_community.py].

    Conventions of the model.
    - A Python [str] is a Rocq [string]; every character of the model is one
      [ascii].  The blobs, keys and URLs the development evaluates are ASCII
      text; bytes above 127 stand for the UTF-8 encoding of a character.
    - A decoded JSON value is a [json] tree.  A Python [dict] is an
      association list with unique keys in insertion order.
    - A Python [int] is a [Z].  A Python [float] is kept as the literal that
      denotes it ([pyfloat]); the operations on floats that the loader uses
      (truth value, comparison with zero, rounding, [repr]) are fields of a
      [PyRuntime] record, as are [repr] of a [str] and the UTF-8 decoding of
      non-ASCII bytes.
    - Code that raises returns [Raise e] in the [result] monad; [try]/[except]
      is [catch]. *)

From Stdlib Require Import Strings.String Strings.Ascii Lists.List ZArith.ZArith Bool.Bool Arith.Arith micromega.Lia.
Import ListNotations.

Set Warnings "-register-all".

Open Scope string_scope.
Open Scope Z_scope.

(** ** Exceptions and the result monad *)

(** The key of a subscript [v[k]]: a string key or an integer index. *)
Inductive pykey : Type :=
| KStr (s : string)
| KInt (i : Z).

(** The exception classes the loader can meet.  [JSONDecodeError] is a
    subclass of [ValueError] in Python; all of them derive from [Exception]. *)
Inductive exn : Type :=
| ValueError (msg : string)
| JSONDecodeError (msg : string)
| KeyError (k : pykey)
| IndexError
| TypeError
| AttributeError
| RequestException (msg : string).

Inductive result (A : Type) : Type :=
| Return (a : A)
| Raise (e : exn).

Arguments Return {A} a.
Arguments Raise {A} e.

Definition bind {A B : Type} (m : result A) (f : A -> result B) : result B :=
  match m with
  | Return a => f a
  | Raise e => Raise e
  end.

Notation "x <- m ;; k" := (bind m (fun x => k))
  (at level 61, m at next level, right associativity).

Definition is_KeyError (e : exn) : bool :=
  match e with KeyError _ => true | _ => false end.

Definition is_KeyError_or_IndexError (e : exn) : bool :=
  match e with KeyError _ | IndexError => true | _ => false end.

(** [try: m except <sel>: h] *)
Definition catch {A : Type} (sel : exn -> bool) (m : result A) (h : result A)
  : result A :=
  match m with
  | Return a => Return a
  | Raise e => if sel e then h else Raise e
  end.

(** ** Decoded JSON values *)

Inductive pyfloat : Type :=
| FloatLit (lexeme : string)
| FloatNaN
| FloatInf
| FloatNegInf.

Inductive json : Type :=
| JNull
| JBool (b : bool)
| JInt (z : Z)
| JFloat (f : pyfloat)
| JStr (s : string)
| JList (l : list json)
| JDict (d : list (string * json)).

Definition Post : Type := json.

(** *** Dictionaries *)

Fixpoint dict_get {V : Type} (k : string) (d : list (string * V)) : option V :=
  match d with
  | [] => None
  | (k', v) :: d' => if String.eqb k k' then Some v else dict_get k d'
  end.

(** [d[k] = v]: a present key keeps its position, a new key goes last. *)
Fixpoint dict_set {V : Type} (k : string) (v : V) (d : list (string * V))
  : list (string * V) :=
  match d with
  | [] => [(k, v)]
  | (k', v') :: d' =>
      if String.eqb k k' then (k', v) :: d' else (k', v') :: dict_set k v d'
  end.

Definition dict_of_pairs {V : Type} (pairs : list (string * V))
  : list (string * V) :=
  fold_left (fun d kv => dict_set (fst kv) (snd kv) d) pairs [].

(** *** Subscripts, [.get], iteration *)

Definition chars_of (s : string) : list json :=
  map (fun c => JStr (String c EmptyString)) (list_ascii_of_string s).

(** Python sequence indexing with negative indices counted from the end. *)
Definition seq_index {A : Type} (l : list A) (i : Z) : result A :=
  let n := Z.of_nat (List.length l) in
  let j := if i <? 0 then i + n else i in
  if (j <? 0) || (n <=? j) then Raise IndexError
  else match nth_error l (Z.to_nat j) with
       | Some a => Return a
       | None => Raise IndexError
       end.

(** [v[k]] *)
Definition getitem (v : json) (k : pykey) : result json :=
  match v, k with
  | JDict d, KStr s =>
      match dict_get s d with
      | Some x => Return x
      | None => Raise (KeyError k)
      end
  | JDict _, KInt _ => Raise (KeyError k)
  | JList l, KInt i => seq_index l i
  | JList _, KStr _ => Raise TypeError
  | JStr s, KInt i => seq_index (chars_of s) i
  | JStr _, KStr _ => Raise TypeError
  | _, _ => Raise TypeError
  end.

(** [v.get(k, default)]: only a [dict] has the method. *)
Definition get_method (v : json) (k : string) (default : json) : result json :=
  match v with
  | JDict d =>
      match dict_get k d with
      | Some x => Return x
      | None => Return default
      end
  | _ => Raise AttributeError
  end.

(** The elements a [for] loop visits. *)
Definition iterate (v : json) : result (list json) :=
  match v with
  | JList l => Return l
  | JStr s => Return (chars_of s)
  | JDict d => Return (map (fun kv => JStr (fst kv)) d)
  | _ => Raise TypeError
  end.

Fixpoint mapM {A B : Type} (f : A -> result B) (l : list A) : result (list B) :=
  match l with
  | [] => Return []
  | a :: l' => b <- f a ;; bs <- mapM f l' ;; Return (b :: bs)
  end.

(** ** Characters and strings *)

Definition is_ws (c : ascii) : bool :=
  (c =? " ")%char || (c =? "009")%char || (c =? "010")%char || (c =? "013")%char.

Definition is_digit (c : ascii) : bool :=
  let n := nat_of_ascii c in (48 <=? n)%nat && (n <=? 57)%nat.

Definition digit_val (c : ascii) : Z := Z.of_nat (nat_of_ascii c) - 48.

Definition hex_val (c : ascii) : option Z :=
  let n := Z.of_nat (nat_of_ascii c) in
  if (48 <=? n) && (n <=? 57) then Some (n - 48)
  else if (65 <=? n) && (n <=? 70) then Some (n - 55)
  else if (97 <=? n) && (n <=? 102) then Some (n - 87)
  else None.

Definition chr (n : Z) : ascii := ascii_of_nat (Z.to_nat n).

Definition str1 (c : ascii) : string := String c EmptyString.

(** The double quote character. *)
Definition dquote : ascii := "034"%char.

(** The longest prefix of characters satisfying [p], and what follows it. *)
Fixpoint span (p : ascii -> bool) (s : string) : string * string :=
  match s with
  | EmptyString => (EmptyString, EmptyString)
  | String c r =>
      if p c then let '(a, b) := span p r in (String c a, b)
      else (EmptyString, s)
  end.

(** [WHITESPACE.match(s, end).end()] *)
Definition skip_ws (s : string) : string := snd (span is_ws s).

Fixpoint str_drop (n : nat) (s : string) : string :=
  match n, s with
  | O, _ => s
  | S n', String _ r => str_drop n' r
  | S _, EmptyString => EmptyString
  end.

Definition str_take (n : nat) (s : string) : string := substring 0 n s.

(** [s.find(sub, start)], with Python's [-1] for a missing occurrence. *)
Definition str_find (sub s : string) (start : nat) : Z :=
  match index start sub s with
  | Some i => Z.of_nat i
  | None => -1
  end.

(** [sub in s] *)
Definition str_contains (sub s : string) : bool :=
  match index 0 sub s with
  | Some _ => true
  | None => false
  end.

(** The UTF-8 bytes of the character with code point [n] (a lone surrogate
    is written with the same three-byte scheme). *)
Definition utf8_encode (n : Z) : string :=
  if n <? 128 then str1 (chr n)
  else if n <? 2048 then
    String (chr (192 + n / 64)) (str1 (chr (128 + n mod 64)))
  else if n <? 65536 then
    String (chr (224 + n / 4096))
      (String (chr (128 + (n / 64) mod 64)) (str1 (chr (128 + n mod 64))))
  else
    String (chr (240 + n / 262144))
      (String (chr (128 + (n / 4096) mod 64))
         (String (chr (128 + (n / 64) mod 64)) (str1 (chr (128 + n mod 64))))).

Fixpoint Z_of_digits (acc : Z) (s : string) : Z :=
  match s with
  | EmptyString => acc
  | String c r => Z_of_digits (10 * acc + digit_val c) r
  end.

(** ** [json.JSONDecoder.raw_decode]

    The decoder of Python's [json] package (default hooks, [strict] mode),
    written over the text that remains to be read: a successful scan returns
    the value and the rest of the input.  [StopIteration] of the scanner is
    folded into the [JSONDecodeError] its callers turn it into. *)

Inductive scan (A : Type) : Type :=
| Done (a : A) (rest : string)
| Fail (e : exn)
| OutOfFuel.

Arguments Done {A} a rest.
Arguments Fail {A} e.
Arguments OutOfFuel {A}.

Definition expecting_value : exn := JSONDecodeError "Expecting value".
Definition unterminated_string : exn :=
  JSONDecodeError "Unterminated string starting at".
Definition invalid_control : exn := JSONDecodeError "Invalid control character at".
Definition invalid_escape : exn := JSONDecodeError "Invalid \escape".
Definition invalid_uXXXX : exn := JSONDecodeError "Invalid \uXXXX escape".
Definition expecting_name : exn :=
  JSONDecodeError "Expecting property name enclosed in double quotes".
Definition expecting_colon : exn := JSONDecodeError "Expecting ':' delimiter".
Definition expecting_comma : exn := JSONDecodeError "Expecting ',' delimiter".

(** [BACKSLASH]: the one-character escapes. *)
Definition backslash (esc : ascii) : option ascii :=
  if (esc =? dquote)%char then Some dquote
  else if (esc =? "\")%char then Some "\"%char
  else if (esc =? "/")%char then Some "/"%char
  else if (esc =? "b")%char then Some "008"%char
  else if (esc =? "f")%char then Some "012"%char
  else if (esc =? "n")%char then Some "010"%char
  else if (esc =? "r")%char then Some "013"%char
  else if (esc =? "t")%char then Some "009"%char
  else None.

(** [_decode_uXXXX]: four hexadecimal digits. *)
Definition decode_uXXXX (h1 h2 h3 h4 : ascii) : option Z :=
  match hex_val h1, hex_val h2, hex_val h3, hex_val h4 with
  | Some a, Some b, Some c, Some d => Some (((a * 16 + b) * 16 + c) * 16 + d)
  | _, _, _, _ => None
  end.

Definition is_high_surrogate (u : Z) : bool := (55296 <=? u) && (u <=? 56319).
Definition is_low_surrogate (u : Z) : bool := (56320 <=? u) && (u <=? 57343).

(** What follows a [\uXXXX] escape of code [uni]: a high surrogate directly
    followed by the escape of a low surrogate makes one character with it;
    otherwise the character of [uni] is appended and the scan goes on at
    [r5]. *)
Definition after_uXXXX (scanstring : string -> string -> scan string)
  (uni : Z) (r5 acc : string) : scan string :=
  match r5 with
  | String b (String u (String g1 (String g2 (String g3 (String g4 r11))))) =>
      if is_high_surrogate uni && (b =? "\")%char && (u =? "u")%char then
        match decode_uXXXX g1 g2 g3 g4 with
        | None => Fail invalid_uXXXX
        | Some uni2 =>
            if is_low_surrogate uni2 then
              scanstring r11
                (acc ++ utf8_encode
                   (65536 + ((uni - 55296) * 1024 + (uni2 - 56320))))
            else scanstring r5 (acc ++ utf8_encode uni)
        end
      else scanstring r5 (acc ++ utf8_encode uni)
  | String b (String u _) =>
      if is_high_surrogate uni && (b =? "\")%char && (u =? "u")%char
      then Fail invalid_uXXXX
      else scanstring r5 (acc ++ utf8_encode uni)
  | _ => scanstring r5 (acc ++ utf8_encode uni)
  end.

(** One iteration of the loop of [py_scanstring(s, end)]: [s] is the text
    from [end] on, [acc] the text of the chunks read so far, and [scanstring]
    the iterations that follow. *)
Definition scanstring_step (scanstring : string -> string -> scan string)
  (s : string) (acc : string) : scan string :=
  match s with
  | EmptyString => Fail unterminated_string
  | String c r =>
      if (c =? dquote)%char then Done acc r
      else if (c =? "\")%char then
        match r with
        | EmptyString => Fail unterminated_string
        | String esc r1 =>
            if (esc =? "u")%char then
              match r1 with
              | String h1 (String h2 (String h3 (String h4 r5))) =>
                  match decode_uXXXX h1 h2 h3 h4 with
                  | None => Fail invalid_uXXXX
                  | Some uni => after_uXXXX scanstring uni r5 acc
                  end
              | _ => Fail invalid_uXXXX
              end
            else
              match backslash esc with
              | Some ch => scanstring r1 (acc ++ str1 ch)
              | None => Fail invalid_escape
              end
        end
      else if (nat_of_ascii c <? 32)%nat then Fail invalid_control
      else scanstring r (acc ++ str1 c)
  end.

(** [py_scanstring(s, end)], read from just after the opening quote. *)
Fixpoint scanstring (s : string) (acc : string) {struct s} : scan string :=
  scanstring_step scanstring s acc.

(** [NUMBER_RE.match]: the integer part, the fraction and the exponent
    (empty when the optional group does not take part), and the rest. *)
Definition match_integer (s : string) : option (string * string) :=
  let '(sign, s1) :=
    match s with
    | String c r => if (c =? "-")%char then ("-", r) else ("", s)
    | EmptyString => ("", s)
    end in
  match s1 with
  | String c r =>
      if (c =? "0")%char then Some (sign ++ "0", r)
      else if is_digit c then
        let '(ds, r') := span is_digit r in Some (sign ++ String c ds, r')
      else None
  | EmptyString => None
  end.

Definition match_frac (s : string) : string * string :=
  match s with
  | String c r =>
      if (c =? ".")%char then
        match span is_digit r with
        | (EmptyString, _) => ("", s)
        | (ds, r') => (String c ds, r')
        end
      else ("", s)
  | EmptyString => ("", s)
  end.

Definition match_exp (s : string) : string * string :=
  match s with
  | String c r =>
      if (c =? "e")%char || (c =? "E")%char then
        let '(sign, r1) :=
          match r with
          | String d r' =>
              if (d =? "-")%char || (d =? "+")%char then (str1 d, r') else ("", r)
          | EmptyString => ("", r)
          end in
        match span is_digit r1 with
        | (EmptyString, _) => ("", s)
        | (ds, r') => (String c (sign ++ ds), r')
        end
      else ("", s)
  | EmptyString => ("", s)
  end.

Definition match_number (s : string) : option (string * string * string * string) :=
  match match_integer s with
  | None => None
  | Some (integer, r1) =>
      let '(frac, r2) := match_frac r1 in
      let '(exp, r3) := match_exp r2 in
      Some (integer, frac, exp, r3)
  end.

(** [int(integer)] *)
Definition parse_int (integer : string) : Z :=
  match integer with
  | String c r => if (c =? "-")%char then - Z_of_digits 0 r else Z_of_digits 0 integer
  | EmptyString => 0
  end.

Definition starts_with (p s : string) : bool := prefix p s.

(** [scan_once], [JSONObject] and [JSONArray].  [object_loop] starts just
    after the opening quote of a property name, [array_loop] at a value. *)
Definition after_value_ws (s : string) : string :=
  match s with
  | String c r => if is_ws c then skip_ws r else s
  | EmptyString => s
  end.

(** The whitespace skipped after ['{'], unless a quote stands there. *)
Definition before_name_ws (s : string) : string :=
  match s with
  | String c _ =>
      if (c =? dquote)%char then s
      else if is_ws c then skip_ws s else s
  | EmptyString => s
  end.

(** The whitespace skipped after a property name, unless [':'] stands
    there. *)
Definition before_colon_ws (s : string) : string :=
  match s with
  | String c _ => if (c =? ":")%char then s else skip_ws s
  | EmptyString => s
  end.

(** The whitespace skipped after [':'] and after the [','] of an array. *)
Definition before_value_ws (s : string) : string :=
  match s with
  | String c r =>
      if is_ws c then
        match r with
        | String c' r' => if is_ws c' then skip_ws r' else r
        | EmptyString => r
        end
      else s
  | EmptyString => s
  end.

Fixpoint scan_once (fuel : nat) (s : string) {struct fuel} : scan json :=
  match fuel with
  | O => OutOfFuel
  | S fuel' =>
      match s with
      | EmptyString => Fail expecting_value
      | String nextchar r =>
          if (nextchar =? dquote)%char then
            match scanstring r "" with
            | Done str rest => Done (JStr str) rest
            | Fail e => Fail e
            | OutOfFuel => OutOfFuel
            end
          else if (nextchar =? "{")%char then
            match before_name_ws r with
            | String c r2 =>
                if (c =? dquote)%char then object_loop fuel' r2 []
                else if (c =? "}")%char then Done (JDict []) r2
                else Fail expecting_name
            | EmptyString => Fail expecting_name
            end
          else if (nextchar =? "[")%char then
            let r1 := after_value_ws r in
            match r1 with
            | String c r2 =>
                if (c =? "]")%char then Done (JList []) r2
                else array_loop fuel' r1 []
            | EmptyString => array_loop fuel' r1 []
            end
          else if starts_with "null" s then Done JNull (str_drop 4 s)
          else if starts_with "true" s then Done (JBool true) (str_drop 4 s)
          else if starts_with "false" s then Done (JBool false) (str_drop 5 s)
          else
            match match_number s with
            | Some (integer, frac, exp, rest) =>
                match frac, exp with
                | EmptyString, EmptyString => Done (JInt (parse_int integer)) rest
                | _, _ => Done (JFloat (FloatLit (integer ++ frac ++ exp))) rest
                end
            | None =>
                if starts_with "NaN" s then Done (JFloat FloatNaN) (str_drop 3 s)
                else if starts_with "Infinity" s then
                  Done (JFloat FloatInf) (str_drop 8 s)
                else if starts_with "-Infinity" s then
                  Done (JFloat FloatNegInf) (str_drop 9 s)
                else Fail expecting_value
            end
      end
  end

with object_loop (fuel : nat) (s : string) (pairs : list (string * json))
  {struct fuel} : scan json :=
  match fuel with
  | O => OutOfFuel
  | S fuel' =>
      match scanstring s "" with
      | OutOfFuel => OutOfFuel
      | Fail e => Fail e
      | Done key s1 =>
          match before_colon_ws s1 with
          | String c s3 =>
              if (c =? ":")%char then
                match scan_once fuel' (before_value_ws s3) with
                | OutOfFuel => OutOfFuel
                | Fail e => Fail e
                | Done value s4 =>
                    let pairs' := (pairs ++ [(key, value)])%list in
                    match after_value_ws s4 with
                    | String nextchar s5 =>
                        if (nextchar =? "}")%char then
                          Done (JDict (dict_of_pairs pairs')) s5
                        else if (nextchar =? ",")%char then
                          match skip_ws s5 with
                          | String q s6 =>
                              if (q =? dquote)%char then object_loop fuel' s6 pairs'
                              else Fail expecting_name
                          | EmptyString => Fail expecting_name
                          end
                        else Fail expecting_comma
                    | EmptyString => Fail expecting_comma
                    end
                end
              else Fail expecting_colon
          | EmptyString => Fail expecting_colon
          end
      end
  end

with array_loop (fuel : nat) (s : string) (values : list json)
  {struct fuel} : scan json :=
  match fuel with
  | O => OutOfFuel
  | S fuel' =>
      match scan_once fuel' s with
      | OutOfFuel => OutOfFuel
      | Fail e => Fail e
      | Done value s1 =>
          let values' := (values ++ [value])%list in
          match after_value_ws s1 with
          | String nextchar s2 =>
              if (nextchar =? "]")%char then Done (JList values') s2
              else if (nextchar =? ",")%char then
                array_loop fuel' (before_value_ws s2) values'
              else Fail expecting_comma
          | EmptyString => Fail expecting_comma
          end
      end
  end.

(** [JSONDecoder().raw_decode(s)]: the value and the index where it ends.
    Two units of fuel for each character are enough for the scan to reach an
    outcome, so the last case never arises. *)
Definition raw_decode (s : string) : result (json * nat) :=
  match scan_once (S (2 * String.length s)) s with
  | Done v rest => Return (v, (String.length s - String.length rest)%nat)
  | Fail e => Raise e
  | OutOfFuel => Raise expecting_value
  end.

(** Test blobs are written with ['] where the text has a double quote. *)
Fixpoint dq (s : string) : string :=
  match s with
  | EmptyString => EmptyString
  | String c r => String (if (c =? "'")%char then dquote else c) (dq r)
  end.

(** ** The JSON locator *)

Definition encoded_key_of (key : string) : string :=
  String dquote (key ++ String dquote ":").

Definition key_not_found (raw key : string) : exn :=
  ValueError ("Key " ++ key ++ " not found in " ++ str_take 100 raw ++ "...").

Definition brace_not_found (raw : string) (key_pos : nat) : exn :=
  ValueError ("Opening brace not found in " ++ substring key_pos 100 raw ++ "...").

Definition _extract_json_from_html (raw key : string) : result json :=
  let encoded_key := encoded_key_of key in
  let key_pos := str_find encoded_key raw 0 in
  if key_pos =? -1 then Raise (key_not_found raw key)
  else
    let brace_pos :=
      str_find "{" raw (Z.to_nat key_pos + String.length encoded_key) in
    if brace_pos =? -1 then Raise (brace_not_found raw (Z.to_nat key_pos))
    else
      decoded <- raw_decode (str_drop (Z.to_nat brace_pos) raw) ;;
      Return (fst decoded).

(** ** The Python runtime the extractors rely on

    What the model leaves to the interpreter: binary floating point, [repr]
    of a string, and the decoding of non-ASCII bytes as UTF-8 with
    replacement characters. *)

Record PyRuntime : Type := {
  float_bool : pyfloat -> bool;          (* bool(x) *)
  float_gt_zero : pyfloat -> bool;       (* x > 0 *)
  float_percentage : pyfloat -> string;  (* str(round(x * 100, 1)) *)
  float_repr : pyfloat -> string;        (* repr(x) *)
  str_repr : string -> string;           (* repr(s) *)
  utf8_decode_replace : string -> string (* b.decode('utf-8', 'replace') *)
}.

Fixpoint string_of_pos_digits (fuel : nat) (n : Z) (acc : string) : string :=
  match fuel with
  | O => acc
  | S fuel' =>
      let acc' := String (chr (48 + n mod 10)) acc in
      if n <? 10 then acc' else string_of_pos_digits fuel' (n / 10) acc'
  end.

(** [str(n)] of an [int] *)
Definition int_str (n : Z) : string :=
  if n <? 0 then "-" ++ string_of_pos_digits (Z.to_nat (Z.log2 (- n)) + 1) (- n) ""
  else string_of_pos_digits (Z.to_nat (Z.log2 n) + 1) n "".

Fixpoint join (sep : string) (l : list string) : string :=
  match l with
  | [] => ""
  | [a] => a
  | a :: l' => a ++ sep ++ join sep l'
  end.

(** *** Helpers on text: [rstrip], percent-decoding, the redirect regex *)

(** [s.rstrip(chars)]: drops every trailing character that is in [chars]. *)
Fixpoint rstrip (chars : ascii -> bool) (s : string) : string :=
  match s with
  | EmptyString => EmptyString
  | String c r =>
      match rstrip chars r with
      | EmptyString => if chars c then EmptyString else str1 c
      | r' => String c r'
      end
  end.

Definition is_ascii_char (c : ascii) : bool := (nat_of_ascii c <? 128)%nat.

Fixpoint all_ascii (s : string) : bool :=
  match s with
  | EmptyString => true
  | String c r => is_ascii_char c && all_ascii r
  end.

(** [_asciire.split]: the maximal runs of ASCII and of non-ASCII characters. *)
Fixpoint ascii_runs (s : string) : list string :=
  match s with
  | EmptyString => []
  | String c r =>
      match ascii_runs r with
      | (String c' _ as run) :: runs =>
          if Bool.eqb (is_ascii_char c) (is_ascii_char c')
          then String c run :: runs
          else str1 c :: run :: runs
      | runs => str1 c :: runs
      end
  end.

(** [unquote_to_bytes]: ['%'] and two hexadecimal digits become one byte. *)
Fixpoint unquote_to_bytes (s : string) : string :=
  match s with
  | EmptyString => EmptyString
  | String c r =>
      if (c =? "%")%char then
        match r with
        | String h1 (String h2 r2) =>
            match hex_val h1, hex_val h2 with
            | Some a, Some b => String (chr (16 * a + b)) (unquote_to_bytes r2)
            | _, _ => String c (unquote_to_bytes r)
            end
        | _ => String c (unquote_to_bytes r)
        end
      else String c (unquote_to_bytes r)
  end.

Definition is_lf (c : ascii) : bool := (c =? "010")%char.

(** One match of [(?<=q=)(.+)] in [s]: the first place that comes right after
    ["q="] and holds a character other than a line feed; the group runs to
    the end of that line.  Returns the group and the text after it. *)
Fixpoint search_q (s : string) : option (string * string) :=
  match s with
  | EmptyString => None
  | String c r =>
      if (c =? "q")%char && starts_with "=" r then
        match span (fun x => negb (is_lf x)) (str_drop 1 r) with
        | (EmptyString, _) => search_q r
        | (group, rest) => Some (group, rest)
        end
      else search_q r
  end.

Fixpoint findall_q (fuel : nat) (s : string) : list string :=
  match fuel with
  | O => []
  | S fuel' =>
      match search_q s with
      | Some (group, rest) => group :: findall_q fuel' rest
      | None => []
      end
  end.

(** [re.findall(r"(?<=q=)(.+)", v)]; the pattern needs a [str]. *)
Definition re_findall_q (v : json) : result (list string) :=
  match v with
  | JStr s => Return (findall_q (String.length s) s)
  | _ => Raise TypeError
  end.

Section Runtime.

Variable rt : PyRuntime.

(** [repr(v)] *)
Fixpoint py_repr (v : json) : string :=
  match v with
  | JNull => "None"
  | JBool true => "True"
  | JBool false => "False"
  | JInt z => int_str z
  | JFloat f => float_repr rt f
  | JStr s => str_repr rt s
  | JList l => "[" ++ join ", " (map py_repr l) ++ "]"
  | JDict d =>
      "{" ++ join ", " (map (fun kv => str_repr rt (fst kv) ++ ": " ++ py_repr (snd kv)) d)
          ++ "}"
  end.

(** [str(v)], the conversion of an f-string field *)
Definition py_str (v : json) : string :=
  match v with
  | JStr s => s
  | _ => py_repr v
  end.

(** [bool(v)] *)
Definition truthy (v : json) : bool :=
  match v with
  | JNull => false
  | JBool b => b
  | JInt z => negb (z =? 0)
  | JFloat f => float_bool rt f
  | JStr s => negb (String.eqb s "")
  | JList l => match l with [] => false | _ => true end
  | JDict d => match d with [] => false | _ => true end
  end.

(** *** Media links *)

Definition _get_video_link (post : Post) : result (option string) :=
  catch is_KeyError
    (attachment <- getitem post (KStr "backstageAttachment") ;;
     renderer <- getitem attachment (KStr "videoRenderer") ;;
     video_id <- getitem renderer (KStr "videoId") ;;
     Return (Some ("https://www.youtube.com/watch?v=" ++ py_str video_id)))
    (Return None).

(** [x["backstageImageRenderer"]["image"]["thumbnails"][-1]["url"]] *)
Definition last_thumbnail_url (x : json) : result json :=
  renderer <- getitem x (KStr "backstageImageRenderer") ;;
  image <- getitem renderer (KStr "image") ;;
  thumbnails <- getitem image (KStr "thumbnails") ;;
  last <- getitem thumbnails (KInt (-1)) ;;
  getitem last (KStr "url").

(** The body of the first [try]: a single image. *)
Definition try_single_image (post : Post) : result (option (list json)) :=
  attachment <- getitem post (KStr "backstageAttachment") ;;
  single_image <- last_thumbnail_url attachment ;;
  Return (Some [single_image]).

(** The body of the second [try]: several images. *)
Definition try_multi_image (post : Post) : result (option (list json)) :=
  attachment <- getitem post (KStr "backstageAttachment") ;;
  renderer <- getitem attachment (KStr "postMultiImageRenderer") ;;
  images <- getitem renderer (KStr "images") ;;
  items <- iterate images ;;
  links <- mapM last_thumbnail_url items ;;
  Return (match links with [] => None | _ => Some links end).

Definition _get_image_links (post : Post) : result (option (list json)) :=
  catch is_KeyError
    (try_single_image post)
    (catch is_KeyError (try_multi_image post) (Return None)).

(** *** Text content *)

(** [urllib.parse.unquote(s)] *)
Definition unquote (s : string) : string :=
  if negb (str_contains "%" s) then s
  else
    String.concat ""
      (map (fun run =>
              match run with
              | String c _ =>
                  if is_ascii_char c then
                    let b := unquote_to_bytes run in
                    if all_ascii b then b else utf8_decode_replace rt b
                  else run
              | EmptyString => run
              end)
           (ascii_runs s)).

(** [str.join]: every item must be a [str]. *)
Fixpoint str_join_empty (l : list json) : result string :=
  match l with
  | [] => Return ""
  | JStr s :: l' => r <- str_join_empty l' ;; Return (s ++ r)
  | _ :: _ => Raise TypeError
  end.

Definition _handle_text_content (content : json) : result json :=
  catch is_KeyError_or_IndexError
    (endpoint <- getitem content (KStr "navigationEndpoint") ;;
     url_endpoint <- getitem endpoint (KStr "urlEndpoint") ;;
     link_redirect <- getitem url_endpoint (KStr "url") ;;
     link_match <- re_findall_q link_redirect ;;
     match link_match with
     | m :: _ => Return (JStr (unquote m))
     | [] => Return link_redirect
     end)
    (get_method content "text" (JStr "")).

Definition text_of_runs (post : Post) (key : string) : result (option string) :=
  container <- getitem post (KStr key) ;;
  text_runs <- getitem container (KStr "runs") ;;
  items <- iterate text_runs ;;
  strings <- mapM _handle_text_content items ;;
  joined <- str_join_empty strings ;;
  Return (Some joined).

Definition _get_text_content (post : Post) : result (option string) :=
  catch is_KeyError
    (text_of_runs post "contentText")
    (catch is_KeyError (text_of_runs post "content") (Return None)).

(** *** Poll *)

(** [vote_ratio > 0] *)
Definition gt_zero (v : json) : result bool :=
  match v with
  | JBool b => Return b
  | JInt z => Return (0 <? z)
  | JFloat f => Return (float_gt_zero rt f)
  | _ => Raise TypeError
  end.

(** [str(round(vote_ratio * 100, 1))], for a ratio that compared with 0 *)
Definition percentage_str (v : json) : string :=
  match v with
  | JBool b => int_str (if b then 100 else 0)
  | JInt z => int_str (z * 100)
  | JFloat f => float_percentage rt f
  | _ => ""
  end.

Definition poll_choice (poll_text : string) (choice : json) : result string :=
  text_field <- get_method choice "text" (JDict []) ;;
  runs <- get_method text_field "runs" (JList [JDict []]) ;;
  first_run <- getitem runs (KInt 0) ;;
  text <- get_method first_run "text" (JStr "") ;;
  vote_ratio <- get_method choice "voteRatio" (JInt 0) ;;
  positive <- gt_zero vote_ratio ;;
  if positive then
    Return (poll_text ++ py_str text ++ ": " ++ percentage_str vote_ratio ++ "%, ")
  else Return (poll_text ++ py_str text ++ ", ").

Fixpoint poll_loop (poll_text : string) (choices : list json) : result string :=
  match choices with
  | [] => Return poll_text
  | choice :: rest =>
      poll_text' <- poll_choice poll_text choice ;; poll_loop poll_text' rest
  end.

Definition _get_poll_content (post : Post) : result (option string) :=
  catch is_KeyError
    (attachment <- getitem post (KStr "backstageAttachment") ;;
     poll <- getitem attachment (KStr "pollRenderer") ;;
     choices <- get_method poll "choices" (JList []) ;;
     if negb (truthy choices) then Return None
     else
       items <- iterate choices ;;
       poll_text <- poll_loop "Poll: " items ;;
       Return (Some (rstrip (fun c => (c =? ",")%char || (c =? " ")%char) poll_text)))
    (Return None).

End Runtime.

(** ** The URL validator *)

Definition ALLOWED_SCHEMES : list string := ["http"; "https"].

Definition ALLOWED_NETLOCS : list string :=
  ["youtu.be"; "m.youtube.com"; "youtube.com"; "www.youtube.com";
   "www.youtube-nocookie.com"].

Definition str_in (s : string) (l : list string) : bool :=
  existsb (String.eqb s) l.

(** *** [urllib.parse.urlparse]

    The splitting of a URL into scheme, netloc, path, parameters, query and
    fragment.  Python further validates a netloc that holds both brackets as
    an IPv6 literal and a non-ASCII netloc after normalisation; the model
    lets these two pass. *)

Record ParseResult : Type := {
  scheme : string;
  netloc : string;
  path : string;
  params : string;
  query : string;
  fragment : string
}.

Definition is_alpha (c : ascii) : bool :=
  let n := nat_of_ascii c in
  ((65 <=? n) && (n <=? 90) || (97 <=? n) && (n <=? 122))%nat.

Definition is_scheme_char (c : ascii) : bool :=
  is_alpha c || is_digit c || (c =? "+")%char || (c =? "-")%char || (c =? ".")%char.

Definition lower_char (c : ascii) : ascii :=
  let n := nat_of_ascii c in
  if ((65 <=? n) && (n <=? 90))%nat then ascii_of_nat (n + 32) else c.

Fixpoint str_map (f : ascii -> ascii) (s : string) : string :=
  match s with
  | EmptyString => EmptyString
  | String c r => String (f c) (str_map f r)
  end.

Fixpoint str_filter (p : ascii -> bool) (s : string) : string :=
  match s with
  | EmptyString => EmptyString
  | String c r => if p c then String c (str_filter p r) else str_filter p r
  end.

Fixpoint str_forall (p : ascii -> bool) (s : string) : bool :=
  match s with
  | EmptyString => true
  | String c r => p c && str_forall p r
  end.

(** [s.split(c, 1)] for a [c] known to occur, and [(s, "")] otherwise. *)
Definition split_once (c : ascii) (s : string) : string * string :=
  match span (fun x => negb (x =? c)%char) s with
  | (a, String _ b) => (a, b)
  | (a, EmptyString) => (a, EmptyString)
  end.

(** [s.split(c)] *)
Fixpoint split_on (c : ascii) (s : string) : list string :=
  match s with
  | EmptyString => [EmptyString]
  | String x r =>
      if (x =? c)%char then EmptyString :: split_on c r
      else match split_on c r with
           | seg :: segs => String x seg :: segs
           | [] => [str1 x]
           end
  end.

Definition is_c0_or_space (c : ascii) : bool := (nat_of_ascii c <=? 32)%nat.

Definition is_unsafe_url_byte (c : ascii) : bool :=
  (c =? "009")%char || (c =? "013")%char || (c =? "010")%char.

Definition urlsplit (url0 : string) : result ParseResult :=
  let url := snd (span is_c0_or_space url0) in
  let url := str_filter (fun c => negb (is_unsafe_url_byte c)) url in
  let '(scheme, url) :=
    let '(before, _) := span (fun c => negb (c =? ":")%char) url in
    match url with
    | String c0 _ =>
        if str_contains ":" url && negb (String.eqb before "")
           && is_ascii_char c0 && is_alpha c0 && str_forall is_scheme_char before
        then (str_map lower_char before, snd (split_once ":" url))
        else ("", url)
    | EmptyString => ("", url)
    end in
  let '(netloc, url) :=
    if starts_with "//" url then
      span (fun c => negb ((c =? "/")%char || (c =? "?")%char || (c =? "#")%char))
        (str_drop 2 url)
    else ("", url) in
  if xorb (str_contains "[" netloc) (str_contains "]" netloc)
  then Raise (ValueError "Invalid IPv6 URL")
  else
    let '(url, fragment) := split_once "#" url in
    let '(url, query) := split_once "?" url in
    Return {| scheme := scheme; netloc := netloc; path := url; params := "";
              query := query; fragment := fragment |}.

Definition uses_params : list string :=
  [""; "ftp"; "hdl"; "prospero"; "http"; "imap"; "https"; "shttp"; "rtsp";
   "rtsps"; "rtspu"; "sip"; "sips"; "mms"; "sftp"; "tel"].

(** [_splitparams]: the parameters of the last path segment. *)
Definition _splitparams (url : string) : string * string :=
  let segs := split_on "/" url in
  let last_seg := List.last segs "" in
  let head := substring 0 (String.length url - String.length last_seg) url in
  let '(seg, ps) := split_once ";" last_seg in
  (head ++ seg, ps).

Definition urlparse (url : string) : result ParseResult :=
  sp <- urlsplit url ;;
  if str_in (scheme sp) uses_params && str_contains ";" (path sp) then
    let '(url', ps) := _splitparams (path sp) in
    Return {| scheme := scheme sp; netloc := netloc sp; path := url';
              params := ps; query := query sp; fragment := fragment sp |}
  else Return sp.

(** *** [_parse_community_post_url] *)

Definition _parse_community_post_url (url : string) : result string :=
  parsed_url <- urlparse url ;;
  if negb (str_in (scheme parsed_url) ALLOWED_SCHEMES) then
    Raise (ValueError ("Invalid URL scheme: " ++ scheme parsed_url))
  else if negb (str_in (netloc parsed_url) ALLOWED_NETLOCS) then
    Raise (ValueError ("Invalid URL netloc: " ++ netloc parsed_url))
  else
    let path := path parsed_url in
    if negb (str_contains "/post/" path) then
      Raise (ValueError ("Invalid URL path: " ++ path))
    else Return (List.last (split_on "/" path) "").

(** ** The loader *)

Definition DEFAULT_SOCS_COOKIE : string :=
  "CAESEwgDEgk2NDg4NTY2OTgaAnJvIAEaBgiAtae0Bg".

Record Document : Type := {
  page_content : json;
  metadata : list (string * json)
}.

Record YoutubeCommunityLoader : Type := {
  post_id : string;
  continue_on_failure : bool
}.

(** [__init__], with the default of [continue_on_failure] *)
Definition new_loader (post_id : string) (continue_on_failure : option bool)
  : YoutubeCommunityLoader :=
  {| post_id := post_id;
     continue_on_failure :=
       match continue_on_failure with Some b => b | None => false end |}.

Definition extract_post_id (youtube_community_url : string) : result string :=
  _parse_community_post_url youtube_community_url.

Definition from_youtube_community_url (youtube_community_url : string)
  (continue_on_failure : option bool) : result YoutubeCommunityLoader :=
  post_id <- extract_post_id youtube_community_url ;;
  Return (new_loader post_id continue_on_failure).

(** What the loader writes to its logger: the level, and the values the
    message is formatted from. *)
Inductive log_record : Type :=
| LogDebugSocs (e : exn)
| LogErrorLoading (post_id : string) (e : exn).

Definition json_of_option {A : Type} (f : A -> json) (o : option A) : json :=
  match o with
  | Some a => f a
  | None => JNull
  end.

(** [d.get(k, default)] of the [post_data] dictionary *)
Definition get_or (d : list (string * json)) (k : string) (default : json) : json :=
  match dict_get k d with
  | Some v => v
  | None => default
  end.

Section Loader.

Variable rt : PyRuntime.

(** The world outside the loader: the cookies of a fresh
    [requests.Session()] (or the exception creating it raises), the text of
    the page that [session.get] followed by [raise_for_status] returns for a
    URL and a SOCS cookie (or the exception they raise), and the UTC time,
    formatted, at the call. *)
Variable session_cookies : result (list (string * string)).
Variable http_get : string -> string -> result string.
Variable utcnow : string.

Variable self : YoutubeCommunityLoader.

Definition _get_socs_cookie : string * list log_record :=
  match session_cookies with
  | Return cookies =>
      match dict_get "SOCS" cookies with
      | Some cookie =>
          if (14 <? String.length cookie)%nat then (cookie, [])
          else (DEFAULT_SOCS_COOKIE, [])
      | None => (DEFAULT_SOCS_COOKIE, [])
      end
  | Raise e => (DEFAULT_SOCS_COOKIE, [LogDebugSocs e])
  end.

Definition published_time (post_json : Post) : result json :=
  published <- getitem post_json (KStr "publishedTimeText") ;;
  runs <- getitem published (KStr "runs") ;;
  first_run <- getitem runs (KInt 0) ;;
  getitem first_run (KStr "text").

Definition _parse_post_data (post_json : Post) (post_url : string)
  : result (list (string * json)) :=
  text <- _get_text_content rt post_json ;;
  video_link <- _get_video_link rt post_json ;;
  image_links <- _get_image_links post_json ;;
  poll_content <- _get_poll_content rt post_json ;;
  let post_data :=
    [("post_link", JStr post_url);
     ("post_id", JStr (post_id self));
     ("text_content",
       JStr match text with
            | Some s => s
            | None => ""
            end);
     ("video_link", json_of_option JStr video_link);
     ("image_links", json_of_option JList image_links);
     ("poll_content", json_of_option JStr poll_content);
     ("time_of_download", JStr utcnow)] in
  time_since <- published_time post_json ;;
  Return (dict_set "time_since" time_since post_data).

Definition _extract_post_from_html (html post_url : string)
  : result (list (string * json)) :=
  post_json <- _extract_json_from_html html "backstagePostRenderer" ;;
  post_json <-
    (if negb (truthy rt post_json)
     then _extract_json_from_html html "sharedPostRenderer"
     else Return post_json) ;;
  _parse_post_data post_json post_url.

Definition set_if_truthy (post_data : list (string * json)) (k : string)
  (metadata : list (string * json)) : list (string * json) :=
  if truthy rt (get_or post_data k JNull)
  then dict_set k (get_or post_data k JNull) metadata
  else metadata.

Definition _create_document (post_data : list (string * json)) : Document :=
  let text_content := get_or post_data "text_content" (JStr "") in
  let metadata :=
    [("source", get_or post_data "post_link" (JStr ""));
     ("post_id", JStr (post_id self));
     ("time_since", get_or post_data "time_since" (JStr ""));
     ("time_of_download", get_or post_data "time_of_download" (JStr ""))] in
  let metadata := set_if_truthy post_data "video_link" metadata in
  let metadata := set_if_truthy post_data "image_links" metadata in
  let metadata := set_if_truthy post_data "poll_content" metadata in
  {| page_content := text_content; metadata := metadata |}.

Definition _load_post : result (list Document) * list log_record :=
  let '(socs_cookie, logged) := _get_socs_cookie in
  let post_url := "https://www.youtube.com/post/" ++ post_id self in
  (html <- http_get post_url socs_cookie ;;
   post_data <- _extract_post_from_html html post_url ;;
   Return [_create_document post_data],
   logged).

Definition load : result (list Document) * list log_record :=
  let '(outcome, logged) := _load_post in
  match outcome with
  | Return documents => (Return documents, logged)
  | Raise e =>
      if continue_on_failure self
      then (Return [], (logged ++ [LogErrorLoading (post_id self) e])%list)
      else (Raise e, logged)
  end.

End Loader.

(** * Vocabulary of the specification *)

(** The value found by following [keys] through nested mappings. *)
Fixpoint lookup_path (keys : list string) (v : json) : option json :=
  match keys with
  | [] => Some v
  | k :: ks =>
      match v with
      | JDict d =>
          match dict_get k d with
          | Some x => lookup_path ks x
          | None => None
          end
      | _ => None
      end
  end.

(** A sub-structure is missing: following [keys] through mappings arrives at
    a mapping that lacks the next key. *)
Fixpoint path_missing (keys : list string) (v : json) : bool :=
  match keys with
  | [] => false
  | k :: ks =>
      match v with
      | JDict d =>
          match dict_get k d with
          | Some x => path_missing ks x
          | None => true
          end
      | _ => false
      end
  end.

(** The text [sub] stands in [s] at position [i]. *)
Definition occurs_at (sub s : string) (i : nat) : Prop :=
  substring i (String.length sub) s = sub.

(** [i] is the first position, from [start] on, where [sub] stands in [s]. *)
Definition first_at (sub s : string) (start i : nat) : Prop :=
  (start <= i)%nat
  /\ occurs_at sub s i
  /\ forall j, (start <= j)%nat -> (j < i)%nat -> ~ occurs_at sub s j.

(** The least number of characters [scanstring] reads before it can return:
    a six-character unicode escape, a two-character escape, or one
    character. *)
Definition escape_span (s : string) : nat :=
  match s with
  | String c t =>
      if (c =? "\")%char then
        match t with
        | String e _ => if (e =? "u")%char then 6%nat else 2%nat
        | EmptyString => 2%nat
        end
      else 1%nat
  | EmptyString => 1%nat
  end.


(** [P] puts a fixed text in front of its argument: the text a scan has
    consumed, as a function of what follows it. *)
Definition app_fun (P : string -> string) : Prop :=
  exists p, forall x, P x = p ++ x.

(** A scan of [s] that stops at [r] has read a text in front of [r], and reads
    it to the same result [out] whatever follows, as long as what follows
    satisfies [ok]. *)
Definition reads_prefix {A : Type} (scan_from : string -> scan A)
  (s : string) (a : A) (r : string) (ok : string -> Prop) : Prop :=
  (String.length r < String.length s)%nat
  /\ exists P, s = P r /\ app_fun P
               /\ forall r', ok r' -> scan_from (P r') = Done a r'.

(** A character that cannot continue a number. *)
Definition ends_number (r : string) : Prop :=
  match r with
  | String c _ =>
      is_digit c = false /\ c <> "."%char /\ c <> "e"%char /\ c <> "E"%char
  | EmptyString => True
  end.

(** The next character, if any, is not a digit. *)
Definition nondigit_head (r : string) : Prop :=
  match r with
  | String c _ => is_digit c = false
  | EmptyString => True
  end.

(** The values read by [NUMBER_RE]. *)
Definition is_number (v : json) : bool :=
  match v with
  | JInt _ => true
  | JFloat (FloatLit _) => true
  | _ => false
  end.

(** What may follow a value: a number must be followed by a character
    that cannot continue it. *)
Definition value_ok (v : json) (r' : string) : Prop :=
  is_number v = true -> ends_number r'.

(** The three scanning functions read a prefix of their input. *)
Definition reads_value (fuel : nat) : Prop :=
  forall s v r,
    scan_once fuel s = Done v r ->
    reads_prefix (scan_once fuel) s v r (value_ok v).

Definition reads_object (fuel : nat) : Prop :=
  forall s pairs v r,
    object_loop fuel s pairs = Done v r ->
    reads_prefix (fun x => object_loop fuel x pairs) s v r (fun _ => True).

Definition reads_array (fuel : nat) : Prop :=
  forall s values v r,
    array_loop fuel s values = Done v r ->
    reads_prefix (fun x => array_loop fuel x values) s v r (fun _ => True).

Definition video_path : list string :=
  ["backstageAttachment"; "videoRenderer"; "videoId"].
Definition single_image_path : list string :=
  ["backstageAttachment"; "backstageImageRenderer"; "image"; "thumbnails"].
Definition multi_image_path : list string :=
  ["backstageAttachment"; "postMultiImageRenderer"; "images"].
Definition poll_path : list string := ["backstageAttachment"; "pollRenderer"].
Definition content_text_path : list string := ["contentText"; "runs"].
Definition content_path : list string := ["content"; "runs"].


(** The required timestamp, read along
    publishedTimeText, runs, first run, text. *)
Definition published_time_path (post : json) : option json :=
  match lookup_path ["publishedTimeText"; "runs"] post with
  | Some (JList (first_run :: _)) => lookup_path ["text"] first_run
  | _ => None
  end.

(** The timestamp path is absent: a key of it is missing, or the run list is
    empty. *)
Definition published_time_absent (post : json) : bool :=
  path_missing ["publishedTimeText"; "runs"] post
  || match lookup_path ["publishedTimeText"; "runs"] post with
     | Some (JList []) => true
     | Some (JList (first_run :: _)) => path_missing ["text"] first_run
     | _ => false
     end.

(** * Inputs of the examples *)

(** An interpreter for the examples below, whose data holds no float, no
    non-ASCII byte and no value that [repr] would quote: every field is a
    constant. *)
Definition example_runtime : PyRuntime :=
  {| float_bool := fun _ => true;
     float_gt_zero := fun _ => false;
     float_percentage := fun _ => "";
     float_repr := fun _ => "";
     str_repr := fun s => s;
     utf8_decode_replace := fun s => s |}.

(** The value a blob decodes to ([JNull] when it does not decode). *)
Definition decoded (blob : string) : json :=
  match raw_decode (dq blob) with
  | Return (v, _) => v
  | Raise _ => JNull
  end.


(** A page that embeds a repost only. *)
Definition shared_only_html : string :=
  dq "<script>var ytInitialData = {'sharedPostRenderer':{'content':{'runs':[{'text':'hi'}]},'publishedTimeText':{'runs':[{'text':'1 day ago'}]}}};</script>".

(** A page that embeds a direct post. *)
Definition direct_post_html : string :=
  dq "<script>var ytInitialData = {'backstagePostRenderer':{'contentText':{'runs':[{'text':'hi'}]},'publishedTimeText':{'runs':[{'text':'1 day ago'}]}}};</script>".

Definition trailing_slash_url : string :=
  "https://www.youtube.com/post/UgkxCWeKPiIOLsnh_5a0mpHWywRz/".

Definition poll_trailing_space : Post :=
  decoded "{'backstageAttachment':{'pollRenderer':{'choices':[{'text':{'runs':[{'text':'A'}]}},{'text':{'runs':[{'text':'B '}]}}]}}}".

Definition poll_two_ratios : Post :=
  decoded "{'backstageAttachment':{'pollRenderer':{'choices':[{'text':{'runs':[{'text':'A'}]},'voteRatio':0.4},{'text':{'runs':[{'text':'B'}]},'voteRatio':0.6}]}}}".

Definition poll_untitled_choice : Post :=
  decoded "{'backstageAttachment':{'pollRenderer':{'choices':[{}]}}}".

Definition link_with_more_parameters : Post :=
  decoded "{'contentText':{'runs':[{'navigationEndpoint':{'urlEndpoint':{'url':'https://www.youtube.com/redirect?q=https%3A%2F%2Fexample.com&v=abc'}}},{'text':' hello'}]}}".



(** A post with text, a video and a poll, and no timestamp. *)
Definition post_without_time : Post :=
  decoded "{'contentText':{'runs':[{'text':'hi'}]},'backstageAttachment':{'videoRenderer':{'videoId':'abc'},'pollRenderer':{'choices':[{'text':{'runs':[{'text':'A'}]}}]}}}".

(** A post with text and a timestamp only. *)
Definition text_only_post : Post :=
  decoded "{'contentText':{'runs':[{'text':'hi'}]},'publishedTimeText':{'runs':[{'text':'1 day ago'}]}}".


(** A post whose attachment is a string. *)
Definition post_with_string_attachment : Post :=
  decoded "{'backstageAttachment':'removed','publishedTimeText':{'runs':[{'text':'1 day ago'}]}}".

(** The record built from a post that holds nothing but [text] and the
    timestamp [time_since]. *)
Definition plain_record (self : YoutubeCommunityLoader)
  (post_url text utcnow : string) (time_since : json) : list (string * json) :=
  [("post_link", JStr post_url);
   ("post_id", JStr (post_id self));
   ("text_content", JStr text);
   ("video_link", JNull);
   ("image_links", JNull);
   ("poll_content", JNull);
   ("time_of_download", JStr utcnow);
   ("time_since", time_since)].

(** The run of a link whose redirect URL is [url]. *)
Definition link_run (url : string) : json :=
  JDict [("navigationEndpoint", JDict [("urlEndpoint", JDict [("url", JStr url)])])].

Definition link_url_path : list string :=
  ["navigationEndpoint"; "urlEndpoint"; "url"].

(** A redirect URL that ends with an empty [q] parameter. *)
Definition redirect_with_empty_q : string :=
  "https://www.youtube.com/redirect?event=backstage&q=".

Definition not_lf (c : ascii) : bool := negb (is_lf c).

Definition example_loader : YoutubeCommunityLoader := new_loader "P1" None.

Definition example_url : string := "https://www.youtube.com/post/P1".

Definition example_time : string := "2026-11-04 10:00:00 UTC".

Definition link_then_text : Post :=
  decoded "{'contentText':{'runs':[{'navigationEndpoint':{'urlEndpoint':{'url':'https://redirect?q=https%3A%2F%2Fexample.com'}}},{'text':' hello'}]}}".

(** * Vocabulary of the further properties *)



Definition record_keys_read : list string :=
  ["text_content"; "post_link"; "time_since"; "time_of_download";
   "video_link"; "image_links"; "poll_content"].

(** A page whose direct-post object is empty and that embeds a repost. *)
Definition empty_then_shared_html : string :=
  dq "<script>var ytInitialData = {'backstagePostRenderer':{},'sharedPostRenderer':{'content':{'runs':[{'text':'hi'}]},'publishedTimeText':{'runs':[{'text':'1 day ago'}]}}};</script>".

(** The last character of a text. *)
Fixpoint last_char (s : string) : option ascii :=
  match s with
  | EmptyString => None
  | String c EmptyString => Some c
  | String _ r => last_char r
  end.

(** The characters that [rstrip(", ")] removes. *)
Definition comma_or_space (c : ascii) : bool := (c =? ",")%char || (c =? " ")%char.

(** [label] is what a choice of a poll shows: the text of its first run,
    followed by its percentage when its vote ratio is a positive float. *)
Definition choice_label (rt : PyRuntime) (choice : json) (label : string) : Prop :=
  exists d run runs t,
    choice = JDict d
    /\ lookup_path ["text"; "runs"] choice = Some (JList (JDict run :: runs))
    /\ dict_get "text" run = Some (JStr t)
    /\ ((dict_get "voteRatio" d = None /\ label = t)
        \/ exists f,
             dict_get "voteRatio" d = Some (JFloat f)
             /\ label = if float_gt_zero rt f
                        then t ++ ": " ++ float_percentage rt f ++ "%"
                        else t).

(** An interpreter that knows the two ratios of the poll example: both are
    positive, and [round(x * 100, 1)] prints 40.0 and 60.0. *)
Definition two_ratio_runtime : PyRuntime :=
  {| float_bool := fun _ => true;
     float_gt_zero := fun _ => true;
     float_percentage :=
       fun f => match f with
                | FloatLit l =>
                    if String.eqb l "0.4" then "40.0"
                    else if String.eqb l "0.6" then "60.0" else ""
                | _ => ""
                end;
     float_repr := fun _ => "";
     str_repr := fun s => s;
     utf8_decode_replace := fun s => s |}.

(** The labels of a poll, each followed by the separator. *)
Fixpoint with_separators (labels : list string) : string :=
  match labels with
  | [] => ""
  | label :: rest => label ++ ", " ++ with_separators rest
  end.

(** The keys of the record that [_parse_post_data] builds, in their order. *)
Definition record_keys : list string :=
  ["post_link"; "post_id"; "text_content"; "video_link"; "image_links";
   "poll_content"; "time_of_download"; "time_since"].

(** A run of plain text: a mapping without link, whose text, when it has
    one, is [t]. *)
Definition plain_run (run : json) (t : string) : Prop :=
  exists d,
    run = JDict d
    /\ dict_get "navigationEndpoint" d = None
    /\ get_or d "text" (JStr "") = JStr t.

(** A shared post of two plain runs. *)
Definition two_run_repost : Post :=
  decoded "{'content':{'runs':[{'text':'Hello '},{},{'text':'world'}]}}".

(** The characters of a text. *)
Definition chars (s : string) : list ascii := list_ascii_of_string s.

(** The characters that a post id taken from a URL cannot hold: the
    delimiters of the path, the query, the fragment and the parameters, and
    the characters that [urlsplit] removes. *)
Definition is_url_delimiter (c : ascii) : bool :=
  (c =? "/")%char || (c =? "?")%char || (c =? "#")%char || (c =? ";")%char
  || is_unsafe_url_byte c.

Definition clean_id (id : string) : bool :=
  str_forall (fun c => negb (is_url_delimiter c)) id.

(** ** Written JSON *)

Definition hex_digit_lower (n : nat) : ascii :=
  if (n <? 10)%nat then ascii_of_nat (48 + n) else ascii_of_nat (87 + n).

(** How the encoder of Python's [json] package writes a character of a
    string ([ESCAPE_DCT]): the quote, the backslash and the control
    characters are escaped, every other character is written as it is. *)
Definition escape_char (c : ascii) : string :=
  if (c =? dquote)%char then String "\" (String dquote "")
  else if (c =? "\")%char then "\\"
  else if (c =? "008")%char then "\b"
  else if (c =? "012")%char then "\f"
  else if (c =? "010")%char then "\n"
  else if (c =? "013")%char then "\r"
  else if (c =? "009")%char then "\t"
  else if (nat_of_ascii c <? 32)%nat then
    String "\"
      (String "u"
         (String "0"
            (String "0"
               (String (hex_digit_lower (nat_of_ascii c / 16))
                  (String (hex_digit_lower (nat_of_ascii c mod 16)) "")))))
  else str1 c.

Fixpoint escaped (s : string) : string :=
  match s with
  | EmptyString => EmptyString
  | String c r => escape_char c ++ escaped r
  end.

Fixpoint distinct (l : list string) : bool :=
  match l with
  | [] => true
  | k :: l' => negb (existsb (String.eqb k) l') && distinct l'
  end.

Definition quoted (s : string) : string :=
  String dquote (escaped s ++ String dquote "").

Definition float_text (f : pyfloat) : string :=
  match f with
  | FloatLit lexeme => lexeme
  | FloatNaN => "NaN"
  | FloatInf => "Infinity"
  | FloatNegInf => "-Infinity"
  end.

(** The compact JSON text of a value, as [json.dumps] writes it without
    whitespace and without changing the characters that are not ASCII. *)
Fixpoint json_text (v : json) : string :=
  match v with
  | JNull => "null"
  | JBool b => if b then "true" else "false"
  | JInt z => int_str z
  | JFloat f => float_text f
  | JStr s => quoted s
  | JList l => "[" ++ join "," (map json_text l) ++ "]"
  | JDict d =>
      "{" ++ join "," (map (fun kv => quoted (fst kv) ++ ":" ++ json_text (snd kv)) d)
          ++ "}"
  end.

(** The values whose compact text denotes them: names that differ within a
    mapping, and no float (the text of a float is the interpreter's). *)
Fixpoint writable (v : json) : bool :=
  match v with
  | JNull | JBool _ | JInt _ | JStr _ => true
  | JFloat _ => false
  | JList l => forallb writable l
  | JDict d => distinct (map fst d) && forallb (fun kv => writable (snd kv)) d
  end.

(** The items that follow the first one, each after a separator, and what
    closes them. *)
Fixpoint sep_tail (sep close : string) (items : list string) : string :=
  match items with
  | [] => close
  | item :: rest => sep ++ item ++ sep_tail sep close rest
  end.

Definition member_text (kv : string * json) : string :=
  quoted (fst kv) ++ ":" ++ json_text (snd kv).

(** The compact text of [v] is read back as [v], with enough fuel, whatever
    follows it. *)
Definition scans (v : json) : Prop :=
  exists fuel0,
    forall fuel t,
      (fuel0 <= fuel)%nat -> value_ok v t ->
      scan_once fuel (json_text v ++ t) = Done v t.

(** A post to be written, whose text holds a line feed and quotes. *)
Definition written_text : string := "hi" ++ String "010" (dq "'there'").

Definition written_post : list (string * json) :=
  [("contentText",
     JDict [("runs", JList [JDict [("text", JStr "hi")];
                            JDict [("text", JStr (String "010" (dq "'there'")))]])]);
   ("voteCount", JInt (-12));
   ("publishedTimeText", JDict [("runs", JList [JDict [("text", JStr "1 day ago")]])])].

(** Every exception that [m] can raise is in the class [C]. *)
Definition raises_in {A : Type} (C : exn -> Prop) (m : result A) : Prop :=
  forall e, m = Raise e -> C e.

(** The exceptions of reading a decoded structure. *)
Definition is_structure_error (e : exn) : bool :=
  match e with
  | KeyError _ | IndexError | TypeError | AttributeError => true
  | _ => false
  end.

(** Every mapping inside [v] has names that differ. *)
Fixpoint well_keyed (v : json) : bool :=
  match v with
  | JList l => forallb well_keyed l
  | JDict d => distinct (map fst d) && forallb (fun kv => well_keyed (snd kv)) d
  | _ => true
  end.

(** A page whose object repeats a name. *)
Definition repeated_name_blob : string :=
  dq "{'marker':{'a':1,'b':{'c':2,'c':3},'a':4}}".

(** A post whose single image has no thumbnail, beside a list of images
    whose one image has a thumbnail. *)
Definition empty_thumbnails_post : Post :=
  decoded "{'backstageAttachment':{'backstageImageRenderer':{'image':{'thumbnails':[]}},'postMultiImageRenderer':{'images':[{'backstageImageRenderer':{'image':{'thumbnails':[{'url':'u1'}]}}}]}},'publishedTimeText':{'runs':[{'text':'1 day ago'}]}}".

(** ** Percent-encoding *)

Definition hex_digit (n : nat) : ascii :=
  if (n <? 10)%nat then ascii_of_nat (48 + n) else ascii_of_nat (55 + n).

(** The text [s] with every character outside [keep] written as ['%'] and
    two hexadecimal digits. *)
Fixpoint percent_encode (keep : ascii -> bool) (s : string) : string :=
  match s with
  | EmptyString => EmptyString
  | String c r =>
      if keep c then String c (percent_encode keep r)
      else
        String "%"
          (String (hex_digit (nat_of_ascii c / 16))
             (String (hex_digit (nat_of_ascii c mod 16)) (percent_encode keep r)))
  end.

(** The characters that a strict encoder keeps: letters and digits. *)
Definition is_unreserved (c : ascii) : bool := is_alpha c || is_digit c.

(** ** The limits of the interpreter *)

(** The values that stay within the default limits of the interpreter, with a
    margin: integers of 64 bits ([int] and [str] of an integer refuse texts
    of more than 4300 digits), nested less than [depth] deep (the decoder and
    [repr] are recursive, and the recursion limit is 1000). *)
Fixpoint within_limits_at (depth : nat) (v : json) : bool :=
  match depth with
  | O => false
  | S depth' =>
      match v with
      | JInt z => Z.abs z <? 2 ^ 63
      | JList l => forallb (within_limits_at depth') l
      | JDict d => forallb (fun kv => within_limits_at depth' (snd kv)) d
      | _ => true
      end
  end.

Definition within_limits (v : json) : bool := within_limits_at 100 v.

(** * Theorems *)

(** ** The two marker keys *)

(** C1 (the code departs from the claim).  On a page that holds the repost
    marker ["sharedPostRenderer"] and not the direct-post marker,
    [_extract_post_from_html] raises the not-found error of the first marker:
    the repost marker is not tried, although the object under it decodes and
    parses into a record. *)
Theorem C1_repost_marker_not_tried :
  forall rt utcnow self post_url,
    _extract_post_from_html rt utcnow self shared_only_html post_url
      = Raise (key_not_found shared_only_html "backstagePostRenderer")
    /\ str_contains (encoded_key_of "backstagePostRenderer") shared_only_html = false
    /\ str_contains (encoded_key_of "sharedPostRenderer") shared_only_html = true
    /\ exists post_json post_data,
         _extract_json_from_html shared_only_html "sharedPostRenderer"
           = Return post_json
         /\ _parse_post_data rt utcnow self post_json post_url = Return post_data.
Proof.
  intros rt utcnow self post_url.
  split; [reflexivity|].
  split; [reflexivity|].
  split; [reflexivity|].
  eexists. eexists. split.
  - vm_compute. reflexivity.
  - reflexivity.
Qed.

(** ** The URL validator *)

(** C3 (the code departs from the claim).  For a post URL with an allowed
    scheme and host whose path is [/post/<id>/], the validator returns the
    empty string and not [<id>]; with one more segment after the id it
    returns that segment. *)
Theorem C3_trailing_slash_loses_id :
  _parse_community_post_url trailing_slash_url = Return ""
  /\ _parse_community_post_url "https://www.youtube.com/post/PostID123/extra"
     = Return "extra".
Proof. split; vm_compute; reflexivity. Qed.

(** ** The poll extractor *)

(** C6 (the code departs from the claim).  [rstrip] removes every trailing
    comma and space, not one separator: a last choice ["B "] loses its own
    space, and a poll whose only choice has no text yields ["Poll:"]. *)
Theorem C6_rstrip_eats_choice_text :
  forall rt,
    _get_poll_content rt poll_trailing_space = Return (Some "Poll: A, B")
    /\ _get_poll_content rt poll_untitled_choice = Return (Some "Poll:").
Proof. intros rt. split; reflexivity. Qed.

(** ** The text extractor *)

(** C7 (the code departs from the claim).  A link run whose redirect URL
    carries another parameter after [q=] contributes that parameter too:
    the text is not the percent-decoded value of the [q] parameter. *)
Theorem C7_link_keeps_following_parameters :
  forall rt,
    _get_text_content rt link_with_more_parameters
      = Return (Some "https://example.com&v=abc hello").
Proof. intros rt. reflexivity. Qed.

(** The example of the specification: a link run that redirects to
    [q=https%3A%2F%2Fexample.com], then the text [" hello"]. *)
Example text_of_link_then_text :
  forall rt,
    _get_text_content rt link_then_text = Return (Some "https://example.com hello").
Proof. intros rt. reflexivity. Qed.

(** The example of the specification for polls: choices A at 0.4 and B at 0.6,
    for an interpreter in which both ratios are positive and [round(x * 100, 1)]
    prints as 40.0 and 60.0. *)
Example poll_of_two_ratios :
  forall rt,
    float_gt_zero rt (FloatLit "0.4") = true ->
    float_gt_zero rt (FloatLit "0.6") = true ->
    float_percentage rt (FloatLit "0.4") = "40.0" ->
    float_percentage rt (FloatLit "0.6") = "60.0" ->
    _get_poll_content rt poll_two_ratios = Return (Some "Poll: A: 40.0%, B: 60.0%").
Proof.
  intros rt H4 H6 P4 P6.
  let v := eval vm_compute in poll_two_ratios in change poll_two_ratios with v.
  unfold _get_poll_content, poll_choice. cbn -[String.append rstrip].
  rewrite H4, P4. cbn -[String.append rstrip].
  rewrite H6, P6. reflexivity.
Qed.

(** An absent or empty choice list gives no poll summary. *)
Example poll_without_choices :
  forall rt,
    _get_poll_content rt (decoded "{'backstageAttachment':{'pollRenderer':{}}}")
    = Return None
    /\ _get_poll_content rt
         (decoded "{'backstageAttachment':{'pollRenderer':{'choices':[]}}}")
       = Return None.
Proof. intros rt. split; reflexivity. Qed.

(** The validator on the URLs of the test suite. *)
Example post_ids_of_test_urls :
  map _parse_community_post_url
    ["https://www.youtube.com/post/UgkxCWeKPiIOLsnh_5a0mpHWywRz";
     "https://youtube.com/post/PostID456";
     "https://m.youtube.com/post/PostID789";
     "https://www.youtube.com/watch?v=abc123";
     "https://example.com/post/PostID";
     "ftp://youtube.com/post/PostID";
     "https://youtube.com/channel/UC123/community"]
  = [Return "UgkxCWeKPiIOLsnh_5a0mpHWywRz";
     Return "PostID456";
     Return "PostID789";
     Raise (ValueError "Invalid URL path: /watch");
     Raise (ValueError "Invalid URL netloc: example.com");
     Raise (ValueError "Invalid URL scheme: ftp");
     Raise (ValueError "Invalid URL path: /channel/UC123/community")].
Proof. vm_compute. reflexivity. Qed.

(** The checks of the validator, in their order, on a parsed URL. *)
Lemma parse_community_post_url_checks :
  forall url parsed,
    urlparse url = Return parsed ->
    (str_in (scheme parsed) ALLOWED_SCHEMES = false ->
     _parse_community_post_url url
     = Raise (ValueError ("Invalid URL scheme: " ++ scheme parsed)))
    /\ (str_in (scheme parsed) ALLOWED_SCHEMES = true ->
        str_in (netloc parsed) ALLOWED_NETLOCS = false ->
        _parse_community_post_url url
        = Raise (ValueError ("Invalid URL netloc: " ++ netloc parsed)))
    /\ (str_in (scheme parsed) ALLOWED_SCHEMES = true ->
        str_in (netloc parsed) ALLOWED_NETLOCS = true ->
        str_contains "/post/" (path parsed) = false ->
        _parse_community_post_url url
        = Raise (ValueError ("Invalid URL path: " ++ path parsed)))
    /\ (str_in (scheme parsed) ALLOWED_SCHEMES = true ->
        str_in (netloc parsed) ALLOWED_NETLOCS = true ->
        str_contains "/post/" (path parsed) = true ->
        _parse_community_post_url url
        = Return (List.last (split_on "/" (path parsed)) "")).
Proof.
  intros url parsed H. unfold _parse_community_post_url. rewrite H. cbn [bind].
  repeat split.
  - intros ->. reflexivity.
  - intros -> ->. reflexivity.
  - intros -> -> ->. reflexivity.
  - intros -> -> ->. reflexivity.
Qed.

(** A page with a direct post loads into one document. *)
Example load_direct_post :
  load example_runtime (Return []) (fun _ _ => Return direct_post_html)
    example_time example_loader
  = (Return
       [{| page_content := JStr "hi";
           metadata :=
             [("source", JStr example_url);
              ("post_id", JStr "P1");
              ("time_since", JStr "1 day ago");
              ("time_of_download", JStr example_time)] |}],
     []).
Proof. vm_compute. reflexivity. Qed.

(** ** The failure policy of [load] *)

Section LoadPolicy.

Variable rt : PyRuntime.
Variable session_cookies : result (list (string * string)).
Variable http_get : string -> string -> result string.
Variable utcnow : string.
Variable self : YoutubeCommunityLoader.

(** An error of the fetch is the outcome of the pipeline. *)
Lemma load_post_fetch_error :
  forall e,
    http_get ("https://www.youtube.com/post/" ++ post_id self)
      (fst (_get_socs_cookie session_cookies)) = Raise e ->
    fst (_load_post rt session_cookies http_get utcnow self) = Raise e.
Proof.
  intros e H. unfold _load_post.
  destruct (_get_socs_cookie session_cookies) as [cookie logged].
  simpl in *. rewrite H. reflexivity.
Qed.

(** An error of the locator or of the record builder is the outcome of the
    pipeline. *)
Lemma load_post_extract_error :
  forall html e,
    http_get ("https://www.youtube.com/post/" ++ post_id self)
      (fst (_get_socs_cookie session_cookies)) = Return html ->
    _extract_post_from_html rt utcnow self html
      ("https://www.youtube.com/post/" ++ post_id self) = Raise e ->
    fst (_load_post rt session_cookies http_get utcnow self) = Raise e.
Proof.
  intros html e H He. unfold _load_post.
  destruct (_get_socs_cookie session_cookies) as [cookie logged].
  simpl in *. rewrite H. simpl. rewrite He. reflexivity.
Qed.

(** C9.  Whatever error the per-post pipeline raises, [load] raises the same
    error when [continue_on_failure] is false, and when it is true returns
    the empty list and logs one error record for the post; documents are
    returned only when the pipeline returned them, so nothing partial is
    emitted on a failure.  A loader built without the option is strict. *)
Theorem C9_load_failure_policy :
  (forall e,
      fst (_load_post rt session_cookies http_get utcnow self) = Raise e ->
      (continue_on_failure self = false ->
       load rt session_cookies http_get utcnow self
       = (Raise e, snd (_load_post rt session_cookies http_get utcnow self)))
      /\ (continue_on_failure self = true ->
          load rt session_cookies http_get utcnow self
          = (Return [],
             (snd (_load_post rt session_cookies http_get utcnow self)
                ++ [LogErrorLoading (post_id self) e])%list)))
  /\ (forall documents,
         fst (load rt session_cookies http_get utcnow self) = Return documents ->
         fst (_load_post rt session_cookies http_get utcnow self) = Return documents
         \/ (documents = [] /\ continue_on_failure self = true
             /\ exists e,
                  fst (_load_post rt session_cookies http_get utcnow self)
                  = Raise e))
  /\ (forall id, continue_on_failure (new_loader id None) = false).
Proof.
  unfold load.
  destruct (_load_post rt session_cookies http_get utcnow self)
    as [outcome logged]. simpl.
  split; [|split].
  - intros e ->. split; intros ->; reflexivity.
  - intros documents. destruct outcome as [docs | e].
    + simpl. intros H. left. exact H.
    + destruct (continue_on_failure self); simpl; intros H.
      * right. inversion H. split; [reflexivity|]. split; [reflexivity|].
        exists e. reflexivity.
      * discriminate H.
  - reflexivity.
Qed.

End LoadPolicy.

(** The policy at work on a page without the direct-post marker, in
    permissive mode. *)
Lemma C9_load_failure_policy_witness :
  load example_runtime (Return []) (fun _ _ => Return shared_only_html)
    "2026-11-04 10:00:00 UTC" (new_loader "P1" (Some true))
  = (Return [],
     [LogErrorLoading "P1" (key_not_found shared_only_html "backstagePostRenderer")]).
Proof.
  apply (proj2 (proj1 (C9_load_failure_policy example_runtime (Return [])
                         (fun _ _ => Return shared_only_html)
                         "2026-11-04 10:00:00 UTC" (new_loader "P1" (Some true)))
                  (key_not_found shared_only_html "backstagePostRenderer")
                  eq_refl)).
  reflexivity.
Defined.

(** ** Subscript chains and paths *)


Lemma getitem_lookup :
  forall k ks v x,
    lookup_path (k :: ks) v = Some x ->
    exists y, getitem v (KStr k) = Return y /\ lookup_path ks y = Some x.
Proof.
  intros k ks v x H. destruct v; try discriminate H.
  cbn [lookup_path] in H. cbn [getitem].
  destruct (dict_get k d) as [y|]; try discriminate H.
  exists y. split; [reflexivity | exact H].
Qed.

Lemma getitem_missing :
  forall k ks v,
    path_missing (k :: ks) v = true ->
    getitem v (KStr k) = Raise (KeyError (KStr k))
    \/ exists y, getitem v (KStr k) = Return y /\ path_missing ks y = true.
Proof.
  intros k ks v H. destruct v; try discriminate H.
  cbn [path_missing] in H. cbn [getitem].
  destruct (dict_get k d) as [y|].
  - right. exists y. split; [reflexivity | exact H].
  - left. reflexivity.
Qed.

(** One step along a path that is known to be present: the subscript of the
    code is replaced by the value under the key. *)
Ltac walk H :=
  let y := fresh "y" in
  let Hg := fresh "Hg" in
  apply getitem_lookup in H; destruct H as (y & Hg & H);
  rewrite Hg; cbn [bind].



(** One step along a path with a missing key: either the subscript raises
    [KeyError] here, or the key is missing further down. *)
Ltac miss H :=
  let y := fresh "y" in
  let Hg := fresh "Hg" in
  apply getitem_missing in H; destruct H as [Hg | (y & Hg & H)];
  rewrite Hg; cbn [bind]; [eexists; reflexivity |].

Lemma try_single_image_missing :
  forall post,
    path_missing single_image_path post = true ->
    exists k, try_single_image post = Raise (KeyError k).
Proof.
  intros post H. unfold try_single_image, last_thumbnail_url, single_image_path in *.
  miss H. miss H. miss H. miss H. discriminate H.
Qed.

Lemma try_multi_image_missing :
  forall post,
    path_missing multi_image_path post = true ->
    exists k, try_multi_image post = Raise (KeyError k).
Proof.
  intros post H. unfold try_multi_image, multi_image_path in *.
  miss H. miss H. miss H. discriminate H.
Qed.

(** ** The image links *)



(** ** Missing optional sub-structures *)

Lemma video_link_missing :
  forall rt post,
    path_missing video_path post = true -> _get_video_link rt post = Return None.
Proof.
  intros rt post H. unfold _get_video_link, video_path in *.
  assert (exists k, (attachment <- getitem post (KStr "backstageAttachment") ;;
                     renderer <- getitem attachment (KStr "videoRenderer") ;;
                     video_id <- getitem renderer (KStr "videoId") ;;
                     Return (Some ("https://www.youtube.com/watch?v=" ++ py_str rt video_id)))
                    = Raise (KeyError k)) as (k & ->).
  { miss H. miss H. miss H. discriminate H. }
  reflexivity.
Qed.

Lemma image_links_missing :
  forall post,
    path_missing single_image_path post = true ->
    path_missing multi_image_path post = true ->
    _get_image_links post = Return None.
Proof.
  intros post Hs Hm. unfold _get_image_links.
  destruct (try_single_image_missing _ Hs) as (k & ->).
  destruct (try_multi_image_missing _ Hm) as (k' & ->). reflexivity.
Qed.

Lemma poll_content_missing :
  forall rt post,
    path_missing poll_path post = true -> _get_poll_content rt post = Return None.
Proof.
  intros rt post H. unfold _get_poll_content, poll_path in *.
  apply getitem_missing in H. destruct H as [Hg | (y & Hg & H)]; rewrite Hg; cbn [bind].
  - reflexivity.
  - apply getitem_missing in H. destruct H as [Hg' | (z & Hg' & H)]; rewrite Hg'.
    + reflexivity.
    + discriminate H.
Qed.

Lemma text_of_runs_missing :
  forall rt post k,
    path_missing [k; "runs"] post = true ->
    exists key, text_of_runs rt post k = Raise (KeyError key).
Proof.
  intros rt post k H. unfold text_of_runs.
  miss H. miss H. discriminate H.
Qed.


(** ** The required timestamp *)

Lemma getitem_str_inv :
  forall v k x,
    getitem v (KStr k) = Return x -> exists d, v = JDict d /\ dict_get k d = Some x.
Proof.
  intros v k x H. destruct v; try discriminate H.
  cbn [getitem] in H. destruct (dict_get k d) as [y|] eqn:E; try discriminate H.
  injection H as ->. eauto.
Qed.

Lemma getitem_zero_inv :
  forall v x,
    getitem v (KInt 0) = Return x ->
    (exists l, v = JList (x :: l)) \/ (exists s, x = JStr s).
Proof.
  intros v x H. destruct v; try discriminate H; cbn [getitem] in H.
  - destruct s as [|c s]; [discriminate H|]. right.
    cbv in H. injection H as <-. eauto.
  - destruct l as [|a l]; [discriminate H|]. left.
    unfold seq_index in H. cbn in H. injection H as ->. eauto.
Qed.

Lemma published_time_returns :
  forall post t,
    published_time post = Return t -> published_time_path post = Some t.
Proof.
  intros post t H. unfold published_time in H.
  destruct (getitem post (KStr "publishedTimeText")) as [p|] eqn:E1; try discriminate H.
  cbn [bind] in H.
  destruct (getitem p (KStr "runs")) as [r|] eqn:E2; try discriminate H.
  cbn [bind] in H.
  destruct (getitem r (KInt 0)) as [f|] eqn:E3; try discriminate H.
  cbn [bind] in H.
  apply getitem_str_inv in E1. destruct E1 as (d1 & -> & E1).
  apply getitem_str_inv in E2. destruct E2 as (d2 & -> & E2).
  apply getitem_str_inv in H. destruct H as (d3 & -> & H).
  apply getitem_zero_inv in E3. destruct E3 as [(l & ->) | (s & Hs)]; [|discriminate Hs].
  unfold published_time_path. cbn [lookup_path]. rewrite E1, E2, H. reflexivity.
Qed.

Lemma published_time_none :
  forall post,
    published_time_path post = None -> exists e, published_time post = Raise e.
Proof.
  intros post H. destruct (published_time post) as [t|e] eqn:E.
  - apply published_time_returns in E. congruence.
  - eauto.
Qed.

Lemma published_time_absent_error :
  forall post,
    published_time_absent post = true ->
    exists e, published_time post = Raise e /\ is_KeyError_or_IndexError e = true.
Proof.
  intros post H. unfold published_time_absent in H. unfold published_time.
  apply orb_true_iff in H. destruct H as [H | H].
  - apply getitem_missing in H. destruct H as [Hg | (y & Hg & H)]; rewrite Hg; cbn [bind].
    + eexists. split; reflexivity.
    + apply getitem_missing in H. destruct H as [Hg' | (z & Hg' & H)]; rewrite Hg'.
      * eexists. split; reflexivity.
      * discriminate H.
  - destruct (lookup_path ["publishedTimeText"; "runs"] post) as [r|] eqn:E;
      try discriminate H.
    walk E. walk E. injection E as ->.
    destruct r; try discriminate H.
    destruct l as [|first_run l].
    + eexists. split; reflexivity.
    + change (getitem (JList (first_run :: l)) (KInt 0)) with (Return first_run).
      cbn [bind].
      apply getitem_missing in H. destruct H as [Hm | (z & _ & H)].
      * rewrite Hm. eexists. split; reflexivity.
      * discriminate H.
Qed.


(** ** The record builder *)

Section RecordBuilder.

Variable rt : PyRuntime.
Variable utcnow : string.
Variable self : YoutubeCommunityLoader.

(** The dictionary [_parse_post_data] builds from the extractors' results. *)
Lemma parse_post_data_inv :
  forall post_json post_url post_data,
    _parse_post_data rt utcnow self post_json post_url = Return post_data ->
    exists text video images poll time_since,
      _get_text_content rt post_json = Return text
      /\ _get_video_link rt post_json = Return video
      /\ _get_image_links post_json = Return images
      /\ _get_poll_content rt post_json = Return poll
      /\ published_time post_json = Return time_since
      /\ post_data
         = [("post_link", JStr post_url);
            ("post_id", JStr (post_id self));
            ("text_content", JStr match text with Some s => s | None => "" end);
            ("video_link", json_of_option JStr video);
            ("image_links", json_of_option JList images);
            ("poll_content", json_of_option JStr poll);
            ("time_of_download", JStr utcnow);
            ("time_since", time_since)].
Proof.
  intros post_json post_url post_data H. unfold _parse_post_data in H.
  destruct (_get_text_content rt post_json) as [text|]; try discriminate H.
  destruct (_get_video_link rt post_json) as [video|]; try discriminate H.
  destruct (_get_image_links post_json) as [images|]; try discriminate H.
  destruct (_get_poll_content rt post_json) as [poll|]; try discriminate H.
  destruct (published_time post_json) as [time_since|]; try discriminate H.
  cbn in H. injection H as <-.
  exists text, video, images, poll, time_since. repeat split; reflexivity.
Qed.

Lemma parse_post_data_time_error :
  forall post_json post_url e0,
    published_time post_json = Raise e0 ->
    exists e, _parse_post_data rt utcnow self post_json post_url = Raise e.
Proof.
  intros post_json post_url e0 H. unfold _parse_post_data. rewrite H.
  destruct (_get_text_content rt post_json); cbn [bind]; eauto.
  destruct (_get_video_link rt post_json); cbn [bind]; eauto.
  destruct (_get_image_links post_json); cbn [bind]; eauto.
  destruct (_get_poll_content rt post_json); cbn [bind]; eauto.
Qed.

(** C5.  When the timestamp cannot be read along publishedTimeText, runs,
    first run, text, [_parse_post_data] raises, whatever else the post holds;
    when a key of that path is missing or the run list is empty and the
    extractors returned, the error is a [KeyError] or an [IndexError] (the
    missing-required-field failure).  When it returns, the metadata of the
    document has no [video_link], [image_links] or [poll_content] key for a
    missing video, image or poll structure, and a key that is present is
    never bound to [None] or to an empty value. *)
Theorem C5_required_time_and_omitted_keys :
  forall post_json post_url,
    (published_time_path post_json = None ->
     exists e, _parse_post_data rt utcnow self post_json post_url = Raise e)
    /\ (published_time_absent post_json = true ->
        forall text video images poll,
          _get_text_content rt post_json = Return text ->
          _get_video_link rt post_json = Return video ->
          _get_image_links post_json = Return images ->
          _get_poll_content rt post_json = Return poll ->
          exists e,
            _parse_post_data rt utcnow self post_json post_url = Raise e
            /\ is_KeyError_or_IndexError e = true)
    /\ (forall post_data,
           _parse_post_data rt utcnow self post_json post_url = Return post_data ->
           let md := metadata (_create_document rt self post_data) in
           (path_missing video_path post_json = true ->
            dict_get "video_link" md = None)
           /\ (path_missing single_image_path post_json = true ->
               path_missing multi_image_path post_json = true ->
               dict_get "image_links" md = None)
           /\ (path_missing poll_path post_json = true ->
               dict_get "poll_content" md = None)
           /\ (forall k v,
                  In k ["video_link"; "image_links"; "poll_content"] ->
                  dict_get k md = Some v -> truthy rt v = true)).
Proof.
  intros post_json post_url. split; [|split].
  - intros H. destruct (published_time_none _ H) as (e0 & He0).
    exact (parse_post_data_time_error _ _ _ He0).
  - intros H text video images poll Ht Hv Hi Hp.
    destruct (published_time_absent_error _ H) as (e & He & Hk).
    exists e. split; [|exact Hk].
    unfold _parse_post_data. rewrite Ht, Hv, Hi, Hp, He. reflexivity.
  - intros post_data H.
    destruct (parse_post_data_inv _ _ _ H)
      as (text & video & images & poll & t & Ht & Hv & Hi & Hp & _ & ->).
    destruct video as [[|c vs]|], images as [[|i imgs]|], poll as [[|c' ps]|];
      (cbn; split; [|split; [|split]];
       [ intros Hm; rewrite (video_link_missing rt _ Hm) in Hv;
         try discriminate Hv; reflexivity
       | intros Hm1 Hm2; rewrite (image_links_missing _ Hm1 Hm2) in Hi;
         try discriminate Hi; reflexivity
       | intros Hm; rewrite (poll_content_missing rt _ Hm) in Hp;
         try discriminate Hp; reflexivity
       | intros k v [<-|[<-|[<-|[]]]] Hg; cbn in Hg; try discriminate Hg;
         injection Hg as <-; reflexivity ]).
Qed.


End RecordBuilder.

(** A post without timestamp is refused although it has text, a video and a
    poll; a post with text and timestamp only gets no [video_link] key. *)
Lemma C5_required_time_and_omitted_keys_witness :
  (exists e,
      _parse_post_data example_runtime example_time example_loader
        post_without_time example_url = Raise e)
  /\ dict_get "video_link"
       (metadata (_create_document example_runtime example_loader
                    (plain_record example_loader example_url "hi" example_time
                       (JStr "1 day ago")))) = None.
Proof.
  split.
  - apply (proj1 (C5_required_time_and_omitted_keys example_runtime example_time
                    example_loader post_without_time example_url)).
    reflexivity.
  - apply (proj1 (proj2 (proj2 (C5_required_time_and_omitted_keys example_runtime
                                  example_time example_loader text_only_post
                                  example_url))
                    (plain_record example_loader example_url "hi" example_time
                       (JStr "1 day ago"))
                    eq_refl)).
    reflexivity.
Defined.



(** ** The redirect regex *)

Lemma span_all :
  forall p s, str_forall p s = true -> span p s = (s, "").
Proof.
  induction s as [|c s IH]; simpl; intros H.
  - reflexivity.
  - apply andb_true_iff in H. destruct H as [Hc Hs].
    rewrite Hc, (IH Hs). reflexivity.
Qed.

(** How [index 0 "q="] and [search_q] test one position. *)
Lemma prefix_q_eq :
  forall c r, prefix "q=" (String c r) = (c =? "q")%char && starts_with "=" r.
Proof.
  intros c r. unfold starts_with. cbn [prefix].
  destruct (ascii_dec "q" c) as [<-|Hne].
  - reflexivity.
  - destruct (Ascii.eqb_spec c "q"); [congruence | reflexivity].
Qed.

Lemma index_q_cons :
  forall c r,
    index 0 "q=" (String c r)
    = if (c =? "q")%char && starts_with "=" r then Some 0%nat
      else match index 0 "q=" r with
           | Some n => Some (S n)
           | None => None
           end.
Proof. intros c r. rewrite <- prefix_q_eq. reflexivity. Qed.

Lemma starts_with_eq_inv :
  forall r, starts_with "=" r = true -> exists r', r = String "=" r'.
Proof.
  intros [|x r] H; [discriminate H|].
  unfold starts_with in H. cbn [prefix] in H.
  destruct (ascii_dec "=" x) as [<-|]; [eauto | discriminate H].
Qed.

(** No ["q="] in the URL: the pattern does not match. *)
Lemma search_q_no_q :
  forall url, index 0 "q=" url = None -> search_q url = None.
Proof.
  induction url as [|c r IH]; intros H; [reflexivity|].
  rewrite index_q_cons in H. cbn [search_q].
  destruct ((c =? "q")%char && starts_with "=" r); [discriminate H|].
  destruct (index 0 "q=" r); [discriminate H|]. auto.
Qed.

(** The first ["q="] ends the URL: the pattern does not match. *)
Lemma search_q_empty_q :
  forall url n,
    index 0 "q=" url = Some n -> str_drop (n + 2) url = "" -> search_q url = None.
Proof.
  induction url as [|c r IH]; intros n H Hd; [reflexivity|].
  rewrite index_q_cons in H. cbn [search_q].
  destruct ((c =? "q")%char && starts_with "=" r) eqn:E.
  - injection H as <-. apply andb_true_iff in E. destruct E as [_ E].
    destruct (starts_with_eq_inv _ E) as (r' & ->). cbn in Hd. cbn [str_drop].
    rewrite Hd. reflexivity.
  - destruct (index 0 "q=" r) as [m|] eqn:Em; [|discriminate H].
    injection H as <-. apply (IH m); [reflexivity | exact Hd].
Qed.

(** Text follows the first ["q="] and holds no line feed: the pattern matches
    there and the group is all that text. *)
Lemma search_q_first_q :
  forall url n,
    index 0 "q=" url = Some n ->
    str_drop (n + 2) url <> "" ->
    str_forall not_lf (str_drop (n + 2) url) = true ->
    search_q url = Some (str_drop (n + 2) url, "").
Proof.
  induction url as [|c r IH]; intros n H Hne Hlf; [discriminate H|].
  rewrite index_q_cons in H. cbn [search_q].
  destruct ((c =? "q")%char && starts_with "=" r) eqn:E.
  - injection H as <-. apply andb_true_iff in E. destruct E as [_ E].
    destruct (starts_with_eq_inv _ E) as (r' & ->).
    cbn [str_drop Nat.add] in *.
    fold not_lf. rewrite (span_all _ _ Hlf).
    destruct r'; [congruence | reflexivity].
  - destruct (index 0 "q=" r) as [m|] eqn:Em; [|discriminate H].
    injection H as <-. apply (IH m); [reflexivity | exact Hne | exact Hlf].
Qed.

Lemma findall_q_none :
  forall fuel url, search_q url = None -> findall_q fuel url = [].
Proof. intros [|fuel] url H; simpl; [|rewrite H]; reflexivity. Qed.

Lemma index_some_nonempty :
  forall url n, index 0 "q=" url = Some n -> exists f, String.length url = S f.
Proof. intros [|c r] n H; [discriminate H | simpl; eauto]. Qed.

Lemma handle_link_run :
  forall rt content url,
    lookup_path link_url_path content = Some (JStr url) ->
    _handle_text_content rt content
    = Return match findall_q (String.length url) url with
             | m :: _ => JStr (unquote rt m)
             | [] => JStr url
             end.
Proof.
  intros rt content url H. unfold _handle_text_content, link_url_path in *.
  walk H. walk H. walk H. simpl in H. injection H as ->.
  cbn [re_findall_q bind].
  destruct (findall_q (String.length url) url); reflexivity.
Qed.

(** C10, as amended.  In a link run whose redirect URL holds ["q="], when
    text without line feed follows the first ["q="], the run contributes the
    percent-decoding of all that text, whatever precedes the ["q="] and
    whatever parameters follow it; when nothing follows the first ["q="], or
    the URL holds no ["q="], the run contributes the URL as it is. *)
Theorem C10_destination_is_rest_of_url :
  forall rt content url,
    lookup_path link_url_path content = Some (JStr url) ->
    (forall n,
        index 0 "q=" url = Some n ->
        str_drop (n + 2) url <> "" ->
        str_forall not_lf (str_drop (n + 2) url) = true ->
        _handle_text_content rt content
        = Return (JStr (unquote rt (str_drop (n + 2) url))))
    /\ (forall n,
           index 0 "q=" url = Some n ->
           str_drop (n + 2) url = "" ->
           _handle_text_content rt content = Return (JStr url))
    /\ (index 0 "q=" url = None ->
        _handle_text_content rt content = Return (JStr url)).
Proof.
  intros rt content url Hc. rewrite (handle_link_run rt _ _ Hc).
  split; [|split].
  - intros n Hi Hne Hlf.
    destruct (index_some_nonempty _ _ Hi) as (f & ->). cbn [findall_q].
    rewrite (search_q_first_q _ _ Hi Hne Hlf). reflexivity.
  - intros n Hi Hd. rewrite (findall_q_none _ _ (search_q_empty_q _ _ Hi Hd)).
    reflexivity.
  - intros Hi. rewrite (findall_q_none _ _ (search_q_no_q _ Hi)). reflexivity.
Qed.

(** C10 fails as stated: the first ["q="] of this redirect URL is followed by
    nothing, and the link run contributes the whole URL, not the empty text
    that follows the ["q="]. *)
Lemma C10_counterexample :
  index 0 "q=" redirect_with_empty_q = Some 49%nat
  /\ str_drop (49 + 2) redirect_with_empty_q = ""
  /\ _handle_text_content example_runtime (link_run redirect_with_empty_q)
     = Return (JStr redirect_with_empty_q)
  /\ _handle_text_content example_runtime (link_run redirect_with_empty_q)
     <> Return (JStr (unquote example_runtime (str_drop (49 + 2) redirect_with_empty_q))).
Proof. repeat split; try reflexivity. discriminate. Qed.

(** A ["q="] inside [seq=], followed by one more parameter. *)
Lemma C10_destination_is_rest_of_url_witness :
  _handle_text_content example_runtime
    (link_run "https://www.youtube.com/redirect?seq=5&q=https%3A%2F%2Fexample.com")
  = Return (JStr "5&q=https://example.com").
Proof.
  apply (proj1 (C10_destination_is_rest_of_url example_runtime
                  (link_run "https://www.youtube.com/redirect?seq=5&q=https%3A%2F%2Fexample.com")
                  "https://www.youtube.com/redirect?seq=5&q=https%3A%2F%2Fexample.com"
                  eq_refl) 35%nat).
  - reflexivity.
  - discriminate.
  - reflexivity.
Defined.

(** ** Searching a text *)

Lemma index_ge :
  forall sub s n m, index n sub s = Some m -> (n <= m)%nat.
Proof.
  induction s as [|c s IH]; intros n m H; simpl in H.
  - destruct n; [lia|discriminate H].
  - destruct n as [|n].
    + lia.
    + destruct (index n sub s) as [k|] eqn:E; [|discriminate H].
      injection H as <-. apply IH in E. lia.
Qed.


Lemma index_some_iff :
  forall sub s n i,
    sub <> "" -> (index n sub s = Some i <-> first_at sub s n i).
Proof.
  intros sub s n i Hne. split.
  - intros H. split; [exact (index_ge _ _ _ _ H)|]. split.
    + exact (index_correct1 _ _ _ _ H).
    + intros j Hj Hlt. exact (index_correct2 _ _ _ _ H j Hj Hlt).
  - intros (Hle & Hocc & Hmin).
    destruct (index n sub s) as [m|] eqn:E.
    + destruct (Nat.lt_trichotomy m i) as [Hlt | [-> | Hgt]].
      * exfalso. apply (Hmin m (index_ge _ _ _ _ E) Hlt).
        exact (index_correct1 _ _ _ _ E).
      * reflexivity.
      * exfalso. exact (index_correct2 _ _ _ _ E i Hle Hgt Hocc).
    + exfalso. exact (index_correct3 n i sub s E Hne Hle Hocc).
Qed.

Lemma encoded_key_nonempty : forall key, encoded_key_of key <> "".
Proof. intros key. discriminate. Qed.

(** The three outcomes of the locator, by what [find] returns. *)
Lemma extract_json_key_missing :
  forall raw key,
    index 0 (encoded_key_of key) raw = None ->
    _extract_json_from_html raw key = Raise (key_not_found raw key).
Proof.
  intros raw key H. unfold _extract_json_from_html, str_find. rewrite H. reflexivity.
Qed.

Lemma extract_json_brace_missing :
  forall raw key i,
    index 0 (encoded_key_of key) raw = Some i ->
    index (i + String.length (encoded_key_of key)) "{" raw = None ->
    _extract_json_from_html raw key = Raise (brace_not_found raw i).
Proof.
  intros raw key i H Hb. unfold _extract_json_from_html, str_find. rewrite H.
  replace (Z.of_nat i =? -1) with false by (symmetry; apply Z.eqb_neq; lia).
  rewrite Nat2Z.id, Hb. reflexivity.
Qed.

Lemma extract_json_decodes :
  forall raw key i j,
    index 0 (encoded_key_of key) raw = Some i ->
    index (i + String.length (encoded_key_of key)) "{" raw = Some j ->
    _extract_json_from_html raw key
    = match raw_decode (str_drop j raw) with
      | Return (v, _) => Return v
      | Raise e => Raise e
      end.
Proof.
  intros raw key i j H Hb. unfold _extract_json_from_html, str_find. rewrite H.
  replace (Z.of_nat i =? -1) with false by (symmetry; apply Z.eqb_neq; lia).
  rewrite Nat2Z.id, Hb.
  replace (Z.of_nat j =? -1) with false by (symmetry; apply Z.eqb_neq; lia).
  rewrite Nat2Z.id.
  destruct (raw_decode (str_drop j raw)) as [[v n]|e]; reflexivity.
Qed.

(** ** The errors of the decoder *)

(** Case analysis on the scrutinee of a [match] in hypothesis [H]. *)
Ltac break_hyp H :=
  match type of H with
  | context [match ?x with _ => _ end] => destruct x eqn:?
  end.


Lemma scanstring_eq :
  forall s acc, scanstring s acc = scanstring_step scanstring s acc.
Proof. intros [|c t] acc; reflexivity. Qed.





(** ** Texts and the prefix a scan reads *)

Lemma append_assoc_s :
  forall a b c : string, (a ++ b) ++ c = a ++ (b ++ c).
Proof. induction a as [|x a IH]; intros b c; simpl; [|rewrite IH]; reflexivity. Qed.

Lemma length_append_s :
  forall a b : string,
    String.length (a ++ b) = (String.length a + String.length b)%nat.
Proof. induction a as [|x a IH]; intros b; simpl; [|rewrite IH]; reflexivity. Qed.

Lemma app_fun_id : app_fun (fun x => x).
Proof. exists "". reflexivity. Qed.

Lemma app_fun_cons : forall c P, app_fun P -> app_fun (fun x => String c (P x)).
Proof. intros c P (p & Hp). exists (String c p). intros x. simpl. rewrite Hp. reflexivity. Qed.

Lemma app_fun_comp :
  forall P Q, app_fun P -> app_fun Q -> app_fun (fun x => P (Q x)).
Proof.
  intros P Q (p & Hp) (q & Hq). exists (p ++ q). intros x.
  rewrite Hp, Hq, append_assoc_s. reflexivity.
Qed.

Lemma app_fun_append : forall p, app_fun (fun x => p ++ x).
Proof. intros p. exists p. reflexivity. Qed.

Lemma app_fun_length :
  forall P, app_fun P ->
    forall x y,
      (String.length (P x) + String.length y
       = String.length (P y) + String.length x)%nat.
Proof. intros P (p & Hp) x y. rewrite !Hp, !length_append_s. lia. Qed.

(** *** Whitespace *)

Lemma skip_ws_cons :
  forall c s, skip_ws (String c s) = if is_ws c then skip_ws s else String c s.
Proof.
  intros c s. unfold skip_ws. simpl. destruct (is_ws c); [|reflexivity].
  destruct (span is_ws s). reflexivity.
Qed.

Lemma after_value_ws_eq : forall s, after_value_ws s = skip_ws s.
Proof.
  intros [|c r]; [reflexivity|]. simpl. rewrite skip_ws_cons. reflexivity.
Qed.

Lemma before_value_ws_eq : forall s, before_value_ws s = skip_ws s.
Proof.
  intros [|c r]; [reflexivity|]. simpl. rewrite skip_ws_cons.
  destruct (is_ws c); [|reflexivity].
  destruct r as [|c' r']; [reflexivity|]. rewrite skip_ws_cons.
  destruct (is_ws c'); reflexivity.
Qed.

Lemma before_name_ws_eq : forall s, before_name_ws s = skip_ws s.
Proof.
  intros [|c r]; [reflexivity|]. unfold before_name_ws. rewrite skip_ws_cons.
  destruct (Ascii.eqb_spec c dquote) as [->|]; [reflexivity|].
  destruct (is_ws c); reflexivity.
Qed.

Lemma before_colon_ws_eq : forall s, before_colon_ws s = skip_ws s.
Proof.
  intros [|c r]; [reflexivity|]. unfold before_colon_ws. rewrite skip_ws_cons.
  destruct (Ascii.eqb_spec c ":") as [->|]; [reflexivity|].
  destruct (is_ws c); reflexivity.
Qed.

Lemma skip_ws_length : forall s, (String.length (skip_ws s) <= String.length s)%nat.
Proof.
  induction s as [|c s IH]; [simpl; lia|].
  rewrite skip_ws_cons. destruct (is_ws c); simpl; lia.
Qed.

Lemma ws_ends_number :
  forall c t, is_ws c = true -> ends_number (String c t).
Proof.
  intros c t H. unfold is_ws in H. simpl.
  repeat (apply orb_true_iff in H; destruct H as [H | H]);
    apply Ascii.eqb_eq in H; subst c; repeat split; discriminate.
Qed.

(** The whitespace in front of a character [c] is skipped whatever follows
    [c]. *)
Lemma skip_ws_reads :
  forall s c t,
    skip_ws s = String c t ->
    is_ws c = false
    /\ exists W, s = W (String c t) /\ app_fun W
                 /\ (forall x, skip_ws (W x) = skip_ws x)
                 /\ (forall x, ends_number x -> ends_number (W x)).
Proof.
  induction s as [|a s IH]; intros c t H; [discriminate H|].
  rewrite skip_ws_cons in H. destruct (is_ws a) eqn:Ea.
  - destruct (IH _ _ H) as (Hc & W & Hs & HW & Hskip & Hend). split; [exact Hc|].
    exists (fun x => String a (W x)). split; [rewrite Hs; reflexivity|].
    split; [apply app_fun_cons; exact HW|]. split.
    + intros x. rewrite skip_ws_cons, Ea. apply Hskip.
    + intros x _. apply ws_ends_number. exact Ea.
  - injection H as -> ->. split; [exact Ea|].
    exists (fun x => x). split; [reflexivity|]. split; [apply app_fun_id|].
    split; intros x; auto.
Qed.

(** *** Strings *)

Lemma starts_with_bu :
  forall b u t,
    starts_with "\u" (String b (String u t)) = (b =? "\")%char && (u =? "u")%char.
Proof.
  intros b u t. unfold starts_with. cbn [prefix].
  destruct (ascii_dec "\" b) as [<-|Hb].
  - destruct (ascii_dec "u" u) as [<-|Hu]; [destruct t; reflexivity|].
    destruct (Ascii.eqb_spec u "u"); [congruence | reflexivity].
  - destruct (Ascii.eqb_spec b "\"); [congruence | reflexivity].
Qed.

Lemma starts_with_u_inv :
  forall s, starts_with "\u" s = true -> exists t, s = String "\" (String "u" t).
Proof.
  intros [|b [|u t]] H.
  - discriminate H.
  - unfold starts_with in H. cbn [prefix] in H.
    destruct (ascii_dec "\" b); discriminate H.
  - rewrite starts_with_bu in H. apply andb_true_iff in H. destruct H as [Hb Hu].
    apply Ascii.eqb_eq in Hb, Hu. subst. eauto.
Qed.

Lemma escape_span_pos : forall s, (1 <= escape_span s)%nat.
Proof.
  intros [|c [|e t]]; simpl; try lia;
    destruct (c =? "\")%char; try lia. destruct (e =? "u")%char; lia.
Qed.

(** Whether a unicode escape stands first does not depend on what follows
    the characters the scan is bound to read. *)
Lemma starts_with_u_stable :
  forall p r r',
    (escape_span (p ++ r) <= String.length p)%nat ->
    starts_with "\u" (p ++ r') = starts_with "\u" (p ++ r).
Proof.
  intros [|a [|b p]] r r' H.
  - pose proof (escape_span_pos ("" ++ r)). simpl in *. lia.
  - cbn [append escape_span String.length] in *.
    destruct (a =? "\")%char eqn:Ea.
    + destruct r as [|e t]; [lia|]. destruct (e =? "u")%char; lia.
    + assert (Hs : forall t, starts_with "\u" (String a t) = false).
      { intros t. unfold starts_with. cbn [prefix].
        destruct (ascii_dec "\" a) as [<-|]; [discriminate Ea | reflexivity]. }
      rewrite !Hs. reflexivity.
  - cbn [append]. rewrite !starts_with_bu. reflexivity.
Qed.

(** After a [\uXXXX] escape that does not open a surrogate pair the scan goes
    on at the next character. *)
Lemma after_uXXXX_single :
  forall (F : string -> string -> scan string) uni r5 acc,
    is_high_surrogate uni && starts_with "\u" r5 = false ->
    after_uXXXX F uni r5 acc = F r5 (acc ++ utf8_encode uni).
Proof.
  intros F uni r5 acc H. unfold after_uXXXX.
  destruct r5 as [|b [|u t]]; try reflexivity.
  rewrite starts_with_bu, andb_assoc in H.
  destruct t as [|g1 [|g2 [|g3 [|g4 r11]]]]; rewrite H; reflexivity.
Qed.

Lemma after_uXXXX_reads :
  forall (F : string -> string -> scan string) uni r5 acc str r,
    (forall s a str0 r0,
        (String.length s <= String.length r5)%nat ->
        F s a = Done str0 r0 ->
        exists p, s = p ++ r0 /\ (escape_span s <= String.length p)%nat
                  /\ forall r', F (p ++ r') a = Done str0 r') ->
    after_uXXXX F uni r5 acc = Done str r ->
    exists p5, r5 = p5 ++ r
               /\ forall r', after_uXXXX F uni (p5 ++ r') acc = Done str r'.
Proof.
  intros F uni r5 acc str r HF H.
  destruct (is_high_surrogate uni && starts_with "\u" r5) eqn:Econd.
  - apply andb_true_iff in Econd. destruct Econd as [Ehigh Esw].
    destruct (starts_with_u_inv _ Esw) as (r7 & ->).
    unfold after_uXXXX in H. rewrite Ehigh in H.
    destruct r7 as [|g1 [|g2 [|g3 [|g4 r11]]]]; try discriminate H.
    cbn [andb Ascii.eqb Bool.eqb] in H.
    destruct (decode_uXXXX g1 g2 g3 g4) as [uni2|] eqn:Ed2; [|discriminate H].
    destruct (is_low_surrogate uni2) eqn:El.
    + apply HF in H; [|cbn [String.length]; lia].
      destruct H as (p & -> & _ & Hp).
      exists (String "\" (String "u" (String g1 (String g2 (String g3 (String g4 p)))))).
      split; [reflexivity|]. intros r'. unfold after_uXXXX. cbn [append].
      rewrite Ehigh. cbn [andb Ascii.eqb Bool.eqb]. rewrite Ed2, El. apply Hp.
    + apply HF in H; [|lia]. destruct H as (p & Hs & Hspan & Hp).
      cbn [escape_span Ascii.eqb Bool.eqb] in Hspan.
      destruct p as [|a1 [|a2 [|a3 [|a4 [|a5 [|a6 p]]]]]];
        cbn [String.length] in Hspan; try lia.
      cbn [append] in Hs. injection Hs as <- <- <- <- <- <- ->.
      exists (String "\" (String "u" (String g1 (String g2 (String g3 (String g4 p)))))).
      split; [reflexivity|]. intros r'. unfold after_uXXXX. cbn [append].
      rewrite Ehigh. cbn [andb Ascii.eqb Bool.eqb]. rewrite Ed2, El.
      exact (Hp r').
  - rewrite (after_uXXXX_single _ _ _ _ Econd) in H.
    apply HF in H; [|lia]. destruct H as (p & Hs & Hspan & Hp).
    exists p. split; [exact Hs|]. intros r'.
    rewrite after_uXXXX_single; [apply Hp|].
    rewrite Hs in Hspan, Econd. rewrite (starts_with_u_stable _ _ r' Hspan).
    exact Econd.
Qed.

Lemma scanstring_reads :
  forall n s acc str r,
    (String.length s <= n)%nat ->
    scanstring s acc = Done str r ->
    exists p, s = p ++ r /\ (escape_span s <= String.length p)%nat
              /\ forall r', scanstring (p ++ r') acc = Done str r'.
Proof.
  induction n as [|n IH]; intros s acc str r Hn H; rewrite scanstring_eq in H.
  - destruct s; [discriminate H | simpl in Hn; lia].
  - destruct s as [|c t]; [discriminate H|].
    cbn [scanstring_step] in H. cbn [String.length] in Hn.
    destruct (c =? dquote)%char eqn:Eq.
    { injection H as <- <-. exists (str1 c). split; [reflexivity|]. split.
      - apply Ascii.eqb_eq in Eq. subst c. simpl. lia.
      - intros r'. rewrite scanstring_eq. cbn [str1 append scanstring_step].
        rewrite Eq. reflexivity. }
    destruct (c =? "\")%char eqn:Eb.
    2:{ destruct (nat_of_ascii c <? 32)%nat eqn:Ec; [discriminate H|].
        apply IH in H; [|lia]. destruct H as (p & -> & _ & Hp).
        exists (String c p). split; [reflexivity|]. split.
        - cbn [escape_span String.length]. rewrite Eb. lia.
        - intros r'. rewrite scanstring_eq. cbn [append scanstring_step].
          rewrite Eq, Eb, Ec. apply Hp. }
    destruct t as [|esc r1]; [discriminate H|]. cbn [String.length] in Hn.
    destruct (esc =? "u")%char eqn:Eu.
    2:{ destruct (backslash esc) as [ch|] eqn:Ebs; [|discriminate H].
        apply IH in H; [|lia]. destruct H as (p & -> & _ & Hp).
        exists (String c (String esc p)). split; [reflexivity|]. split.
        - cbn [escape_span String.length append]. rewrite Eb, Eu. lia.
        - intros r'. rewrite scanstring_eq. cbn [append scanstring_step].
          rewrite Eq, Eb, Eu, Ebs. apply Hp. }
    destruct r1 as [|h1 [|h2 [|h3 [|h4 r5]]]]; try discriminate H.
    cbn [String.length] in Hn.
    destruct (decode_uXXXX h1 h2 h3 h4) as [uni|] eqn:Ed; [|discriminate H].
    apply after_uXXXX_reads in H.
    + destruct H as (p5 & -> & Hp).
      exists (String c (String esc (String h1 (String h2 (String h3 (String h4 p5)))))).
      split; [reflexivity|]. split.
      * cbn [escape_span String.length append]. rewrite Eb, Eu. lia.
      * intros r'. rewrite scanstring_eq. cbn [append scanstring_step].
        rewrite Eq, Eb, Eu, Ed. apply Hp.
    + intros s a str0 r0 Hs HF. apply IH; [lia | exact HF].
Qed.



(** *** Numbers *)
Lemma span_digits_reads :
  forall s ds r,
    span is_digit s = (ds, r) ->
    s = ds ++ r
    /\ forall r', nondigit_head r' -> span is_digit (ds ++ r') = (ds, r').
Proof.
  induction s as [|c s IH]; intros ds r H; simpl in H.
  - injection H as <- <-. split; [reflexivity|].
    intros [|c' t] Hh; simpl in *; [reflexivity | rewrite Hh; reflexivity].
  - destruct (is_digit c) eqn:Ec.
    + destruct (span is_digit s) as [a b] eqn:E. injection H as <- <-.
      destruct (IH _ _ eq_refl) as (-> & Hst). split; [reflexivity|].
      intros r' Hh. simpl. rewrite Ec, (Hst r' Hh). reflexivity.
    + injection H as <- <-. split; [reflexivity|].
      intros [|c' t] Hh; simpl in *; [reflexivity | rewrite Hh; reflexivity].
Qed.

Lemma ends_number_nondigit : forall r, ends_number r -> nondigit_head r.
Proof. intros [|c t] H; simpl in *; [exact I | tauto]. Qed.

Lemma match_exp_ends :
  forall r, ends_number r -> match_exp r = ("", r).
Proof.
  intros [|c t] H; [reflexivity|]. simpl in H. destruct H as (_ & _ & He & HE).
  unfold match_exp.
  destruct (Ascii.eqb_spec c "e"); [contradiction|].
  destruct (Ascii.eqb_spec c "E"); [contradiction|]. reflexivity.
Qed.

Lemma match_exp_reads :
  forall s exp r,
    match_exp s = (exp, r) ->
    s = exp ++ r
    /\ (forall r', ends_number r' -> match_exp (exp ++ r') = (exp, r'))
    /\ (exp = "" \/ exists c t, exp = String c t
                               /\ (c =? "e")%char || (c =? "E")%char = true).
Proof.
  intros s exp r H. unfold match_exp in H.
  assert (Hnone : (exp, r) = ("", s) ->
          s = exp ++ r
          /\ (forall r', ends_number r' -> match_exp (exp ++ r') = (exp, r'))
          /\ (exp = "" \/ exists c t, exp = String c t
                                     /\ (c =? "e")%char || (c =? "E")%char = true)).
  { intros Heq. injection Heq as -> ->. split; [reflexivity|]. split; [|left; reflexivity].
    intros r' Hr. apply match_exp_ends. exact Hr. }
  destruct s as [|c t]; [apply Hnone; congruence|].
  destruct ((c =? "e")%char || (c =? "E")%char) eqn:Ec; [|apply Hnone; congruence].
  destruct t as [|d t'].
  - simpl in H. apply Hnone. congruence.
  - destruct ((d =? "-")%char || (d =? "+")%char) eqn:Ed.
    + destruct (span is_digit t') as [ds rr] eqn:Es.
      destruct ds as [|d0 ds]; [apply Hnone; congruence|].
      injection H as <- <-.
      destruct (span_digits_reads _ _ _ Es) as (-> & Hst).
      split; [reflexivity|]. split.
      * intros r' Hr. unfold match_exp. cbn [append str1]. rewrite Ec, Ed.
        change (String d0 (ds ++ r')) with (String d0 ds ++ r').
        rewrite (Hst r' (ends_number_nondigit _ Hr)). reflexivity.
      * right. eauto.
    + destruct (span is_digit (String d t')) as [ds rr] eqn:Es.
      destruct ds as [|d0 ds]; [apply Hnone; congruence|].
      injection H as <- <-.
      destruct (span_digits_reads _ _ _ Es) as (Heq & Hst).
      cbn [append] in Heq. injection Heq as <- ->.
      split; [reflexivity|]. split.
      * intros r' Hr. unfold match_exp. cbn [append]. rewrite Ec, Ed.
        change (String d (ds ++ r')) with (String d ds ++ r').
        rewrite (Hst r' (ends_number_nondigit _ Hr)). reflexivity.
      * right. eauto.
Qed.

Lemma match_frac_ends :
  forall r, ends_number r -> match_frac r = ("", r).
Proof.
  intros [|c t] H; [reflexivity|]. simpl in H. destruct H as (_ & Hd & _).
  unfold match_frac. destruct (Ascii.eqb_spec c "."); [contradiction | reflexivity].
Qed.

(** The fraction is read the same in front of an exponent or of a character
    that ends the number. *)
Lemma match_frac_reads :
  forall s frac r,
    match_frac s = (frac, r) ->
    s = frac ++ r
    /\ (forall r', nondigit_head r' -> (frac = "" -> match_frac r' = ("", r')) ->
                   match_frac (frac ++ r') = (frac, r'))
    /\ (frac = "" \/ exists t, frac = String "." t).
Proof.
  intros s frac r H. unfold match_frac in H.
  assert (Hnone : (frac, r) = ("", s) ->
          s = frac ++ r
          /\ (forall r', nondigit_head r' -> (frac = "" -> match_frac r' = ("", r')) ->
                         match_frac (frac ++ r') = (frac, r'))
          /\ (frac = "" \/ exists t, frac = String "." t)).
  { intros Heq. injection Heq as -> ->. split; [reflexivity|]. split.
    - intros r' _ Hr. apply Hr. reflexivity.
    - left. reflexivity. }
  destruct s as [|c t]; [apply Hnone; congruence|].
  destruct (c =? ".")%char eqn:Ec; [|apply Hnone; congruence].
  destruct (span is_digit t) as [ds rr] eqn:Es.
  destruct ds as [|d0 ds]; [apply Hnone; congruence|].
  injection H as <- <-.
  destruct (span_digits_reads _ _ _ Es) as (-> & Hst).
  split; [reflexivity|]. split.
  - intros r' Hr _. unfold match_frac. cbn [append]. rewrite Ec.
    change (String d0 (ds ++ r')) with (String d0 ds ++ r').
    rewrite (Hst r' Hr). reflexivity.
  - right. apply Ascii.eqb_eq in Ec. subst c. eauto.
Qed.

Lemma match_integer_reads :
  forall s integer r,
    match_integer s = Some (integer, r) ->
    s = integer ++ r
    /\ integer <> ""
    /\ forall r', nondigit_head r' ->
                  match_integer (integer ++ r') = Some (integer, r').
Proof.
  intros s integer r H. unfold match_integer in H.
  destruct s as [|c t]; [discriminate H|].
  destruct (c =? "-")%char eqn:Em.
  - assert (Hc := proj1 (Ascii.eqb_eq _ _) Em). subst c.
    destruct t as [|c1 r1]; [discriminate H|].
    destruct (c1 =? "0")%char eqn:E0.
    + assert (Hc := proj1 (Ascii.eqb_eq _ _) E0). subst c1.
      injection H as <- <-. split; [reflexivity|]. split; [discriminate|].
      intros r' _. unfold match_integer. cbn [append]. rewrite Em, E0. reflexivity.
    + destruct (is_digit c1) eqn:Ed; [|discriminate H].
      destruct (span is_digit r1) as [ds rr] eqn:Es. injection H as <- <-.
      destruct (span_digits_reads _ _ _ Es) as (-> & Hst).
      split; [reflexivity|]. split; [discriminate|].
      intros r' Hr. unfold match_integer. cbn [append]. rewrite Em, E0, Ed.
      rewrite (Hst r' Hr). reflexivity.
  - destruct (c =? "0")%char eqn:E0.
    + assert (Hc := proj1 (Ascii.eqb_eq _ _) E0). subst c.
      injection H as <- <-. split; [reflexivity|]. split; [discriminate|].
      intros r' _. unfold match_integer. cbn [append]. rewrite Em, E0. reflexivity.
    + destruct (is_digit c) eqn:Ed; [|discriminate H].
      destruct (span is_digit t) as [ds rr] eqn:Es. injection H as <- <-.
      destruct (span_digits_reads _ _ _ Es) as (-> & Hst).
      split; [reflexivity|]. split; [discriminate|].
      intros r' Hr. unfold match_integer. cbn [append]. rewrite Em, E0, Ed.
      rewrite (Hst r' Hr). reflexivity.
Qed.

Lemma match_frac_not_dot :
  forall c t, (c =? ".")%char = false -> match_frac (String c t) = ("", String c t).
Proof. intros c t H. unfold match_frac. rewrite H. reflexivity. Qed.

Lemma exp_head :
  forall c, (c =? "e")%char || (c =? "E")%char = true ->
            is_digit c = false /\ (c =? ".")%char = false.
Proof.
  intros c H. apply orb_true_iff in H.
  destruct H as [H | H]; apply Ascii.eqb_eq in H; subst c; split; reflexivity.
Qed.

(** A number is read the same in front of any character that cannot
    continue it. *)
Lemma match_number_reads :
  forall s integer frac exp rest,
    match_number s = Some (integer, frac, exp, rest) ->
    s = integer ++ frac ++ exp ++ rest
    /\ integer <> ""
    /\ forall r', ends_number r' ->
                  match_number (integer ++ frac ++ exp ++ r')
                  = Some (integer, frac, exp, r').
Proof.
  intros s integer frac exp rest H. unfold match_number in H.
  destruct (match_integer s) as [[i r1]|] eqn:Ei; [|discriminate H].
  destruct (match_frac r1) as [f r2] eqn:Ef.
  destruct (match_exp r2) as [x r3] eqn:Ex.
  injection H as -> -> -> ->.
  destruct (match_integer_reads _ _ _ Ei) as (-> & Hne & Hi).
  destruct (match_frac_reads _ _ _ Ef) as (-> & Hf & Hfs).
  destruct (match_exp_reads _ _ _ Ex) as (-> & Hx & Hxs).
  split; [reflexivity|]. split; [exact Hne|].
  intros r' Hr. unfold match_number.
  assert (Hxr : nondigit_head (exp ++ r')
                /\ match_frac (exp ++ r') = ("", exp ++ r')).
  { destruct Hxs as [-> | (c & t & -> & Hc)].
    - split; [apply ends_number_nondigit; exact Hr | apply match_frac_ends; exact Hr].
    - destruct (exp_head _ Hc) as (Hd & Hdot). cbn [append]. split; [exact Hd|].
      apply match_frac_not_dot. exact Hdot. }
  destruct Hxr as (Hxd & Hxf).
  assert (Hfr : nondigit_head (frac ++ exp ++ r')).
  { destruct Hfs as [-> | (t & ->)]; [exact Hxd | reflexivity]. }
  rewrite (Hi _ Hfr), (Hf _ Hxd (fun _ => Hxf)), (Hx _ Hr). reflexivity.
Qed.

(** *** Values, objects and arrays *)

Lemma app_fun_ge :
  forall P, app_fun P -> forall x, (String.length x <= String.length (P x))%nat.
Proof. intros P (p & Hp) x. rewrite Hp, length_append_s. lia. Qed.

Lemma app_fun_head :
  forall P r c t,
    app_fun P -> (String.length r < String.length (P r))%nat ->
    P r = String c t -> forall x, exists t', P x = String c t'.
Proof.
  intros P r c t (p & Hp) Hlen Heq x. rewrite Hp in Hlen, Heq.
  destruct p as [|a p]; [simpl in Hlen; lia|].
  cbn [append] in Heq. injection Heq as -> _.
  exists (p ++ x). rewrite Hp. reflexivity.
Qed.

Lemma delimiter_ends_number :
  forall nc t,
    (nc =? "]")%char || (nc =? ",")%char || (nc =? "}")%char = true ->
    ends_number (String nc t).
Proof.
  intros nc t H.
  repeat (apply orb_true_iff in H; destruct H as [H | H]);
    apply Ascii.eqb_eq in H; subst nc; repeat split; discriminate.
Qed.

(** The text to skip in front of a scan that reads at least one character. *)
Lemma skip_ws_before_reads :
  forall s r (P : string -> string),
    skip_ws s = P r -> app_fun P -> (String.length r < String.length (P r))%nat ->
    exists W, s = W (P r) /\ app_fun W /\ forall x, skip_ws (W (P x)) = P x.
Proof.
  intros s r P Hs HP Hlen.
  destruct (P r) as [|c t] eqn:E; [simpl in Hlen; lia|].
  destruct (skip_ws_reads _ _ _ Hs) as (Hc & W & HsW & HW & Hskip & _).
  exists W. split; [exact HsW|]. split; [exact HW|].
  intros x. rewrite Hskip.
  destruct (app_fun_head P r c t HP) with (x := x) as (t' & ->);
    [rewrite E; exact Hlen | exact E |].
  rewrite skip_ws_cons, Hc. reflexivity.
Qed.

Lemma reads_array_step :
  forall f, reads_value f -> reads_array f -> reads_array (S f).
Proof.
  intros f HV HA s values v r H. cbn [array_loop] in H.
  destruct (scan_once f s) as [value s1| |] eqn:Ev; try discriminate H.
  rewrite after_value_ws_eq in H.
  destruct (skip_ws s1) as [|nc s2] eqn:Ew; [discriminate H|].
  destruct (HV _ _ _ Ev) as (Hlen & PV & Hs & HPV & Hst).
  destruct (skip_ws_reads _ _ _ Ew) as (Hnc & W & Hs1 & HW & Hskip & Hend).
  pose proof (app_fun_ge W HW (String nc s2)) as HgeW. rewrite <- Hs1 in HgeW.
  cbn [String.length] in HgeW.
  destruct (nc =? "]")%char eqn:Eb.
  - injection H as <- <-. split; [lia|].
    exists (fun x => PV (W (String nc x))).
    split; [rewrite <- Hs1; exact Hs|].
    split; [apply app_fun_comp; [exact HPV|];
            apply app_fun_comp; [exact HW | apply app_fun_cons, app_fun_id]|].
    intros r' _. cbn [array_loop]. rewrite Hst.
    + rewrite after_value_ws_eq, Hskip, skip_ws_cons, Hnc, Eb. reflexivity.
    + intros _. apply Hend, delimiter_ends_number. rewrite Eb. reflexivity.
  - destruct (nc =? ",")%char eqn:Ec; [|discriminate H].
    rewrite before_value_ws_eq in H.
    destruct (HA _ _ _ _ H) as (Hlen2 & P2 & Hs2 & HP2 & Hst2).
    pose proof (skip_ws_length s2) as Hle2.
    rewrite Hs2 in Hlen2.
    destruct (skip_ws_before_reads _ _ _ Hs2 HP2 Hlen2) as (W2 & HsW2 & HW2 & Hskip2).
    rewrite <- Hs2 in Hlen2.
    split; [lia|].
    exists (fun x => PV (W (String nc (W2 (P2 x))))).
    split; [rewrite <- HsW2, <- Hs1; exact Hs|].
    split; [apply app_fun_comp; [exact HPV|];
            apply app_fun_comp; [exact HW|];
            apply app_fun_cons, app_fun_comp; assumption|].
    intros r' _. cbn [array_loop]. rewrite Hst.
    + rewrite after_value_ws_eq, Hskip, skip_ws_cons, Hnc, Eb, Ec.
      rewrite before_value_ws_eq, Hskip2. apply Hst2. exact I.
    + intros _. apply Hend, delimiter_ends_number. rewrite Ec.
      apply orb_true_iff. left. apply orb_true_r.
Qed.

Lemma reads_object_step :
  forall f, reads_value f -> reads_object f -> reads_object (S f).
Proof.
  intros f HV HO s pairs v r H. cbn [object_loop] in H.
  destruct (scanstring s "") as [key s1| |] eqn:Ek; try discriminate H.
  rewrite before_colon_ws_eq in H.
  destruct (skip_ws s1) as [|c s3] eqn:Ew1; [discriminate H|].
  destruct (c =? ":")%char eqn:Ecolon; [|discriminate H].
  rewrite before_value_ws_eq in H.
  destruct (scan_once f (skip_ws s3)) as [value s4| |] eqn:Ev; try discriminate H.
  rewrite after_value_ws_eq in H.
  destruct (skip_ws s4) as [|nc s5] eqn:Ew3; [discriminate H|].
  destruct (scanstring_reads _ _ _ _ _ (Nat.le_refl _) Ek) as (pk & Hsk & _ & Hstk).
  destruct (skip_ws_reads _ _ _ Ew1) as (_ & W1 & Hs1 & HW1 & Hskip1 & _).
  destruct (HV _ _ _ Ev) as (Hlen & PV & Hs3 & HPV & Hstv).
  rewrite Hs3 in Hlen.
  destruct (skip_ws_before_reads _ _ _ Hs3 HPV Hlen) as (W2 & HsW2 & HW2 & Hskip2).
  rewrite <- Hs3 in Hlen.
  destruct (skip_ws_reads _ _ _ Ew3) as (Hnc & W3 & Hs4 & HW3 & Hskip3 & Hend3).
  (* lengths *)
  assert (L1 : (String.length s1 <= String.length s)%nat)
    by (rewrite Hsk, length_append_s; lia).
  pose proof (app_fun_ge W1 HW1 (String c s3)) as L2. rewrite <- Hs1 in L2.
  pose proof (skip_ws_length s3) as L3.
  pose proof (app_fun_ge W3 HW3 (String nc s5)) as L4. rewrite <- Hs4 in L4.
  cbn [String.length] in L2, L4.
  destruct (nc =? "}")%char eqn:Eb.
  - injection H as <- <-. split; [lia|].
    exists (fun x => pk ++ W1 (String c (W2 (PV (W3 (String nc x)))))).
    split; [rewrite <- Hs4, <- HsW2, <- Hs1; exact Hsk|].
    split; [apply (app_fun_comp (fun x => pk ++ x)); [apply app_fun_append|];
            apply app_fun_comp; [exact HW1|]; apply app_fun_cons;
            apply app_fun_comp; [exact HW2|]; apply app_fun_comp; [exact HPV|];
            apply app_fun_comp; [exact HW3 | apply app_fun_cons, app_fun_id]|].
    intros r' _. cbn [object_loop]. rewrite Hstk.
    rewrite before_colon_ws_eq, Hskip1, skip_ws_cons.
    replace (is_ws c) with false
      by (apply Ascii.eqb_eq in Ecolon; subst c; reflexivity).
    rewrite Ecolon, before_value_ws_eq, Hskip2, Hstv.
    + rewrite after_value_ws_eq, Hskip3, skip_ws_cons, Hnc, Eb. reflexivity.
    + intros _. apply Hend3, delimiter_ends_number. rewrite Eb. apply orb_true_r.
  - destruct (nc =? ",")%char eqn:Ec; [|discriminate H].
    destruct (skip_ws s5) as [|q s6] eqn:Ew4; [discriminate H|].
    destruct (q =? dquote)%char eqn:Eq; [|discriminate H].
    destruct (HO _ _ _ _ H) as (Hlen6 & P6 & Hs6 & HP6 & Hst6).
    destruct (skip_ws_reads _ _ _ Ew4) as (Hq & W4 & Hs5 & HW4 & Hskip4 & _).
    pose proof (app_fun_ge W4 HW4 (String q s6)) as L5. rewrite <- Hs5 in L5.
    cbn [String.length] in L5.
    split; [lia|].
    exists (fun x => pk ++ W1 (String c (W2 (PV (W3 (String nc (W4 (String q (P6 x))))))))).
    split; [rewrite <- Hs6, <- Hs5, <- Hs4, <- HsW2, <- Hs1; exact Hsk|].
    split; [apply (app_fun_comp (fun x => pk ++ x)); [apply app_fun_append|];
            apply app_fun_comp; [exact HW1|]; apply app_fun_cons;
            apply app_fun_comp; [exact HW2|]; apply app_fun_comp; [exact HPV|];
            apply app_fun_comp; [exact HW3|]; apply app_fun_cons;
            apply app_fun_comp; [exact HW4|]; apply app_fun_cons; exact HP6|].
    intros r' _. cbn [object_loop]. rewrite Hstk.
    rewrite before_colon_ws_eq, Hskip1, skip_ws_cons.
    replace (is_ws c) with false
      by (apply Ascii.eqb_eq in Ecolon; subst c; reflexivity).
    rewrite Ecolon, before_value_ws_eq, Hskip2, Hstv.
    + rewrite after_value_ws_eq, Hskip3, skip_ws_cons, Hnc, Eb, Ec.
      rewrite Hskip4, skip_ws_cons, Hq, Eq. apply Hst6. exact I.
    + intros _. apply Hend3, delimiter_ends_number. rewrite Ec.
      apply orb_true_iff. left. apply orb_true_r.
Qed.

Lemma starts_with_split :
  forall p s, starts_with p s = true -> s = p ++ str_drop (String.length p) s.
Proof.
  unfold starts_with. induction p as [|a p IH]; intros s H; [reflexivity|].
  destruct s as [|b s]; [discriminate H|]. cbn [prefix] in H.
  destruct (ascii_dec a b) as [<-|]; [|discriminate H].
  cbn [append String.length str_drop]. rewrite <- (IH _ H). reflexivity.
Qed.

Lemma number_head :
  forall c X q,
    match_number (String c X) = Some q -> (c =? "-")%char || is_digit c = true.
Proof.
  intros c X q H. unfold match_number, match_integer in H.
  destruct (c =? "-")%char; [reflexivity|].
  destruct (Ascii.eqb_spec c "0") as [->|]; [reflexivity|].
  destruct (is_digit c); [reflexivity | discriminate H].
Qed.

Lemma number_head_conditions :
  forall c,
    (c =? "-")%char || is_digit c = true ->
    (c =? dquote)%char = false /\ (c =? "{")%char = false
    /\ (c =? "[")%char = false
    /\ forall X, starts_with "null" (String c X) = false
                 /\ starts_with "true" (String c X) = false
                 /\ starts_with "false" (String c X) = false.
Proof.
  intros c H.
  repeat split;
    try (destruct (Ascii.eqb_spec c dquote) as [->|]; [discriminate H | reflexivity]);
    try (destruct (Ascii.eqb_spec c "{") as [->|]; [discriminate H | reflexivity]);
    try (destruct (Ascii.eqb_spec c "[") as [->|]; [discriminate H | reflexivity]);
    unfold starts_with; cbn [prefix];
    match goal with
    | |- context [ascii_dec ?a c] =>
        destruct (ascii_dec a c) as [<-|]; [discriminate H | reflexivity]
    end.
Qed.

Lemma scan_once_number :
  forall f c X integer frac exp rest,
    match_number (String c X) = Some (integer, frac, exp, rest) ->
    scan_once (S f) (String c X)
    = match frac, exp with
      | EmptyString, EmptyString => Done (JInt (parse_int integer)) rest
      | _, _ => Done (JFloat (FloatLit (integer ++ frac ++ exp))) rest
      end.
Proof.
  intros f c X integer frac exp rest H.
  destruct (number_head_conditions c (number_head _ _ _ H))
    as (Eq & Eo & Ea & Hlit).
  destruct (Hlit X) as (En & Et & Ef).
  cbn [scan_once]. rewrite Eq, Eo, Ea, En, Et, Ef, H. reflexivity.
Qed.

Lemma literal_reads :
  forall f lit v s r,
    starts_with lit s = true ->
    r = str_drop (String.length lit) s ->
    lit <> "" ->
    (forall r', scan_once (S f) (lit ++ r') = Done v r') ->
    reads_prefix (scan_once (S f)) s v r (value_ok v).
Proof.
  intros f lit v s r Hsw -> Hne Hst.
  pose proof (starts_with_split _ _ Hsw) as Hs.
  split.
  - rewrite Hs at 2. rewrite length_append_s.
    destruct lit; [congruence | simpl; lia].
  - exists (fun x => lit ++ x). split; [exact Hs|].
    split; [apply app_fun_append|]. intros r' _. apply Hst.
Qed.

Lemma reads_value_step :
  forall f, reads_object f -> reads_array f -> reads_value (S f).
Proof.
  intros f HO HA s v r H.
  destruct s as [|nextchar r0]; [discriminate H|].
  destruct (match_number (String nextchar r0))
    as [[[[integer frac] exp] rest]|] eqn:Em.
  { (* a number *)
    rewrite (scan_once_number _ _ _ _ _ _ _ Em) in H.
    destruct (match_number_reads _ _ _ _ _ Em) as (Hs & Hne & Hst).
    assert (Hr : r = rest) by (destruct frac, exp; congruence). subst r.
    split; [rewrite Hs, !length_append_s; destruct integer; [congruence | simpl; lia]|].
    exists (fun x => integer ++ frac ++ exp ++ x). split; [exact Hs|].
    split; [apply (app_fun_comp (fun x => integer ++ x)); [apply app_fun_append|];
            apply (app_fun_comp (fun x => frac ++ x)); apply app_fun_append|].
    intros r' Hok.
    assert (Hv : is_number v = true) by (destruct frac, exp; injection H as <-; reflexivity).
    specialize (Hst r' (Hok Hv)).
    destruct integer as [|c0 i']; [congruence|].
    cbn [append] in Hs, Hst |- *. injection Hs as <- _.
    rewrite (scan_once_number _ _ _ _ _ _ _ Hst).
    clear - H. destruct frac, exp; inversion H; reflexivity. }
  cbn [scan_once] in H. rewrite Em in H.
  destruct (nextchar =? dquote)%char eqn:Eq.
  { destruct (scanstring r0 "") as [str rest| |] eqn:Ek; try discriminate H.
    injection H as <- <-.
    destruct (scanstring_reads _ _ _ _ _ (Nat.le_refl _) Ek) as (pk & Hsk & _ & Hstk).
    split; [cbn [String.length]; rewrite Hsk, length_append_s; lia|].
    exists (fun x => String nextchar (pk ++ x)). split; [rewrite Hsk; reflexivity|].
    split; [apply app_fun_cons, app_fun_append|].
    intros r' _. cbn [scan_once]. rewrite Eq, Hstk. reflexivity. }
  destruct (nextchar =? "{")%char eqn:Eo.
  { rewrite before_name_ws_eq in H.
    destruct (skip_ws r0) as [|c r2] eqn:Ew; [discriminate H|].
    destruct (skip_ws_reads _ _ _ Ew) as (Hc & W & Hs0 & HW & Hskip & _).
    pose proof (app_fun_ge W HW (String c r2)) as L. rewrite <- Hs0 in L.
    cbn [String.length] in L.
    destruct (c =? dquote)%char eqn:Ecq.
    - destruct (HO _ _ _ _ H) as (Hlen & P2 & Hs2 & HP2 & Hst2).
      split; [cbn [String.length]; lia|].
      exists (fun x => String nextchar (W (String c (P2 x)))).
      split; [rewrite <- Hs2, <- Hs0; reflexivity|].
      split; [apply app_fun_cons, app_fun_comp; [exact HW|];
              apply app_fun_cons; exact HP2|].
      intros r' _. cbn [scan_once].
      rewrite Eq, Eo, before_name_ws_eq, Hskip, skip_ws_cons, Hc, Ecq.
      apply Hst2. exact I.
    - destruct (c =? "}")%char eqn:Ecb; [|discriminate H]. injection H as <- <-.
      split; [cbn [String.length]; lia|].
      exists (fun x => String nextchar (W (String c x))).
      split; [rewrite <- Hs0; reflexivity|].
      split; [apply app_fun_cons, app_fun_comp; [exact HW|];
              apply app_fun_cons, app_fun_id|].
      intros r' _. cbn [scan_once].
      rewrite Eq, Eo, before_name_ws_eq, Hskip, skip_ws_cons, Hc, Ecq, Ecb.
      reflexivity. }
  destruct (nextchar =? "[")%char eqn:Ea.
  { rewrite after_value_ws_eq in H.
    destruct (skip_ws r0) as [|c r2] eqn:Ew.
    - destruct (HA _ _ _ _ H) as (Hlen & _). simpl in Hlen. lia.
    - destruct (c =? "]")%char eqn:Ecb.
      + injection H as <- <-.
        destruct (skip_ws_reads _ _ _ Ew) as (Hc & W & Hs0 & HW & Hskip & _).
        pose proof (app_fun_ge W HW (String c r2)) as L. rewrite <- Hs0 in L.
        cbn [String.length] in L.
        split; [cbn [String.length]; lia|].
        exists (fun x => String nextchar (W (String c x))).
        split; [rewrite <- Hs0; reflexivity|].
        split; [apply app_fun_cons, app_fun_comp; [exact HW|];
                apply app_fun_cons, app_fun_id|].
        intros r' _. cbn [scan_once].
        rewrite Eq, Eo, Ea, after_value_ws_eq, Hskip, skip_ws_cons, Hc, Ecb.
        reflexivity.
      + destruct (HA _ _ _ _ H) as (Hlen & P1 & Hs1 & HP1 & Hst1).
        rewrite Hs1 in Ew, Hlen.
        destruct (skip_ws_before_reads _ _ _ Ew HP1 Hlen) as (W & Hs0 & HW & Hskip).
        pose proof (app_fun_ge W HW (P1 r)) as L. rewrite <- Hs0 in L.
        split; [cbn [String.length]; lia|].
        exists (fun x => String nextchar (W (P1 x))).
        split; [rewrite <- Hs0; reflexivity|].
        split; [apply app_fun_cons, app_fun_comp; assumption|].
        intros r' _. cbn [scan_once].
        rewrite Eq, Eo, Ea, after_value_ws_eq, Hskip.
        destruct (app_fun_head P1 r c r2 HP1 Hlen (eq_sym Hs1)) with (x := r')
          as (t' & Ht').
        specialize (Hst1 r' I). rewrite Ht' in Hst1 |- *. rewrite Ecb.
        exact Hst1. }
  destruct (starts_with "null" (String nextchar r0)) eqn:E1;
    [injection H as <- <-; apply (literal_reads f "null");
     [exact E1 | reflexivity | discriminate | intros [|a t]; reflexivity]|].
  destruct (starts_with "true" (String nextchar r0)) eqn:E2;
    [injection H as <- <-; apply (literal_reads f "true");
     [exact E2 | reflexivity | discriminate | intros [|a t]; reflexivity]|].
  destruct (starts_with "false" (String nextchar r0)) eqn:E3;
    [injection H as <- <-; apply (literal_reads f "false");
     [exact E3 | reflexivity | discriminate | intros [|a t]; reflexivity]|].
  destruct (starts_with "NaN" (String nextchar r0)) eqn:E4;
    [injection H as <- <-; apply (literal_reads f "NaN");
     [exact E4 | reflexivity | discriminate | intros [|a t]; reflexivity]|].
  destruct (starts_with "Infinity" (String nextchar r0)) eqn:E5;
    [injection H as <- <-; apply (literal_reads f "Infinity");
     [exact E5 | reflexivity | discriminate | intros [|a t]; reflexivity]|].
  destruct (starts_with "-Infinity" (String nextchar r0)) eqn:E6;
    [injection H as <- <-; apply (literal_reads f "-Infinity");
     [exact E6 | reflexivity | discriminate | intros [|a t]; reflexivity]|].
  discriminate H.
Qed.

Lemma reads_all :
  forall fuel, reads_value fuel /\ reads_object fuel /\ reads_array fuel.
Proof.
  induction fuel as [|fuel (HV & HO & HA)].
  - split; [|split].
    + intros s v r H. discriminate H.
    + intros s pairs v r H. discriminate H.
    + intros s values v r H. discriminate H.
  - split; [|split].
    + apply reads_value_step; assumption.
    + apply reads_object_step; assumption.
    + apply reads_array_step; assumption.
Qed.

(** *** Fuel *)

Lemma scanstring_fueled :
  forall n s acc, (String.length s <= n)%nat -> scanstring s acc <> OutOfFuel.
Proof.
  induction n as [|n IH]; intros s acc Hn; rewrite scanstring_eq.
  - destruct s; [discriminate | simpl in Hn; lia].
  - destruct s as [|c t]; [discriminate|]. cbn [scanstring_step].
    cbn [String.length] in Hn. unfold after_uXXXX.
    repeat match goal with
           | |- context [match ?x with _ => _ end] => destruct x eqn:?
           end;
      try discriminate; apply IH; subst; cbn [String.length] in *; lia.
Qed.

(** One more unit of fuel does not change an outcome that was reached. *)
Lemma fuel_step :
  forall f,
    (forall s, scan_once f s <> OutOfFuel -> scan_once (S f) s = scan_once f s)
    /\ (forall s pairs,
           object_loop f s pairs <> OutOfFuel ->
           object_loop (S f) s pairs = object_loop f s pairs)
    /\ (forall s values,
           array_loop f s values <> OutOfFuel ->
           array_loop (S f) s values = array_loop f s values).
Proof.
  induction f as [|f' (IHs & IHo & IHa)].
  - repeat split; intros; exfalso; auto.
  - assert (Hs : forall x o, scan_once f' x = o -> o <> OutOfFuel ->
                             scan_once (S f') x = o)
      by (intros x o <- Ho; apply IHs; exact Ho).
    assert (Ho : forall x pairs o, object_loop f' x pairs = o -> o <> OutOfFuel ->
                                   object_loop (S f') x pairs = o)
      by (intros x pairs o <- Hne; apply IHo; exact Hne).
    assert (Ha : forall x values o, array_loop f' x values = o -> o <> OutOfFuel ->
                                    array_loop (S f') x values = o)
      by (intros x values o <- Hne; apply IHa; exact Hne).
    split; [|split].
    + intros s. set (g := S f') at 2. cbn [scan_once]. subst g.
      repeat match goal with
             | |- context [match ?x with _ => _ end] =>
                 lazymatch x with
                 | context [S f'] => fail
                 | _ => destruct x eqn:?
                 end
             end;
        intros Hne; try reflexivity; try congruence; auto.
    + intros s pairs. set (g := S f') at 2. cbn [object_loop]. subst g.
      repeat match goal with
             | |- context [match scan_once f' ?X with _ => _ end] =>
                 let E := fresh "E" in
                 destruct (scan_once f' X) eqn:E;
                 [ rewrite (Hs _ _ E) by discriminate
                 | rewrite (Hs _ _ E) by discriminate
                 | ]
             | |- context [match ?x with _ => _ end] =>
                 lazymatch x with
                 | context [S f'] => fail
                 | _ => destruct x eqn:?
                 end
             end;
        intros Hne; try reflexivity; try congruence; auto.
    + intros s values. set (g := S f') at 2. cbn [array_loop]. subst g.
      repeat match goal with
             | |- context [match scan_once f' ?X with _ => _ end] =>
                 let E := fresh "E" in
                 destruct (scan_once f' X) eqn:E;
                 [ rewrite (Hs _ _ E) by discriminate
                 | rewrite (Hs _ _ E) by discriminate
                 | ]
             | |- context [match ?x with _ => _ end] =>
                 lazymatch x with
                 | context [S f'] => fail
                 | _ => destruct x eqn:?
                 end
             end;
        intros Hne; try reflexivity; try congruence; auto.
Qed.


Lemma fuel_mono :
  forall f f' s,
    (f <= f')%nat -> scan_once f s <> OutOfFuel -> scan_once f' s = scan_once f s.
Proof.
  intros f f' s Hle Hne. induction Hle as [|m Hle IH]; [reflexivity|].
  rewrite <- IH. apply (proj1 (fuel_step m)). rewrite IH. exact Hne.
Qed.

Lemma scanstring_shorter :
  forall s acc key r,
    scanstring s acc = Done key r -> (String.length r < String.length s)%nat.
Proof.
  intros s acc key r H.
  destruct (scanstring_reads _ _ _ _ _ (Nat.le_refl _) H) as (p & -> & Hp & _).
  pose proof (escape_span_pos (p ++ r)). rewrite length_append_s. lia.
Qed.

Lemma scan_once_shorter :
  forall f s v r,
    scan_once f s = Done v r -> (String.length r < String.length s)%nat.
Proof. intros f s v r H. exact (proj1 (proj1 (reads_all f) _ _ _ H)). Qed.

(** The lengths of the texts named by the equations of a case analysis. *)
Ltac length_facts :=
  repeat match goal with
         | E : skip_ws ?a = ?b |- _ =>
             let L := fresh "L" in
             pose proof (skip_ws_length a) as L; rewrite E in L; clear E
         | E : scanstring ?a _ = Done _ ?b |- _ =>
             apply scanstring_shorter in E
         | E : scan_once _ (skip_ws ?a) = Done _ ?b |- _ =>
             let L := fresh "L" in
             pose proof (skip_ws_length a) as L; apply scan_once_shorter in E
         | E : scan_once _ ?a = Done _ ?b |- _ =>
             apply scan_once_shorter in E
         end;
  cbn [String.length] in *.

Ltac fuel_leaf IHs IHo IHa :=
  match goal with
  | E : scanstring ?a ?acc = OutOfFuel |- _ =>
      exfalso; exact (scanstring_fueled _ a acc (Nat.le_refl _) E)
  | E : scan_once _ (skip_ws ?a) = OutOfFuel |- _ =>
      exfalso; pose proof (skip_ws_length a); length_facts;
      apply (IHs (skip_ws a)); [lia | exact E]
  | E : scan_once _ ?a = OutOfFuel |- _ =>
      exfalso; length_facts; apply (IHs a); [cbn [String.length]; lia | exact E]
  | |- object_loop _ _ _ <> OutOfFuel =>
      length_facts; apply IHo; cbn [String.length]; lia
  | |- array_loop _ (skip_ws ?a) _ <> OutOfFuel =>
      pose proof (skip_ws_length a); length_facts; apply IHa; lia
  | |- array_loop _ _ _ <> OutOfFuel =>
      length_facts; apply IHa; cbn [String.length]; lia
  end.

(** With more fuel than characters the scan reaches an outcome. *)
Lemma fuel_enough :
  forall f,
    (forall s, (2 * String.length s < f)%nat -> scan_once f s <> OutOfFuel)
    /\ (forall s pairs,
           (2 * String.length s < f)%nat -> object_loop f s pairs <> OutOfFuel)
    /\ (forall s values,
           (2 * String.length s + 1 < f)%nat ->
           array_loop f s values <> OutOfFuel).
Proof.
  induction f as [|f (IHs & IHo & IHa)].
  - repeat split; intros; lia.
  - split; [|split].
    + intros s Hn. cbn [scan_once].
      repeat (rewrite ?before_name_ws_eq, ?after_value_ws_eq;
              match goal with
              | |- context [match ?x with _ => _ end] => destruct x eqn:?
              end);
        try discriminate; subst; fuel_leaf IHs IHo IHa.
    + intros s pairs Hn. cbn [object_loop].
      repeat (rewrite ?before_colon_ws_eq, ?after_value_ws_eq, ?before_value_ws_eq;
              match goal with
              | |- context [match ?x with _ => _ end] => destruct x eqn:?
              end);
        try discriminate; subst; fuel_leaf IHs IHo IHa.
    + intros s values Hn. cbn [array_loop].
      repeat (rewrite ?after_value_ws_eq, ?before_value_ws_eq;
              match goal with
              | |- context [match ?x with _ => _ end] => destruct x eqn:?
              end);
        try discriminate; subst; fuel_leaf IHs IHo IHa.
Qed.

(** *** [raw_decode] reads one value *)

Lemma substring_prefix :
  forall p r, substring 0 (String.length p) (p ++ r) = p.
Proof.
  induction p as [|c p IH]; intros r; simpl.
  - destruct r; reflexivity.
  - rewrite IH. reflexivity.
Qed.

Lemma object_loop_dict :
  forall f s pairs v r,
    object_loop f s pairs = Done v r -> exists d, v = JDict d.
Proof.
  induction f as [|f IH]; intros s pairs v r H; [discriminate H|].
  cbn [object_loop] in H.
  repeat (first [discriminate H | break_hyp H]);
    first [injection H as <- <-; eauto | exact (IH _ _ _ _ H)].
Qed.



Lemma occurs_brace_drop :
  forall j raw, occurs_at "{" raw j -> exists t, str_drop j raw = String "{" t.
Proof.
  unfold occurs_at. induction j as [|j IH]; intros [|c r] H; simpl in H.
  - discriminate H.
  - injection H as -> _. simpl. eauto.
  - discriminate H.
  - simpl. apply IH. exact H.
Qed.


(** ** The JSON locator *)




(** * Further properties of the loader *)

Lemma dict_get_set_other :
  forall (V : Type) k k' (v : V) d,
    String.eqb k k' = false -> dict_get k (dict_set k' v d) = dict_get k d.
Proof.
  intros V k k' v d Hk. induction d as [|[k0 v0] d IH]; simpl.
  - rewrite Hk. reflexivity.
  - destruct (String.eqb k' k0) eqn:E; simpl.
    + apply String.eqb_eq in E. subst k0. rewrite Hk. reflexivity.
    + destruct (String.eqb k k0); [reflexivity | exact IH].
Qed.

(** X6.  [_get_socs_cookie] always returns a cookie of more than 14
    characters: the [SOCS] cookie of the session when it has one that long,
    and the default otherwise; it logs nothing when the session could be
    read, and one debug record when it could not. *)
Theorem X6_socs_cookie_is_usable :
  forall session_cookies,
    let outcome := _get_socs_cookie session_cookies in
    (14 < String.length (fst outcome))%nat
    /\ (fst outcome = DEFAULT_SOCS_COOKIE
        \/ exists cookies,
             session_cookies = Return cookies
             /\ dict_get "SOCS" cookies = Some (fst outcome))
    /\ (forall cookies value,
           session_cookies = Return cookies ->
           dict_get "SOCS" cookies = Some value ->
           (14 < String.length value)%nat ->
           fst outcome = value)
    /\ (forall cookies, session_cookies = Return cookies -> snd outcome = [])
    /\ (forall e,
           session_cookies = Raise e ->
           outcome = (DEFAULT_SOCS_COOKIE, [LogDebugSocs e])).
Proof.
  intros sc. unfold _get_socs_cookie. cbv zeta.
  assert (Hd : (14 < String.length DEFAULT_SOCS_COOKIE)%nat) by (cbv; lia).
  destruct sc as [cookies|e].
  - destruct (dict_get "SOCS" cookies) as [cookie|] eqn:E.
    + destruct (14 <? String.length cookie)%nat eqn:L; cbn [fst snd].
      * apply Nat.ltb_lt in L.
        split; [exact L|]. split; [right; eauto|]. split; [|split].
        -- intros cs v H Hv Hl. injection H as <-. rewrite E in Hv.
           injection Hv as <-. reflexivity.
        -- reflexivity.
        -- intros e H. discriminate H.
      * split; [exact Hd|]. split; [left; reflexivity|]. split; [|split].
        -- intros cs v H Hv Hl. injection H as <-. rewrite E in Hv.
           injection Hv as <-. apply Nat.ltb_lt in Hl. congruence.
        -- reflexivity.
        -- intros e H. discriminate H.
    + cbn [fst snd]. split; [exact Hd|]. split; [left; reflexivity|]. split; [|split].
      * intros cs v H Hv Hl. injection H as <-. congruence.
      * reflexivity.
      * intros e H. discriminate H.
  - cbn [fst snd]. split; [exact Hd|]. split; [left; reflexivity|]. split; [|split].
    + intros cs v H. discriminate H.
    + intros cs H. discriminate H.
    + intros e0 H. injection H as <-. reflexivity.
Qed.

Lemma X6_socs_cookie_is_usable_witness :
  fst (_get_socs_cookie (Return [("SOCS", "CAISNQgDEitib3FfaWRlbnRpdHk")]))
  = "CAISNQgDEitib3FfaWRlbnRpdHk"
  /\ snd (_get_socs_cookie (Return [("SOCS", "short")])) = [].
Proof.
  split.
  - apply (proj1 (proj2 (proj2 (X6_socs_cookie_is_usable
                                  (Return [("SOCS", "CAISNQgDEitib3FfaWRlbnRpdHk")]))))
             [("SOCS", "CAISNQgDEitib3FfaWRlbnRpdHk")] "CAISNQgDEitib3FfaWRlbnRpdHk").
    + reflexivity.
    + reflexivity.
    + simpl. lia.
  - apply (proj1 (proj2 (proj2 (proj2 (X6_socs_cookie_is_usable
                                         (Return [("SOCS", "short")])))))
             [("SOCS", "short")]).
    reflexivity.
Defined.

(** ** The document builder *)

(** X19.  [_create_document] depends on seven entries of the record only:
    two records that agree on them give the same document.  In particular
    the [post_id] entry of the record is never read. *)
Theorem X19_document_reads_seven_entries :
  forall rt self post_data post_data',
    (forall k, In k record_keys_read -> dict_get k post_data = dict_get k post_data') ->
    _create_document rt self post_data = _create_document rt self post_data'.
Proof.
  intros rt self pd pd' H.
  unfold _create_document, set_if_truthy, get_or.
  rewrite !(H _) by (simpl; tauto). reflexivity.
Qed.

Lemma X19_document_reads_seven_entries_witness :
  _create_document example_runtime example_loader
    (dict_set "post_id" (JStr "another") [("text_content", JStr "hi")])
  = _create_document example_runtime example_loader [("text_content", JStr "hi")].
Proof.
  apply X19_document_reads_seven_entries.
  intros k Hk. apply dict_get_set_other.
  simpl in Hk. repeat (destruct Hk as [<- | Hk]; [reflexivity|]). destruct Hk.
Defined.



(** ** What [load] returns *)

(** X15.  When [load] returns, the list is empty (in permissive mode only) or
    holds exactly one document, whose content is a string and whose metadata
    gives the post URL as source, the post id of the loader, the time of the
    download and a [time_since] entry. *)
Theorem X15_load_returns_one_attributed_document :
  forall rt session_cookies http_get utcnow self documents,
    fst (load rt session_cookies http_get utcnow self) = Return documents ->
    (documents = [] /\ continue_on_failure self = true)
    \/ exists doc text time_since,
         documents = [doc]
         /\ page_content doc = JStr text
         /\ dict_get "source" (metadata doc)
            = Some (JStr ("https://www.youtube.com/post/" ++ post_id self))
         /\ dict_get "post_id" (metadata doc) = Some (JStr (post_id self))
         /\ dict_get "time_since" (metadata doc) = Some time_since
         /\ dict_get "time_of_download" (metadata doc) = Some (JStr utcnow).
Proof.
  intros rt sc http_get utcnow self documents. unfold load, _load_post.
  destruct (_get_socs_cookie sc) as [cookie logged].
  destruct (http_get ("https://www.youtube.com/post/" ++ post_id self) cookie)
    as [html|e]; cbn [bind fst].
  - destruct (_extract_post_from_html rt utcnow self html
                ("https://www.youtube.com/post/" ++ post_id self))
      as [post_data|e] eqn:E; cbn [bind fst].
    + intros H. injection H as <-. right.
      unfold _extract_post_from_html in E.
      destruct (_extract_json_from_html html "backstagePostRenderer") as [pj|];
        [|discriminate E].
      cbn [bind] in E.
      destruct (if negb (truthy rt pj)
                then _extract_json_from_html html "sharedPostRenderer"
                else Return pj) as [pj'|]; [|discriminate E].
      cbn [bind] in E.
      destruct (parse_post_data_inv _ _ _ _ _ _ E)
        as (text & video & images & poll & t & _ & _ & _ & _ & _ & ->).
      exists (_create_document rt self
                [("post_link", JStr ("https://www.youtube.com/post/" ++ post_id self));
                 ("post_id", JStr (post_id self));
                 ("text_content", JStr match text with Some s => s | None => "" end);
                 ("video_link", json_of_option JStr video);
                 ("image_links", json_of_option JList images);
                 ("poll_content", json_of_option JStr poll);
                 ("time_of_download", JStr utcnow);
                 ("time_since", t)]),
        match text with Some s => s | None => "" end, t.
      split; [reflexivity|]. split; [reflexivity|].
      destruct video as [[|c vs]|], images as [[|i imgs]|], poll as [[|c' ps]|];
        cbn; repeat split; reflexivity.
    + destruct (continue_on_failure self); cbn [fst]; intros H.
      * injection H as <-. left. split; reflexivity.
      * discriminate H.
  - destruct (continue_on_failure self); cbn [fst]; intros H.
    + injection H as <-. left. split; reflexivity.
    + discriminate H.
Qed.

Lemma X15_load_returns_one_attributed_document_witness :
  exists doc text time_since,
    [{| page_content := JStr "hi";
        metadata :=
          [("source", JStr example_url);
           ("post_id", JStr "P1");
           ("time_since", JStr "1 day ago");
           ("time_of_download", JStr example_time)] |}] = [doc]
    /\ page_content doc = JStr text
    /\ dict_get "source" (metadata doc)
       = Some (JStr ("https://www.youtube.com/post/" ++ post_id example_loader))
    /\ dict_get "post_id" (metadata doc) = Some (JStr (post_id example_loader))
    /\ dict_get "time_since" (metadata doc) = Some time_since
    /\ dict_get "time_of_download" (metadata doc) = Some (JStr example_time).
Proof.
  destruct (X15_load_returns_one_attributed_document example_runtime (Return [])
              (fun _ _ => Return direct_post_html) example_time example_loader
              [{| page_content := JStr "hi";
                  metadata :=
                    [("source", JStr example_url);
                     ("post_id", JStr "P1");
                     ("time_since", JStr "1 day ago");
                     ("time_of_download", JStr example_time)] |}])
    as [(H & _) | H].
  - vm_compute. reflexivity.
  - discriminate H.
  - exact H.
Defined.

(** ** The video link *)

Lemma video_link_cases :
  forall rt post,
    (forall link,
        _get_video_link rt post = Return (Some link)
        <-> exists video_id,
              lookup_path video_path post = Some video_id
              /\ link = "https://www.youtube.com/watch?v=" ++ py_str rt video_id)
    /\ (_get_video_link rt post = Return None
        <-> path_missing video_path post = true)
    /\ (forall e, _get_video_link rt post = Raise e -> e = TypeError).
Proof.
  intros rt post. unfold _get_video_link, video_path.
  assert (Leaf : forall (r : result (option string)) (l : option json) (m : bool),
             (r = Raise TypeError /\ l = None /\ m = false)
             \/ (r = Return None /\ l = None /\ m = true)
             \/ (exists id, r = Return (Some ("https://www.youtube.com/watch?v="
                                               ++ py_str rt id))
                            /\ l = Some id /\ m = false) ->
             (forall link,
                 r = Return (Some link)
                 <-> exists video_id,
                       l = Some video_id
                       /\ link = "https://www.youtube.com/watch?v=" ++ py_str rt video_id)
             /\ (r = Return None <-> m = true)
             /\ (forall e, r = Raise e -> e = TypeError)).
  { intros r l m [(-> & -> & ->) | [(-> & -> & ->) | (id & -> & -> & ->)]].
    - split; [|split].
      + intros link. split; [discriminate|]. intros (x & H & _). discriminate H.
      + split; discriminate.
      + intros e H. injection H as <-. reflexivity.
    - split; [|split].
      + intros link. split; [discriminate|]. intros (x & H & _). discriminate H.
      + split; reflexivity.
      + intros e H. discriminate H.
    - split; [|split].
      + intros link. split.
        * intros H. injection H as <-. eauto.
        * intros (x & H & ->). injection H as <-. reflexivity.
      + split; discriminate.
      + intros e H. discriminate H. }
  apply Leaf.
  destruct post as [| | | | |l|d]; try (left; repeat split; reflexivity).
  cbn [getitem lookup_path path_missing].
  destruct (dict_get "backstageAttachment" d) as [a|];
    [|right; left; repeat split; reflexivity].
  cbn [bind].
  destruct a as [| | | | |l|d1]; try (left; repeat split; reflexivity).
  cbn [getitem lookup_path path_missing].
  destruct (dict_get "videoRenderer" d1) as [r|];
    [|right; left; repeat split; reflexivity].
  cbn [bind].
  destruct r as [| | | | |l|d2]; try (left; repeat split; reflexivity).
  cbn [getitem lookup_path path_missing].
  destruct (dict_get "videoId" d2) as [id|];
    [|right; left; repeat split; reflexivity].
  right; right. exists id. repeat split; reflexivity.
Qed.

(** X7.  For a post within the limits of the interpreter, [_get_video_link]
    returns the watch URL of the video id exactly when the id can be read
    along backstageAttachment, videoRenderer, videoId; returns nothing exactly
    when a mapping on that path lacks the next key; and raises nothing but
    [TypeError]. *)
Theorem X7_video_link_characterised :
  forall rt post,
    within_limits post = true ->
    (forall link,
        _get_video_link rt post = Return (Some link)
        <-> exists video_id,
              lookup_path video_path post = Some video_id
              /\ link = "https://www.youtube.com/watch?v=" ++ py_str rt video_id)
    /\ (_get_video_link rt post = Return None
        <-> path_missing video_path post = true)
    /\ (forall e, _get_video_link rt post = Raise e -> e = TypeError).
Proof. intros rt post _. exact (video_link_cases rt post). Qed.

Lemma X7_video_link_characterised_witness :
  _get_video_link example_runtime
    (decoded "{'backstageAttachment':{'videoRenderer':{'videoId':'abc123'}}}")
  = Return (Some "https://www.youtube.com/watch?v=abc123").
Proof.
  apply (proj1 (X7_video_link_characterised example_runtime
                  (decoded "{'backstageAttachment':{'videoRenderer':{'videoId':'abc123'}}}")
                  eq_refl)).
  exists (JStr "abc123"). split; reflexivity.
Defined.

(** ** The outcomes of the locator *)

Lemma scan_object_dict :
  forall f t v r,
    scan_once f (String "{" t) = Done v r -> exists d, v = JDict d.
Proof.
  intros [|f] t v r H; [discriminate H|]. cbn [scan_once] in H.
  change ("{" =? dquote)%char with false in H.
  change ("{" =? "{")%char with true in H. cbv beta iota in H.
  destruct (before_name_ws t) as [|c r2]; [discriminate H|].
  destruct (c =? dquote)%char.
  - exact (object_loop_dict _ _ _ _ _ H).
  - destruct (c =? "}")%char; [|discriminate H]. injection H as <- _. eauto.
Qed.

Lemma extract_json_dict :
  forall raw key v,
    _extract_json_from_html raw key = Return v -> exists d, v = JDict d.
Proof.
  intros raw key v H.
  destruct (index 0 (encoded_key_of key) raw) as [i|] eqn:Ei.
  - destruct (index (i + String.length (encoded_key_of key)) "{" raw) as [j|] eqn:Ej.
    + rewrite (extract_json_decodes _ _ _ _ Ei Ej) in H.
      assert (Hb : "{" <> "") by discriminate.
      pose proof (proj1 (index_some_iff _ _ _ _ Hb) Ej) as (_ & Hocc & _).
      destruct (occurs_brace_drop _ _ Hocc) as (t & Ht). rewrite Ht in H.
      unfold raw_decode in H.
      destruct (scan_once _ (String "{" t)) as [v0 r| |] eqn:E; try discriminate H.
      injection H as <-. exact (scan_object_dict _ _ _ _ E).
    + rewrite (extract_json_brace_missing _ _ _ Ei Ej) in H. discriminate H.
  - rewrite (extract_json_key_missing _ _ Ei) in H. discriminate H.
Qed.

(** X1.  A value that [_extract_json_from_html] returns is a mapping, whatever
    the page and the key: never a list, a string, a number or [None]. *)
Theorem X1_locator_returns_mappings :
  forall raw key v,
    _extract_json_from_html raw key = Return v -> exists d, v = JDict d.
Proof. exact extract_json_dict. Qed.

(** The value under a key that is bound to a list is the first mapping
    inside the list. *)
Lemma X1_locator_returns_mappings_witness :
  exists d, JDict [("a", JInt 1)] = JDict d.
Proof.
  apply (X1_locator_returns_mappings (dq "{'items':[{'a':1},{'b':2}]}") "items").
  vm_compute. reflexivity.
Defined.

(** ** The two markers of a post *)

(** X17.  [_extract_post_from_html] consults the repost marker exactly when
    the object under the direct-post marker is the empty mapping: an error of
    the first lookup is raised as it is, and any other object is parsed
    itself. *)
Theorem X17_shared_marker_only_after_empty_object :
  forall rt utcnow self html post_url,
    (forall e,
        _extract_json_from_html html "backstagePostRenderer" = Raise e ->
        _extract_post_from_html rt utcnow self html post_url = Raise e)
    /\ (forall post_json,
           _extract_json_from_html html "backstagePostRenderer" = Return post_json ->
           post_json <> JDict [] ->
           _extract_post_from_html rt utcnow self html post_url
           = _parse_post_data rt utcnow self post_json post_url)
    /\ (_extract_json_from_html html "backstagePostRenderer" = Return (JDict []) ->
        _extract_post_from_html rt utcnow self html post_url
        = (shared <- _extract_json_from_html html "sharedPostRenderer" ;;
           _parse_post_data rt utcnow self shared post_url)).
Proof.
  intros rt utcnow self html post_url. unfold _extract_post_from_html.
  split; [|split].
  - intros e ->. reflexivity.
  - intros post_json H Hne. rewrite H. cbn [bind].
    destruct (extract_json_dict _ _ _ H) as (d & ->).
    destruct d as [|kv d]; [congruence|]. reflexivity.
  - intros ->. reflexivity.
Qed.

Lemma X17_shared_marker_only_after_empty_object_witness :
  _extract_post_from_html example_runtime example_time example_loader
    empty_then_shared_html example_url
  = Return (plain_record example_loader example_url "hi" example_time
              (JStr "1 day ago")).
Proof.
  rewrite (proj2 (proj2 (X17_shared_marker_only_after_empty_object example_runtime
                           example_time example_loader empty_then_shared_html
                           example_url))).
  - vm_compute. reflexivity.
  - vm_compute. reflexivity.
Defined.

(** ** The poll summary *)

Lemma rstrip_last :
  forall chars s c, last_char (rstrip chars s) = Some c -> chars c = false.
Proof.
  intros chars s. induction s as [|a r IH]; intros c H; [discriminate H|].
  cbn [rstrip] in H. destruct (rstrip chars r) as [|b r'] eqn:E.
  - destruct (chars a) eqn:Ea; [discriminate H|]. injection H as <-. exact Ea.
  - apply IH. exact H.
Qed.

Lemma rstrip_prefix :
  forall chars p x c,
    last_char p = Some c -> chars c = false ->
    exists y, rstrip chars (p ++ x) = p ++ y.
Proof.
  intros chars p x c. induction p as [|a p IH]; intros Hl Hc; [discriminate Hl|].
  cbn [append rstrip]. destruct p as [|b p'].
  - injection Hl as ->. cbn [append]. rewrite Hc.
    destruct (rstrip chars x) as [|b r']; [exists ""|exists (String b r')]; reflexivity.
  - destruct (IH Hl Hc) as (y & ->). cbn [append]. exists y. reflexivity.
Qed.

Lemma rstrip_all :
  forall chars x, str_forall chars x = true -> rstrip chars x = "".
Proof.
  intros chars x. induction x as [|a x IH]; intros H; [reflexivity|].
  cbn [str_forall] in H. apply andb_true_iff in H. destruct H as (Ha & Hx).
  cbn [rstrip]. rewrite (IH Hx), Ha. reflexivity.
Qed.

Lemma rstrip_append_stripped :
  forall chars p x c,
    last_char p = Some c -> chars c = false -> str_forall chars x = true ->
    rstrip chars (p ++ x) = p.
Proof.
  intros chars p x c. induction p as [|a p IH]; intros Hl Hc Hx; [discriminate Hl|].
  cbn [append rstrip]. destruct p as [|b p'].
  - injection Hl as ->. cbn [append]. rewrite (rstrip_all _ _ Hx), Hc. reflexivity.
  - rewrite (IH Hl Hc Hx). reflexivity.
Qed.

Lemma poll_choice_extends :
  forall rt poll_text choice s,
    poll_choice rt poll_text choice = Return s -> exists x, s = poll_text ++ x.
Proof.
  intros rt poll_text choice s H. unfold poll_choice in H.
  destruct (get_method choice "text" (JDict [])) as [a|]; [|discriminate H].
  cbn [bind] in H.
  destruct (get_method a "runs" (JList [JDict []])) as [b|]; [|discriminate H].
  cbn [bind] in H.
  destruct (getitem b (KInt 0)) as [c|]; [|discriminate H]. cbn [bind] in H.
  destruct (get_method c "text" (JStr "")) as [t|]; [|discriminate H].
  cbn [bind] in H.
  destruct (get_method choice "voteRatio" (JInt 0)) as [v|]; [|discriminate H].
  cbn [bind] in H.
  destruct (gt_zero rt v) as [[|]|]; try discriminate H; cbn [bind] in H;
    injection H as <-; eauto.
Qed.

Lemma poll_loop_extends :
  forall rt choices poll_text s,
    poll_loop rt poll_text choices = Return s -> exists x, s = poll_text ++ x.
Proof.
  intros rt choices. induction choices as [|c cs IH]; intros poll_text s H.
  - injection H as <-. exists "". symmetry. clear. induction poll_text; simpl; congruence.
  - cbn [poll_loop] in H.
    destruct (poll_choice rt poll_text c) as [p|] eqn:E; [|discriminate H].
    cbn [bind] in H. destruct (poll_choice_extends _ _ _ _ E) as (x & ->).
    destruct (IH _ _ H) as (y & ->). exists (x ++ y). apply append_assoc_s.
Qed.

Lemma poll_content_shape :
  forall rt post s,
    _get_poll_content rt post = Return (Some s) ->
    starts_with "Poll:" s = true
    /\ forall c, last_char s = Some c -> comma_or_space c = false.
Proof.
  intros rt post s H. unfold _get_poll_content in H.
  destruct (getitem post (KStr "backstageAttachment")) as [a|e]; cbn [bind catch] in H;
    [|destruct (is_KeyError e); discriminate H].
  destruct (getitem a (KStr "pollRenderer")) as [p|e]; cbn [bind catch] in H;
    [|destruct (is_KeyError e); discriminate H].
  destruct (get_method p "choices" (JList [])) as [cs|e]; cbn [bind catch] in H;
    [|destruct (is_KeyError e); discriminate H].
  destruct (negb (truthy rt cs)); [discriminate H|].
  destruct (iterate cs) as [items|e]; cbn [bind catch] in H;
    [|destruct (is_KeyError e); discriminate H].
  destruct (poll_loop rt "Poll: " items) as [poll_text|e] eqn:E; cbn [bind catch] in H;
    [|destruct (is_KeyError e); discriminate H].
  injection H as <-. destruct (poll_loop_extends _ _ _ _ E) as (x & ->). split.
  - destruct (rstrip_prefix (fun c => (c =? ",")%char || (c =? " ")%char)
                "Poll:" (" " ++ x) ":"%char eq_refl eq_refl) as (y & Hy).
    change ("Poll: " ++ x) with ("Poll:" ++ " " ++ x). rewrite Hy. destruct y; reflexivity.
  - intros c Hc. exact (rstrip_last _ _ _ Hc).
Qed.

(** X11.  A poll summary, when [_get_poll_content] returns one, starts with
    [Poll:] and ends with neither a comma nor a space. *)
Theorem X11_poll_summary_shape :
  forall rt post s,
    _get_poll_content rt post = Return (Some s) ->
    starts_with "Poll:" s = true
    /\ forall c, last_char s = Some c -> comma_or_space c = false.
Proof. exact poll_content_shape. Qed.

Lemma X11_poll_summary_shape_witness :
  starts_with "Poll:" "Poll: A, B" = true
  /\ forall c, last_char "Poll: A, B" = Some c -> comma_or_space c = false.
Proof.
  apply (X11_poll_summary_shape example_runtime poll_trailing_space).
  reflexivity.
Defined.

Lemma append_empty_r : forall s : string, s ++ "" = s.
Proof. induction s; simpl; congruence. Qed.

Lemma last_char_append :
  forall a b, b <> "" -> last_char (a ++ b) = last_char b.
Proof.
  intros a b Hb. induction a as [|c a IH]; [reflexivity|].
  cbn [append last_char]. rewrite IH.
  destruct (a ++ b) eqn:E; [|reflexivity].
  destruct a; [simpl in E; congruence | discriminate E].
Qed.

Lemma last_char_some_nonempty :
  forall s c, last_char s = Some c -> s <> "".
Proof. intros s c H ->. discriminate H. Qed.

Lemma last_char_join :
  forall labels c,
    last_char (List.last labels "") = Some c ->
    last_char (join ", " labels) = Some c.
Proof.
  induction labels as [|l ls IH]; intros c H; [discriminate H|].
  destruct ls as [|l2 ls]; [exact H|].
  change (join ", " (l :: l2 :: ls)) with (l ++ ", " ++ join ", " (l2 :: ls)).
  change (List.last (l :: l2 :: ls) "") with (List.last (l2 :: ls) "") in H.
  specialize (IH c H).
  pose proof (last_char_some_nonempty _ _ IH) as Hne.
  rewrite last_char_append.
  - rewrite last_char_append; assumption.
  - destruct (join ", " (l2 :: ls)); [congruence | discriminate].
Qed.

Lemma with_separators_join :
  forall labels, labels <> [] -> with_separators labels = join ", " labels ++ ", ".
Proof.
  induction labels as [|l ls IH]; intros H; [congruence|].
  destruct ls as [|l2 ls].
  - reflexivity.
  - change (join ", " (l :: l2 :: ls)) with (l ++ ", " ++ join ", " (l2 :: ls)).
    cbn [with_separators] in *. rewrite IH by discriminate.
    rewrite !append_assoc_s. reflexivity.
Qed.

Lemma poll_choice_label :
  forall rt poll_text choice label,
    choice_label rt choice label ->
    poll_choice rt poll_text choice = Return (poll_text ++ label ++ ", ").
Proof.
  intros rt poll_text choice label (d & run & runs & t & -> & Hp & Ht & Hv).
  unfold poll_choice. cbn [lookup_path] in Hp. cbn [get_method].
  destruct (dict_get "text" d) as [x|]; [|discriminate Hp]. cbn [bind].
  destruct x as [| | | | | |d']; try discriminate Hp. cbn [get_method].
  destruct (dict_get "runs" d') as [y|]; [|discriminate Hp]. cbn [bind].
  injection Hp as ->.
  change (getitem (JList (JDict run :: runs)) (KInt 0)) with (Return (JDict run)).
  cbn [bind get_method]. rewrite Ht. cbn [bind].
  destruct Hv as [(Hv & ->) | (f & Hv & ->)]; rewrite Hv; cbn [bind gt_zero].
  - reflexivity.
  - destruct (float_gt_zero rt f); cbn [py_str percentage_str]; [|reflexivity].
    rewrite !append_assoc_s. reflexivity.
Qed.

Lemma poll_loop_labels :
  forall rt choices labels poll_text,
    Forall2 (choice_label rt) choices labels ->
    poll_loop rt poll_text choices = Return (poll_text ++ with_separators labels).
Proof.
  intros rt choices labels poll_text H. revert poll_text.
  induction H as [|c l cs ls Hc _ IH]; intros poll_text.
  - cbn. rewrite append_empty_r. reflexivity.
  - cbn [poll_loop with_separators]. rewrite (poll_choice_label _ _ _ _ Hc).
    cbn [bind]. rewrite IH. rewrite !append_assoc_s. reflexivity.
Qed.

(** X12.  For a poll whose choices each show the text of their first run,
    followed by the percentage when the vote ratio is a positive float, the
    summary is [Poll: ] and the labels joined with a comma and a space,
    provided the last label ends with neither of them; a poll without choices,
    or with an empty list of them, has no summary. *)
Theorem X12_poll_of_labelled_choices :
  forall rt post poll,
    lookup_path poll_path post = Some (JDict poll) ->
    (forall choices labels c,
        dict_get "choices" poll = Some (JList choices) ->
        Forall2 (choice_label rt) choices labels ->
        last_char (List.last labels "") = Some c ->
        comma_or_space c = false ->
        _get_poll_content rt post = Return (Some ("Poll: " ++ join ", " labels)))
    /\ (dict_get "choices" poll = None \/ dict_get "choices" poll = Some (JList []) ->
        _get_poll_content rt post = Return None).
Proof.
  intros rt post poll Hp. unfold _get_poll_content, poll_path in *.
  walk Hp. walk Hp. injection Hp as ->. cbn [get_method]. split.
  - intros choices labels c Hc Hl Hlast Hcs. rewrite Hc. cbn [bind].
    assert (Hne : labels <> []) by (intros ->; discriminate Hlast).
    destruct choices as [|ch chs]; [inversion Hl; congruence|].
    cbn [truthy negb iterate bind].
    rewrite (poll_loop_labels _ _ _ _ Hl). cbn [bind catch].
    rewrite (with_separators_join _ Hne).
    rewrite <- append_assoc_s.
    rewrite (rstrip_append_stripped _ ("Poll: " ++ join ", " labels) ", " c).
    + reflexivity.
    + rewrite last_char_append.
      * exact (last_char_join _ _ Hlast).
      * exact (last_char_some_nonempty _ _ (last_char_join _ _ Hlast)).
    + exact Hcs.
    + reflexivity.
  - intros [-> | ->]; reflexivity.
Qed.

Lemma X12_poll_of_labelled_choices_witness :
  _get_poll_content two_ratio_runtime poll_two_ratios
  = Return (Some "Poll: A: 40.0%, B: 60.0%").
Proof.
  apply (proj1 (X12_poll_of_labelled_choices two_ratio_runtime poll_two_ratios
                  [("choices",
                    JList
                      [JDict [("text", JDict [("runs", JList [JDict [("text", JStr "A")]])]);
                              ("voteRatio", JFloat (FloatLit "0.4"))];
                       JDict [("text", JDict [("runs", JList [JDict [("text", JStr "B")]])]);
                              ("voteRatio", JFloat (FloatLit "0.6"))]])]
                  ltac:(vm_compute; reflexivity))
           [JDict [("text", JDict [("runs", JList [JDict [("text", JStr "A")]])]);
                   ("voteRatio", JFloat (FloatLit "0.4"))];
            JDict [("text", JDict [("runs", JList [JDict [("text", JStr "B")]])]);
                   ("voteRatio", JFloat (FloatLit "0.6"))]]
           ["A: 40.0%"; "B: 60.0%"] "%"%char).
  - reflexivity.
  - repeat constructor.
    + eexists _, _, _, "A". repeat split; try reflexivity.
      right. eexists. split; reflexivity.
    + eexists _, _, _, "B". repeat split; try reflexivity.
      right. eexists. split; reflexivity.
  - reflexivity.
  - reflexivity.
Defined.

(** ** The record of a post *)

Lemma starts_with_append : forall p x, starts_with p (p ++ x) = true.
Proof.
  unfold starts_with. induction p as [|c p IH]; intros x.
  - destruct x; reflexivity.
  - cbn [append prefix]. destruct (ascii_dec c c); [apply IH | congruence].
Qed.

Lemma image_links_nonempty :
  forall post links, _get_image_links post = Return (Some links) -> links <> [].
Proof.
  intros post links H ->. revert H.
  unfold _get_image_links, try_single_image, try_multi_image.
  destruct (getitem post (KStr "backstageAttachment")) as [a|e]; cbn [bind catch].
  - destruct (last_thumbnail_url a) as [u|e]; cbn [bind catch]; [discriminate|].
    destruct (is_KeyError e); [|discriminate].
    destruct (getitem a (KStr "postMultiImageRenderer")) as [r|e1]; cbn [bind catch].
    + destruct (getitem r (KStr "images")) as [i|e2]; cbn [bind catch].
      * destruct (iterate i) as [items|e3]; cbn [bind catch].
        -- destruct (mapM last_thumbnail_url items) as [[|l ls]|e4];
             cbn [bind catch]; try discriminate.
           destruct (is_KeyError e4); discriminate.
        -- destruct (is_KeyError e3); discriminate.
      * destruct (is_KeyError e2); discriminate.
    + destruct (is_KeyError e1); discriminate.
  - destruct (is_KeyError e); cbn [catch]; discriminate.
Qed.

(** X18.  A record that [_parse_post_data] returns has exactly the eight keys
    of [record_keys], in that order; it holds the post URL, the post id of the
    loader and the time of the call; its text is a string; its video link is
    [None] or a watch URL, its image links [None] or a non-empty list, its
    poll [None] or a text that starts with [Poll:]; and its [time_since] is
    what the timestamp path of the post holds. *)
Theorem X18_record_shape :
  forall rt utcnow self post_json post_url post_data,
    _parse_post_data rt utcnow self post_json post_url = Return post_data ->
    map fst post_data = record_keys
    /\ dict_get "post_link" post_data = Some (JStr post_url)
    /\ dict_get "post_id" post_data = Some (JStr (post_id self))
    /\ dict_get "time_of_download" post_data = Some (JStr utcnow)
    /\ (exists text, dict_get "text_content" post_data = Some (JStr text))
    /\ (dict_get "video_link" post_data = Some JNull
        \/ exists link,
             dict_get "video_link" post_data = Some (JStr link)
             /\ starts_with "https://www.youtube.com/watch?v=" link = true)
    /\ (dict_get "image_links" post_data = Some JNull
        \/ exists link links,
             dict_get "image_links" post_data = Some (JList (link :: links)))
    /\ (dict_get "poll_content" post_data = Some JNull
        \/ exists summary,
             dict_get "poll_content" post_data = Some (JStr summary)
             /\ starts_with "Poll:" summary = true)
    /\ dict_get "time_since" post_data = published_time_path post_json.
Proof.
  intros rt utcnow self post_json post_url post_data H.
  destruct (parse_post_data_inv _ _ _ _ _ _ H)
    as (text & video & images & poll & t & Ht & Hv & Hi & Hp & Hts & ->).
  split; [reflexivity|]. split; [reflexivity|]. split; [reflexivity|].
  split; [reflexivity|]. split; [eexists; reflexivity|].
  split; [|split; [|split]].
  - destruct video as [link|]; [right|left; reflexivity].
    exists link. split; [reflexivity|].
    apply (proj1 (video_link_cases rt post_json)) in Hv.
    destruct Hv as (id & _ & ->). apply starts_with_append.
  - destruct images as [[|l ls]|]; [|right|left; reflexivity].
    + exfalso. exact (image_links_nonempty _ _ Hi eq_refl).
    + exists l, ls. reflexivity.
  - destruct poll as [s|]; [right|left; reflexivity].
    exists s. split; [reflexivity|]. exact (proj1 (poll_content_shape _ _ _ Hp)).
  - cbn. symmetry. exact (published_time_returns _ _ Hts).
Qed.

Lemma X18_record_shape_witness :
  map fst (plain_record example_loader example_url "hi" example_time
             (JStr "1 day ago")) = record_keys
  /\ dict_get "time_since"
       (plain_record example_loader example_url "hi" example_time (JStr "1 day ago"))
     = published_time_path text_only_post.
Proof.
  destruct (X18_record_shape example_runtime example_time example_loader
              text_only_post example_url
              (plain_record example_loader example_url "hi" example_time
                 (JStr "1 day ago")) eq_refl)
    as (H1 & _ & _ & _ & _ & _ & _ & _ & H2).
  split; [exact H1 | exact H2].
Defined.

(** ** The text of a post *)

Lemma mapM_forall2 :
  forall (A B : Type) (f : A -> result B) l l',
    Forall2 (fun a b => f a = Return b) l l' -> mapM f l = Return l'.
Proof.
  intros A B f l l' H. induction H as [|a b l l' Hab _ IH]; [reflexivity|].
  cbn [mapM]. rewrite Hab. cbn [bind]. rewrite IH. reflexivity.
Qed.

Lemma str_join_empty_strings :
  forall ts, str_join_empty (map JStr ts) = Return (String.concat "" ts).
Proof.
  induction ts as [|a ts IH]; [reflexivity|].
  cbn [map str_join_empty]. rewrite IH. cbn [bind].
  destruct ts as [|b ts]; cbn [String.concat].
  - rewrite append_empty_r. reflexivity.
  - reflexivity.
Qed.

Lemma text_of_runs_strings :
  forall rt post key runs ts,
    lookup_path [key; "runs"] post = Some (JList runs) ->
    Forall2 (fun run t => _handle_text_content rt run = Return (JStr t)) runs ts ->
    text_of_runs rt post key = Return (Some (String.concat "" ts)).
Proof.
  intros rt post key runs ts Hp Hr. unfold text_of_runs.
  walk Hp. walk Hp. injection Hp as ->. cbn [iterate bind].
  rewrite (mapM_forall2 _ _ _ runs (map JStr ts)).
  - cbn [bind]. rewrite str_join_empty_strings. reflexivity.
  - clear - Hr. induction Hr; constructor; assumption.
Qed.

Lemma handle_plain_run :
  forall rt run t, plain_run run t -> _handle_text_content rt run = Return (JStr t).
Proof.
  intros rt run t (d & -> & Hn & Ht). unfold _handle_text_content.
  cbn [getitem]. rewrite Hn. cbn [bind catch is_KeyError_or_IndexError get_method].
  unfold get_or in Ht. destruct (dict_get "text" d); rewrite Ht; reflexivity.
Qed.

(** X10.  The text of a post is the concatenation, in order, of what its runs
    contribute, read from contentText and, when that structure is missing,
    from content; a run of plain text contributes its text, and nothing when
    it has none. *)
Theorem X10_text_is_concatenation_of_runs :
  forall rt post runs ts,
    lookup_path content_text_path post = Some (JList runs)
    \/ (path_missing content_text_path post = true
        /\ lookup_path content_path post = Some (JList runs)) ->
    Forall2 (fun run t =>
               plain_run run t \/ _handle_text_content rt run = Return (JStr t))
      runs ts ->
    _get_text_content rt post = Return (Some (String.concat "" ts)).
Proof.
  intros rt post runs ts Hp Hr. unfold _get_text_content.
  assert (Hr' : Forall2 (fun run t => _handle_text_content rt run = Return (JStr t))
                  runs ts).
  { clear - Hr. induction Hr as [|run t runs ts [H|H] _ IH]; constructor;
      try assumption. apply handle_plain_run. exact H. }
  destruct Hp as [Hp | (Hm & Hp)].
  - rewrite (text_of_runs_strings _ _ _ _ _ Hp Hr'). reflexivity.
  - destruct (text_of_runs_missing rt _ _ Hm) as (k & ->). cbn [catch is_KeyError].
    rewrite (text_of_runs_strings _ _ _ _ _ Hp Hr'). reflexivity.
Qed.

Lemma X10_text_is_concatenation_of_runs_witness :
  _get_text_content example_runtime two_run_repost = Return (Some "Hello world").
Proof.
  apply (X10_text_is_concatenation_of_runs example_runtime two_run_repost
           [JDict [("text", JStr "Hello ")]; JDict []; JDict [("text", JStr "world")]]
           ["Hello "; ""; "world"]).
  - right. split; reflexivity.
  - repeat constructor; left; eexists; repeat split; reflexivity.
Defined.

(** ** The URL validator *)

Lemma str_forall_chars :
  forall p s, str_forall p s = true <-> forall c, In c (chars s) -> p c = true.
Proof.
  intros p s. induction s as [|a s IH]; cbn [str_forall chars list_ascii_of_string].
  - split; [intros _ c [] | reflexivity].
  - rewrite andb_true_iff, IH. split.
    + intros (Ha & Hs) c [<- | Hc]; [exact Ha | exact (Hs c Hc)].
    + intros H. split; [apply H; left; reflexivity | intros c Hc; apply H; right; exact Hc].
Qed.

Lemma chars_span :
  forall p s c,
    (In c (chars (fst (span p s))) -> In c (chars s) /\ p c = true)
    /\ (In c (chars (snd (span p s))) -> In c (chars s)).
Proof.
  intros p s c. induction s as [|a s (IH1 & IH2)]; cbn [span].
  - split; intros [].
  - destruct (p a) eqn:Ea.
    + destruct (span p s) as [x y]. cbn [fst snd] in *. split.
      * intros [<- | H]; [split; [left; reflexivity | exact Ea]|].
        destruct (IH1 H). split; [right|]; assumption.
      * intros H. right. exact (IH2 H).
    + cbn [fst snd]. split; [intros [] | exact (fun H => H)].
Qed.

Lemma chars_drop :
  forall n s c, In c (chars (str_drop n s)) -> In c (chars s).
Proof.
  induction n as [|n IH]; intros [|a s] c H; cbn [str_drop] in H; try exact H.
  right. exact (IH _ _ H).
Qed.

Lemma chars_filter :
  forall p s c, In c (chars (str_filter p s)) -> In c (chars s) /\ p c = true.
Proof.
  intros p s c. induction s as [|a s IH]; cbn [str_filter]; [intros []|].
  destruct (p a) eqn:Ea.
  - intros [<- | H]; [split; [left; reflexivity | exact Ea]|].
    destruct (IH H). split; [right|]; assumption.
  - intros H. destruct (IH H). split; [right|]; assumption.
Qed.

Lemma chars_split_once :
  forall sep s c,
    (In c (chars (fst (split_once sep s))) -> In c (chars s) /\ c <> sep)
    /\ (In c (chars (snd (split_once sep s))) -> In c (chars s)).
Proof.
  intros sep s c. unfold split_once.
  pose proof (chars_span (fun x => negb (x =? sep)%char) s c) as (H1 & H2).
  destruct (span (fun x => negb (x =? sep)%char) s) as [a [|b r]]; cbn [fst snd] in *.
  - split; [|intros []]. intros H. destruct (H1 H) as (Hc & Hn). split; [exact Hc|].
    intros ->. rewrite Ascii.eqb_refl in Hn. discriminate Hn.
  - split.
    + intros H. destruct (H1 H) as (Hc & Hn). split; [exact Hc|].
      intros ->. rewrite Ascii.eqb_refl in Hn. discriminate Hn.
    + intros H. apply H2. right. exact H.
Qed.

Lemma split_on_nonempty : forall sep s, split_on sep s <> [].
Proof.
  intros sep [|a s]; cbn [split_on]; [discriminate|].
  destruct (a =? sep)%char; [discriminate|].
  destruct (split_on sep s); discriminate.
Qed.

Lemma chars_split_on :
  forall sep s seg c,
    In seg (split_on sep s) -> In c (chars seg) -> In c (chars s) /\ c <> sep.
Proof.
  intros sep s. induction s as [|a s IH]; intros seg c Hs Hc; cbn [split_on] in Hs.
  - destruct Hs as [<- | []]. destruct Hc.
  - destruct (a =? sep)%char eqn:Ea.
    + destruct Hs as [<- | Hs]; [destruct Hc|].
      destruct (IH _ _ Hs Hc). split; [right|]; assumption.
    + destruct (split_on sep s) as [|x l] eqn:E.
      * destruct Hs as [<- | []]. destruct Hc as [<- | []].
        split; [left; reflexivity|]. intros ->. rewrite Ascii.eqb_refl in Ea.
        discriminate Ea.
      * destruct Hs as [<- | Hs].
        -- destruct Hc as [<- | Hc].
           ++ split; [left; reflexivity|]. intros ->. rewrite Ascii.eqb_refl in Ea.
              discriminate Ea.
           ++ destruct (IH x c (or_introl eq_refl) Hc). split; [right|]; assumption.
        -- destruct (IH seg c (or_intror Hs) Hc). split; [right|]; assumption.
Qed.

Lemma last_in : forall (A : Type) (l : list A) d, l <> [] -> In (List.last l d) l.
Proof.
  intros A l d. induction l as [|a l IH]; intros H; [congruence|].
  destruct l as [|b l]; [left; reflexivity|]. right. apply IH. discriminate.
Qed.

(** The path that [urlsplit] returns holds no ['?'], no ['#'] and none of the
    characters that are removed from a URL. *)
Lemma urlsplit_path_chars :
  forall url sp c,
    urlsplit url = Return sp -> In c (chars (path sp)) ->
    c <> "?"%char /\ c <> "#"%char /\ is_unsafe_url_byte c = false.
Proof.
  intros url sp c H Hc. unfold urlsplit in H.
  set (u0 := str_filter (fun c => negb (is_unsafe_url_byte c))
               (snd (span is_c0_or_space url))) in H.
  assert (H0 : forall x, In x (chars u0) -> is_unsafe_url_byte x = false).
  { intros x Hx. apply chars_filter in Hx. destruct Hx as (_ & Hx).
    apply negb_true_iff. exact Hx. }
  destruct (let '(before, _) := span (fun c => negb (c =? ":")%char) u0 in
            match u0 with
            | String c0 _ =>
                if str_contains ":" u0 && negb (String.eqb before "")
                   && is_ascii_char c0 && is_alpha c0 && str_forall is_scheme_char before
                then (str_map lower_char before, snd (split_once ":" u0))
                else ("", u0)
            | EmptyString => ("", u0)
            end) as [sch u1] eqn:E1.
  assert (H1 : forall x, In x (chars u1) -> In x (chars u0)).
  { destruct (span (fun c => negb (c =? ":")%char) u0) as [before rest].
    destruct u0 as [|c0 r0] eqn:Eu; [injection E1 as _ <-; auto|].
    destruct (str_contains ":" (String c0 r0) && negb (String.eqb before "")
              && is_ascii_char c0 && is_alpha c0 && str_forall is_scheme_char before);
      injection E1 as _ <-; [|auto].
    intros x Hx. exact (proj2 (chars_split_once _ _ _) Hx). }
  destruct (if starts_with "//" u1
            then span (fun c => negb ((c =? "/")%char || (c =? "?")%char
                                        || (c =? "#")%char)) (str_drop 2 u1)
            else ("", u1)) as [nl u2] eqn:E2.
  assert (H2 : forall x, In x (chars u2) -> In x (chars u1)).
  { destruct (starts_with "//" u1); [|injection E2 as _ <-; auto].
    intros x Hx.
    pose proof (proj2 (chars_span (fun c => negb ((c =? "/")%char || (c =? "?")%char
                                                     || (c =? "#")%char))
                         (str_drop 2 u1) x)) as Hs.
    rewrite E2 in Hs. cbn [snd] in Hs. exact (chars_drop _ _ _ (Hs Hx)). }
  destruct (xorb (str_contains "[" nl) (str_contains "]" nl)); [discriminate H|].
  destruct (split_once "#" u2) as [u3 frag] eqn:E3.
  destruct (split_once "?" u3) as [u4 query] eqn:E4.
  injection H as <-. cbn [path] in Hc.
  pose proof (proj1 (chars_split_once "?" u3 c)) as Hq. rewrite E4 in Hq.
  destruct (Hq Hc) as (Hc3 & Hnq).
  pose proof (proj1 (chars_split_once "#" u2 c)) as Hf. rewrite E3 in Hf.
  destruct (Hf Hc3) as (Hc2 & Hnf).
  split; [exact Hnq|]. split; [exact Hnf|]. apply H0, H1, H2, Hc2.
Qed.

Lemma chars_app : forall a b, chars (a ++ b) = (chars a ++ chars b)%list.
Proof.
  unfold chars. induction a as [|c a IH]; intros b; [reflexivity|].
  cbn [append list_ascii_of_string]. rewrite IH. reflexivity.
Qed.

Lemma split_on_no_sep :
  forall sep s, (forall c, In c (chars s) -> c <> sep) -> split_on sep s = [s].
Proof.
  intros sep s. induction s as [|a s IH]; intros H; [reflexivity|].
  cbn [split_on].
  destruct (Ascii.eqb_spec a sep) as [->|_].
  - exfalso. apply (H sep); [left|]; reflexivity.
  - rewrite IH; [reflexivity|]. intros c Hc. apply H. right. exact Hc.
Qed.

Lemma split_on_two :
  forall sep h t, exists a b l, split_on sep (h ++ String sep t) = a :: b :: l.
Proof.
  intros sep h t. induction h as [|x h (a & b & l & IH)]; cbn [append split_on].
  - rewrite Ascii.eqb_refl.
    destruct (split_on sep t) as [|b l] eqn:E; [destruct (split_on_nonempty _ _ E)|].
    eauto.
  - rewrite IH. destruct (x =? sep)%char; eauto.
Qed.

Lemma split_on_last :
  forall sep h t,
    (forall c, In c (chars t) -> c <> sep) ->
    List.last (split_on sep (h ++ String sep t)) "" = t.
Proof.
  intros sep h t Ht. induction h as [|x h IH]; cbn [append split_on].
  - rewrite Ascii.eqb_refl, (split_on_no_sep _ _ Ht). reflexivity.
  - destruct (split_on_two sep h t) as (a & b & l & E). rewrite E in *.
    destruct (x =? sep)%char; exact IH.
Qed.

Lemma last_slash :
  forall sep s,
    (forall c, In c (chars s) -> c <> sep)
    \/ exists h t, s = h ++ String sep t /\ forall c, In c (chars t) -> c <> sep.
Proof.
  intros sep s. induction s as [|a s [IH | (h & t & -> & Ht)]].
  - left. intros c [].
  - destruct (Ascii.eqb_spec a sep) as [->|Hne].
    + right. exists "", s. split; [reflexivity | exact IH].
    + left. intros c [<- | Hc]; [exact Hne | exact (IH c Hc)].
  - right. exists (String a h), t. split; [reflexivity | exact Ht].
Qed.

Lemma substring_zero : forall s, substring 0 0 s = "".
Proof. intros [|c s]; reflexivity. Qed.

(** The last segment of the path that [_splitparams] returns is the last
    segment of the path it was given, cut at its first [';']. *)
Lemma splitparams_last_segment :
  forall p c,
    In c (chars (List.last (split_on "/" (fst (_splitparams p))) "")) ->
    In c (chars p) /\ c <> ";"%char /\ c <> "/"%char.
Proof.
  intros p c. unfold _splitparams.
  destruct (last_slash "/" p) as [Hp | (h & t & -> & Ht)].
  - rewrite (split_on_no_sep _ _ Hp). cbn [List.last].
    rewrite Nat.sub_diag, substring_zero.
    pose proof (chars_split_once ";" p) as Hs.
    destruct (split_once ";" p) as [seg ps]. cbn [fst snd append] in *.
    assert (Hseg : forall x, In x (chars seg) -> x <> "/"%char).
    { intros x Hx. apply Hp. exact (proj1 (proj1 (Hs x) Hx)). }
    rewrite (split_on_no_sep _ _ Hseg). cbn [List.last]. intros Hc.
    destruct (proj1 (Hs c) Hc). repeat split; auto.
  - rewrite (split_on_last _ _ _ Ht).
    replace (String.length (h ++ String "/" t) - String.length t)%nat
      with (String.length (h ++ "/")).
    2:{ rewrite !length_append_s. cbn [String.length]. lia. }
    assert (Hsub : substring 0 (String.length (h ++ "/")) (h ++ String "/" t)
                   = h ++ "/").
    { replace (h ++ String "/" t) with ((h ++ "/") ++ t)
        by (rewrite append_assoc_s; reflexivity).
      apply substring_prefix. }
    rewrite Hsub.
    pose proof (chars_split_once ";" t) as Hs.
    destruct (split_once ";" t) as [seg ps]. cbn [fst snd] in *.
    assert (Hseg : forall x, In x (chars seg) -> x <> "/"%char).
    { intros x Hx. apply Ht. exact (proj1 (proj1 (Hs x) Hx)). }
    rewrite append_assoc_s. cbn [append].
    rewrite (split_on_last _ _ _ Hseg). intros Hc.
    destruct (proj1 (Hs c) Hc) as (Hin & Hne). split; [|split; auto].
    rewrite chars_app. apply in_or_app. right. right. exact Hin.
Qed.

Lemma str_contains_char_false :
  forall c s, str_contains (String c "") s = false ->
              forall x, In x (chars s) -> x <> c.
Proof.
  intros c s. unfold str_contains. induction s as [|a s IH]; intros H x Hx;
    [destruct Hx|].
  cbn [index prefix] in H.
  destruct (ascii_dec c a) as [<-|Hne].
  - destruct s; discriminate H.
  - destruct (index 0 (String c "") s) as [n|] eqn:E; [discriminate H|].
    destruct Hx as [<- | Hx]; [congruence|]. exact (IH eq_refl x Hx).
Qed.

Lemma allowed_scheme_uses_params :
  forall s, str_in s ALLOWED_SCHEMES = true -> str_in s uses_params = true.
Proof.
  intros s H. unfold str_in, ALLOWED_SCHEMES in H. cbn [existsb] in H.
  rewrite orb_false_r in H. apply orb_true_iff in H.
  destruct H as [H | H]; apply String.eqb_eq in H; subst s; reflexivity.
Qed.

Lemma clean_id_chars :
  forall id,
    (forall c, In c (chars id) ->
               c <> "/"%char /\ c <> "?"%char /\ c <> "#"%char /\ c <> ";"%char
               /\ is_unsafe_url_byte c = false) ->
    clean_id id = true.
Proof.
  intros id H. unfold clean_id. apply str_forall_chars. intros c Hc.
  destruct (H c Hc) as (H1 & H2 & H3 & H4 & H5). unfold is_url_delimiter.
  rewrite H5.
  destruct (Ascii.eqb_spec c "/"); [congruence|].
  destruct (Ascii.eqb_spec c "?"); [congruence|].
  destruct (Ascii.eqb_spec c "#"); [congruence|].
  destruct (Ascii.eqb_spec c ";"); [congruence|]. reflexivity.
Qed.

Lemma parse_url_clean_id :
  forall url id, _parse_community_post_url url = Return id -> clean_id id = true.
Proof.
  intros url id H. unfold _parse_community_post_url, urlparse in H.
  destruct (urlsplit url) as [sp|] eqn:Es; [|discriminate H]. cbn [bind] in H.
  pose proof (fun c => urlsplit_path_chars url sp c Es) as Hpath.
  apply clean_id_chars. intros c Hc.
  destruct (str_in (scheme sp) uses_params && str_contains ";" (path sp)) eqn:Eb.
  - pose proof (splitparams_last_segment (path sp) c) as Hl.
    destruct (_splitparams (path sp)) as [url' ps]. cbn [bind scheme netloc path] in H.
    destruct (negb (str_in (scheme sp) ALLOWED_SCHEMES)); [discriminate H|].
    destruct (negb (str_in (netloc sp) ALLOWED_NETLOCS)); [discriminate H|].
    destruct (negb (str_contains "/post/" url')); [discriminate H|].
    injection H as <-. cbn [fst] in Hl. destruct (Hl Hc) as (Hin & H1 & H2).
    destruct (Hpath c Hin) as (H3 & H4 & H5). repeat split; assumption.
  - cbn [bind] in H.
    destruct (str_in (scheme sp) ALLOWED_SCHEMES) eqn:Ea; [|discriminate H].
    rewrite (allowed_scheme_uses_params _ Ea) in Eb. cbn [andb negb] in *.
    destruct (negb (str_in (netloc sp) ALLOWED_NETLOCS)); [discriminate H|].
    destruct (negb (str_contains "/post/" (path sp))); [discriminate H|].
    injection H as <-.
    destruct (chars_split_on "/" (path sp) _ c
                (last_in _ _ "" (split_on_nonempty _ _)) Hc) as (Hin & H2).
    destruct (Hpath c Hin) as (H3 & H4 & H5).
    repeat split; try assumption.
    exact (str_contains_char_false _ _ Eb c Hin).
Qed.

Lemma parse_url_value_error :
  forall url e, _parse_community_post_url url = Raise e -> exists msg, e = ValueError msg.
Proof.
  intros url e H. unfold _parse_community_post_url, urlparse in H.
  destruct (urlsplit url) as [sp|e0] eqn:Es.
  - cbn [bind] in H.
    destruct (str_in (scheme sp) uses_params && str_contains ";" (path sp)).
    + destruct (_splitparams (path sp)) as [url' ps]. cbn [bind scheme netloc path] in H.
      destruct (negb (str_in (scheme sp) ALLOWED_SCHEMES));
        [injection H as <-; eauto|].
      destruct (negb (str_in (netloc sp) ALLOWED_NETLOCS));
        [injection H as <-; eauto|].
      destruct (negb (str_contains "/post/" url')); [injection H as <-; eauto|].
      discriminate H.
    + cbn [bind] in H.
      destruct (negb (str_in (scheme sp) ALLOWED_SCHEMES));
        [injection H as <-; eauto|].
      destruct (negb (str_in (netloc sp) ALLOWED_NETLOCS));
        [injection H as <-; eauto|].
      destruct (negb (str_contains "/post/" (path sp))); [injection H as <-; eauto|].
      discriminate H.
  - cbn [bind] in H. injection H as <-. unfold urlsplit in Es.
    repeat match type of Es with
           | context [let '(_, _) := ?x in _] => destruct x
           | context [match ?x with _ => _ end] => destruct x
           | context [if ?x then _ else _] => destruct x
           end; try discriminate Es; injection Es as <-; eauto.
Qed.

(** X4.  Whatever the URL, [_parse_community_post_url] either returns an id
    that holds no ['/'], ['?'], ['#'], [';'], tab, carriage return or line
    feed, or raises a [ValueError]. *)
Theorem X4_url_validator_outcomes :
  forall url,
    match _parse_community_post_url url with
    | Return id => clean_id id = true
    | Raise e => exists msg, e = ValueError msg
    end.
Proof.
  intros url. destruct (_parse_community_post_url url) as [id|e] eqn:E.
  - exact (parse_url_clean_id _ _ E).
  - exact (parse_url_value_error _ _ E).
Qed.

Lemma clean_id_inv :
  forall id c,
    clean_id id = true -> In c (chars id) ->
    c <> "/"%char /\ c <> "?"%char /\ c <> "#"%char /\ c <> ";"%char
    /\ is_unsafe_url_byte c = false.
Proof.
  intros id c H Hc. unfold clean_id in H.
  pose proof (proj1 (str_forall_chars _ _) H c Hc) as Hd.
  apply negb_true_iff in Hd. unfold is_url_delimiter in Hd.
  repeat (apply orb_false_iff in Hd; destruct Hd as (Hd & ?)).
  repeat split; try assumption;
    intros ->; discriminate.
Qed.

Lemma span_app_stop :
  forall p a c r,
    str_forall p a = true -> p c = false ->
    span p (a ++ String c r) = (a, String c r).
Proof.
  intros p a c r. induction a as [|x a IH]; intros Ha Hc; cbn [append span].
  - rewrite Hc. reflexivity.
  - cbn [str_forall] in Ha. apply andb_true_iff in Ha. destruct Ha as (Hx & Ha).
    rewrite Hx, (IH Ha Hc). reflexivity.
Qed.

Lemma str_filter_id :
  forall p s, str_forall p s = true -> str_filter p s = s.
Proof.
  intros p s. induction s as [|x s IH]; intros H; [reflexivity|].
  cbn [str_forall] in H. apply andb_true_iff in H. destruct H as (Hx & Hs).
  cbn [str_filter]. rewrite Hx, (IH Hs). reflexivity.
Qed.

Lemma str_forall_app :
  forall p a b, str_forall p (a ++ b) = str_forall p a && str_forall p b.
Proof.
  intros p a b. induction a as [|x a IH]; [reflexivity|].
  cbn [append str_forall]. rewrite IH. apply andb_assoc.
Qed.

Lemma str_forall_impl :
  forall (p q : ascii -> bool) s,
    (forall c, p c = true -> q c = true) ->
    str_forall p s = true -> str_forall q s = true.
Proof.
  intros p q s Hpq H. apply str_forall_chars. intros c Hc.
  apply Hpq. exact (proj1 (str_forall_chars _ _) H c Hc).
Qed.

Lemma str_contains_char_true :
  forall c s, In c (chars s) -> str_contains (String c "") s = true.
Proof.
  intros c s. unfold str_contains. induction s as [|a s IH]; intros H; [destruct H|].
  cbn [index prefix]. destruct (ascii_dec c a) as [<-|Hne].
  - destruct s; reflexivity.
  - destruct H as [-> | H]; [congruence|].
    specialize (IH H). destruct (index 0 (String c "") s); [reflexivity | discriminate IH].
Qed.

Lemma str_contains_char_none :
  forall c s, (forall x, In x (chars s) -> x <> c) -> str_contains (String c "") s = false.
Proof.
  intros c s H. destruct (str_contains (String c "") s) eqn:E; [|reflexivity].
  exfalso. unfold str_contains in E.
  destruct (index 0 (String c "") s) as [n|] eqn:Ei; [|discriminate E].
  apply index_correct1 in Ei. cbn [String.length] in Ei.
  clear E. revert s H Ei. induction n as [|n IH]; intros [|a s] H Ei; simpl in Ei;
    try discriminate Ei.
  - injection Ei as -> _. apply (H c); [left|]; reflexivity.
  - apply (IH s); [|exact Ei]. intros x Hx. apply H. right. exact Hx.
Qed.

Lemma str_contains_prefix :
  forall p x, p <> "" -> str_contains p (p ++ x) = true.
Proof.
  intros p x Hp. unfold str_contains.
  destruct p as [|c p]; [congruence|]. cbn [append index].
  change (prefix (String c p) (String c (p ++ x)))
    with (starts_with (String c p) (String c p ++ x)).
  rewrite starts_with_append. reflexivity.
Qed.

(** What a letter is, for [urlsplit]. *)
Lemma alpha_facts :
  forall c,
    is_alpha c = true ->
    is_c0_or_space c = false /\ is_unsafe_url_byte c = false
    /\ (c =? ":")%char = false /\ is_scheme_char c = true /\ is_ascii_char c = true.
Proof.
  intros [b0 b1 b2 b3 b4 b5 b6 b7].
  destruct b0, b1, b2, b3, b4, b5, b6, b7; intros H;
    first [discriminate H | repeat split; reflexivity].
Qed.

Lemma span_app :
  forall p a b,
    str_forall p a = true ->
    span p (a ++ b) = (a ++ fst (span p b), snd (span p b)).
Proof.
  intros p a b. induction a as [|x a IH]; intros Ha; cbn [append].
  - destruct (span p b); reflexivity.
  - cbn [str_forall] in Ha. apply andb_true_iff in Ha. destruct Ha as (Hx & Ha).
    cbn [span]. rewrite Hx, (IH Ha). reflexivity.
Qed.

Lemma str_filter_app :
  forall p a b, str_filter p (a ++ b) = str_filter p a ++ str_filter p b.
Proof.
  intros p a b. induction a as [|x a IH]; [reflexivity|].
  cbn [append str_filter]. rewrite IH. destruct (p x); reflexivity.
Qed.

(** The split of a path that is followed by nothing, by a query or by a
    fragment: the path is returned whatever follows it. *)
Lemma split_path_suffix :
  forall p suffix,
    str_forall (fun c => negb ((c =? "?")%char || (c =? "#")%char)) p = true ->
    suffix = ""
    \/ (exists r, suffix = String "?" r) \/ (exists r, suffix = String "#" r) ->
    exists q f,
      split_once "#" (p ++ suffix) = (p ++ q, f)
      /\ split_once "?" (p ++ q) = (p, match q with String _ r => r | EmptyString => "" end)
      /\ (q = "" \/ exists r, q = String "?" r).
Proof.
  intros p suffix Hp Hs.
  assert (Hq : str_forall (fun x => negb (x =? "?")%char) p = true).
  { apply str_forall_chars. intros c Hc.
    pose proof (proj1 (str_forall_chars _ _) Hp c Hc) as H.
    apply negb_true_iff, orb_false_iff in H. destruct H as (H & _). rewrite H.
    reflexivity. }
  assert (Hf : str_forall (fun x => negb (x =? "#")%char) p = true).
  { apply str_forall_chars. intros c Hc.
    pose proof (proj1 (str_forall_chars _ _) Hp c Hc) as H.
    apply negb_true_iff, orb_false_iff in H. destruct H as (_ & H). rewrite H.
    reflexivity. }
  assert (Hpp : split_once "?" (p ++ "") = (p, "")).
  { unfold split_once. rewrite append_empty_r, (span_all _ _ Hq). reflexivity. }
  destruct Hs as [-> | [(r & ->) | (r & ->)]].
  - exists "", "". split; [|split].
    + unfold split_once. rewrite append_empty_r, (span_all _ _ Hf). reflexivity.
    + exact Hpp.
    + left. reflexivity.
  - unfold split_once at 1. rewrite (span_app _ _ _ Hf). cbn [span].
    change (negb ("?" =? "#")%char) with true. cbv beta iota.
    destruct (span (fun x => negb (x =? "#")%char) r) as [q1 rest] eqn:E.
    cbn [fst snd].
    exists (String "?" q1), (match rest with String _ b => b | EmptyString => "" end).
    split; [destruct rest; reflexivity|]. split.
    + unfold split_once.
      rewrite (span_app_stop _ p "?"%char q1 Hq eq_refl). reflexivity.
    + right. eauto.
  - exists "", r. split; [|split].
    + unfold split_once. rewrite (span_app_stop _ p "#"%char r Hf eq_refl).
      rewrite append_empty_r. reflexivity.
    + exact Hpp.
    + left. reflexivity.
Qed.

(** [urlsplit] on a URL made of a scheme of letters, a host, a path that
    starts with a slash, and nothing, a query or a fragment after it. *)
Lemma urlsplit_scheme_host_path :
  forall sch host rest suffix,
    sch <> "" ->
    str_forall is_alpha sch = true ->
    str_forall (fun c => negb ((c =? "/")%char || (c =? "?")%char || (c =? "#")%char)
                         && negb (is_unsafe_url_byte c)
                         && negb ((c =? "[")%char || (c =? "]")%char)) host = true ->
    str_forall (fun c => negb ((c =? "?")%char || (c =? "#")%char)
                         && negb (is_unsafe_url_byte c)) rest = true ->
    suffix = ""
    \/ (exists r, suffix = String "?" r) \/ (exists r, suffix = String "#" r) ->
    exists q f,
      urlsplit (sch ++ "://" ++ host ++ String "/" rest ++ suffix)
      = Return {| scheme := str_map lower_char sch; netloc := host;
                  path := String "/" rest; params := ""; query := q;
                  fragment := f |}.
Proof.
  intros sch host rest suffix Hne Hs Hh Hr Hsuf.
  pose proof (proj1 (str_forall_chars _ _) Hs) as Hsc.
  pose proof (proj1 (str_forall_chars _ _) Hh) as Hhc.
  pose proof (proj1 (str_forall_chars _ _) Hr) as Hrc.
  set (unsafe_free := fun c => negb (is_unsafe_url_byte c)).
  set (suffix' := str_filter unsafe_free suffix).
  assert (Hsuf' : suffix' = ""
                  \/ (exists r, suffix' = String "?" r)
                  \/ (exists r, suffix' = String "#" r)).
  { unfold suffix'. destruct Hsuf as [-> | [(r & ->) | (r & ->)]];
      [left; reflexivity | right; left | right; right]; cbn; eauto. }
  set (tail := host ++ String "/" rest).
  assert (Htail : str_forall unsafe_free tail = true).
  { unfold tail. rewrite str_forall_app. cbn [str_forall]. apply andb_true_iff. split.
    - apply str_forall_chars. intros c Hc. specialize (Hhc c Hc).
      apply andb_true_iff in Hhc. destruct Hhc as (Hhc & _).
      apply andb_true_iff in Hhc. destruct Hhc as (_ & Hhc). exact Hhc.
    - cbn. apply str_forall_chars. intros c Hc. specialize (Hrc c Hc).
      apply andb_true_iff in Hrc. destruct Hrc as (_ & Hrc). exact Hrc. }
  destruct sch as [|c0 s']; [congruence|].
  assert (Hc0 : is_alpha c0 = true) by (apply Hsc; left; reflexivity).
  destruct (alpha_facts _ Hc0) as (A1 & A2 & A3 & A4 & A5).
  unfold urlsplit.
  replace (String c0 s' ++ "://" ++ host ++ String "/" rest ++ suffix)
    with (String c0 (s' ++ "://" ++ tail ++ suffix)).
  2:{ unfold tail. rewrite (append_assoc_s host). reflexivity. }
  fold unsafe_free.
  set (u := String c0 (s' ++ "://" ++ tail ++ suffix')).
  assert (Eu : u = String c0 s' ++ "://" ++ tail ++ suffix') by reflexivity.
  assert (E0 : snd (span is_c0_or_space (String c0 (s' ++ "://" ++ tail ++ suffix)))
               = String c0 s' ++ "://" ++ tail ++ suffix).
  { cbn [span]. rewrite A1. reflexivity. }
  rewrite E0.
  assert (E1 : str_filter unsafe_free (String c0 s' ++ "://" ++ tail ++ suffix) = u).
  { rewrite Eu, !str_filter_app. fold suffix'.
    rewrite (str_filter_id _ _ Htail).
    rewrite (str_filter_id unsafe_free (String c0 s')).
    - reflexivity.
    - apply (str_forall_impl _ _ _
               (fun c H => f_equal negb (proj1 (proj2 (alpha_facts c H)))) Hs). }
  rewrite E1.
  assert (E2 : span (fun c => negb (c =? ":")%char) u
               = (String c0 s', "://" ++ tail ++ suffix')).
  { rewrite Eu. apply span_app_stop; [|reflexivity].
    apply (str_forall_impl _ _ _
             (fun c H => f_equal negb (proj1 (proj2 (proj2 (alpha_facts c H))))) Hs). }
  rewrite E2.
  assert (E3 : str_contains ":" u = true).
  { apply str_contains_char_true. rewrite Eu, chars_app. apply in_or_app. right.
    left. reflexivity. }
  assert (E4 : str_forall is_scheme_char (String c0 s') = true).
  { apply (str_forall_impl _ _ _
             (fun c H => proj1 (proj2 (proj2 (proj2 (alpha_facts c H))))) Hs). }
  assert (E2s : split_once ":" u = (String c0 s', "//" ++ tail ++ suffix')).
  { unfold split_once. rewrite E2. reflexivity. }
  unfold u at 1. cbv beta iota zeta. fold u.
  rewrite E3, A5, Hc0, E4, E2s.
  change (String.eqb (String c0 s') "") with false.
  cbn [negb andb snd]. rewrite starts_with_append.
  change (str_drop 2 ("//" ++ tail ++ suffix')) with (tail ++ suffix').
  assert (E5 : span (fun c => negb ((c =? "/")%char || (c =? "?")%char
                                      || (c =? "#")%char)) (tail ++ suffix')
               = (host, String "/" rest ++ suffix')).
  { unfold tail. rewrite append_assoc_s.
    change (String "/" rest ++ suffix') with (String "/" (rest ++ suffix')).
    apply span_app_stop; [|reflexivity].
    apply str_forall_chars. intros c Hc. specialize (Hhc c Hc).
    apply andb_true_iff in Hhc. destruct Hhc as (Hhc & _).
    apply andb_true_iff in Hhc. destruct Hhc as (Hhc & _). exact Hhc. }
  rewrite E5.
  assert (Hbr : forall b, b = "["%char \/ b = "]"%char ->
                          str_contains (String b "") host = false).
  { intros b Hb. apply str_contains_char_none. intros x Hx ->.
    specialize (Hhc _ Hx). apply andb_true_iff in Hhc. destruct Hhc as (_ & Hhc).
    destruct Hb as [-> | ->]; discriminate Hhc. }
  rewrite (Hbr "["%char (or_introl eq_refl)), (Hbr "]"%char (or_intror eq_refl)).
  cbn [xorb].
  assert (Hpath : str_forall (fun c => negb ((c =? "?")%char || (c =? "#")%char))
                    (String "/" rest) = true).
  { cbn [str_forall]. apply andb_true_iff. split; [reflexivity|].
    apply str_forall_chars. intros c Hc. specialize (Hrc c Hc).
    apply andb_true_iff in Hrc. destruct Hrc as (Hrc & _). exact Hrc. }
  destruct (split_path_suffix _ _ Hpath Hsuf') as (q & f & Ef & Eq & _).
  rewrite Ef, Eq. eauto.
Qed.

Lemma allowed_netloc_chars :
  forall host,
    str_in host ALLOWED_NETLOCS = true ->
    str_forall (fun c => negb ((c =? "/")%char || (c =? "?")%char || (c =? "#")%char)
                         && negb (is_unsafe_url_byte c)
                         && negb ((c =? "[")%char || (c =? "]")%char)) host = true.
Proof.
  intros host H. unfold str_in, ALLOWED_NETLOCS in H. cbn [existsb] in H.
  repeat (apply orb_true_iff in H; destruct H as [H | H];
          [apply String.eqb_eq in H; subst host; reflexivity|]).
  discriminate H.
Qed.

Lemma post_path_chars :
  forall id,
    clean_id id = true ->
    str_forall (fun c => negb ((c =? "?")%char || (c =? "#")%char)
                         && negb (is_unsafe_url_byte c)) ("post/" ++ id) = true.
Proof.
  intros id H. rewrite str_forall_app. apply andb_true_iff. split; [reflexivity|].
  apply str_forall_chars. intros c Hc.
  destruct (clean_id_inv _ _ H Hc) as (_ & H2 & H3 & _ & H5). rewrite H5.
  destruct (Ascii.eqb_spec c "?"); [congruence|].
  destruct (Ascii.eqb_spec c "#"); [congruence|]. reflexivity.
Qed.

Lemma parse_post_url :
  forall sch host id suffix,
    str_forall is_alpha sch = true ->
    str_in (str_map lower_char sch) ALLOWED_SCHEMES = true ->
    str_in host ALLOWED_NETLOCS = true ->
    clean_id id = true ->
    suffix = ""
    \/ (exists r, suffix = String "?" r) \/ (exists r, suffix = String "#" r) ->
    _parse_community_post_url (sch ++ "://" ++ host ++ "/post/" ++ id ++ suffix)
    = Return id.
Proof.
  intros sch host id suffix Hs Hsch Hhost Hid Hsuf.
  assert (Hne : sch <> "") by (intros ->; discriminate Hsch).
  unfold _parse_community_post_url, urlparse.
  replace (host ++ "/post/" ++ id ++ suffix)
    with (host ++ String "/" ("post/" ++ id) ++ suffix)
    by reflexivity.
  destruct (urlsplit_scheme_host_path sch host ("post/" ++ id) suffix Hne Hs
              (allowed_netloc_chars _ Hhost) (post_path_chars _ Hid) Hsuf)
    as (q & f & ->).
  cbn [bind scheme netloc path].
  assert (Hsemi : str_contains ";" (String "/" ("post/" ++ id)) = false).
  { apply str_contains_char_none. intros x Hx.
    change (String "/" ("post/" ++ id)) with ("/post/" ++ id) in Hx.
    rewrite chars_app in Hx. apply in_app_or in Hx. destruct Hx as [Hx | Hx].
    - cbn in Hx. intros ->. repeat (destruct Hx as [Hx | Hx]; [discriminate Hx|]).
      destruct Hx.
    - exact (proj1 (proj2 (proj2 (proj2 (clean_id_inv _ _ Hid Hx))))). }
  rewrite Hsemi, andb_false_r. cbn [bind scheme netloc path].
  rewrite Hsch, Hhost. cbn [negb].
  change (String "/" ("post/" ++ id)) with ("/post/" ++ id).
  rewrite str_contains_prefix by discriminate. cbn [negb].
  change ("/post/" ++ id) with ("/post" ++ String "/" id).
  rewrite split_on_last; [reflexivity|].
  intros c Hc. exact (proj1 (clean_id_inv _ _ Hid Hc)).
Qed.

(** X5.  For a scheme that reads http or https in any letter case, an allowed
    host and an id without delimiter, the URL scheme://host/post/id, alone or
    followed by a query or a fragment, is accepted and gives back the id. *)
Theorem X5_post_url_round_trip :
  forall sch host id suffix,
    str_forall is_alpha sch = true ->
    str_in (str_map lower_char sch) ALLOWED_SCHEMES = true ->
    str_in host ALLOWED_NETLOCS = true ->
    clean_id id = true ->
    suffix = ""
    \/ (exists r, suffix = String "?" r) \/ (exists r, suffix = String "#" r) ->
    _parse_community_post_url (sch ++ "://" ++ host ++ "/post/" ++ id ++ suffix)
    = Return id.
Proof. exact parse_post_url. Qed.

Lemma X5_post_url_round_trip_witness :
  _parse_community_post_url
    "HTTPS://m.youtube.com/post/UgkxCWeKPiIOLsnh_5a0mpHWywRz?si=abc#top"
  = Return "UgkxCWeKPiIOLsnh_5a0mpHWywRz".
Proof.
  apply (X5_post_url_round_trip "HTTPS" "m.youtube.com" "UgkxCWeKPiIOLsnh_5a0mpHWywRz"
           "?si=abc#top"); try reflexivity.
  right. left. eexists. reflexivity.
Defined.

(** ** Building a loader from a URL *)

(** X14.  The URL that a loader fetches identifies it:
    [from_youtube_community_url] on that URL, with the loader's flag, builds
    the same loader, for a post id without delimiter. *)
Theorem X14_loader_from_its_own_url :
  forall self,
    clean_id (post_id self) = true ->
    from_youtube_community_url ("https://www.youtube.com/post/" ++ post_id self)
      (Some (continue_on_failure self))
    = Return self.
Proof.
  intros self H.
  pose proof (parse_post_url "https" "www.youtube.com" (post_id self) ""
                eq_refl eq_refl eq_refl H (or_introl eq_refl)) as Hp.
  rewrite append_empty_r in Hp.
  change ("https" ++ "://" ++ "www.youtube.com" ++ "/post/" ++ post_id self)
    with ("https://www.youtube.com/post/" ++ post_id self) in Hp.
  unfold from_youtube_community_url, extract_post_id. rewrite Hp. cbn [bind].
  destruct self as [id flag]. reflexivity.
Qed.

Lemma X14_loader_from_its_own_url_witness :
  from_youtube_community_url "https://www.youtube.com/post/P1" (Some false)
  = Return example_loader.
Proof.
  apply (X14_loader_from_its_own_url example_loader eq_refl).
Defined.

(** ** Integers and their decimal text *)

Lemma Z_of_digits_app :
  forall x y a, Z_of_digits a (x ++ y) = Z_of_digits (Z_of_digits a x) y.
Proof.
  induction x as [|c x IH]; intros y a; [reflexivity|].
  cbn [append Z_of_digits]. apply IH.
Qed.

Lemma digit_chr :
  forall d, 0 <= d <= 9 ->
            is_digit (chr (48 + d)) = true /\ digit_val (chr (48 + d)) = d
            /\ (chr (48 + d) = "0"%char <-> d = 0)
            /\ chr (48 + d) <> "-"%char.
Proof.
  intros d H.
  assert (d = 0 \/ d = 1 \/ d = 2 \/ d = 3 \/ d = 4 \/ d = 5 \/ d = 6 \/ d = 7
          \/ d = 8 \/ d = 9) as Hd by lia.
  repeat (destruct Hd as [-> | Hd]);
    try subst d;
    (split; [reflexivity|]; split; [reflexivity|]; split;
     [split; intros E; first [reflexivity | discriminate E | lia] | discriminate]).
Qed.

(** The digits that [string_of_pos_digits] writes in front of [acc]: all the
    digits of [n], the first of them not a zero unless [n] is zero. *)
Lemma string_of_pos_digits_spec :
  forall fuel n acc,
    0 <= n < 2 ^ Z.of_nat (S fuel) ->
    exists c ds,
      string_of_pos_digits (S fuel) n acc = String c ds ++ acc
      /\ str_forall is_digit (String c ds) = true
      /\ (forall a, Z_of_digits a (String c ds)
                    = a * 10 ^ Z.of_nat (String.length (String c ds)) + n)
      /\ (c = "0"%char -> n = 0 /\ ds = "")
      /\ c <> "-"%char.
Proof.
  assert (Single : forall fuel n acc,
             0 <= n < 10 ->
             exists c ds,
               string_of_pos_digits (S fuel) n acc = String c ds ++ acc
               /\ str_forall is_digit (String c ds) = true
               /\ (forall a, Z_of_digits a (String c ds)
                             = a * 10 ^ Z.of_nat (String.length (String c ds)) + n)
               /\ (c = "0"%char -> n = 0 /\ ds = "")
               /\ c <> "-"%char).
  { intros fuel n acc Hn. cbn [string_of_pos_digits].
    replace (n <? 10) with true by (symmetry; apply Z.ltb_lt; lia).
    rewrite Z.mod_small by lia.
    destruct (digit_chr n) as (D1 & D2 & D3 & D4); [lia|].
    exists (chr (48 + n)), "". split; [reflexivity|]. split.
    - cbn [str_forall]. rewrite D1. reflexivity.
    - split; [|split; [|exact D4]].
      + intros a. cbn [Z_of_digits String.length]. rewrite D2.
        change (10 ^ Z.of_nat 1) with 10. lia.
      + intros E. split; [apply D3; exact E | reflexivity]. }
  induction fuel as [|fuel IH]; intros n acc Hn.
  - apply Single. change (2 ^ Z.of_nat 1) with 2 in Hn. lia.
  - destruct (Z.ltb_spec n 10) as [Hlt | Hge]; [apply Single; lia|].
    cbn [string_of_pos_digits].
    replace (n <? 10) with false by (symmetry; apply Z.ltb_ge; lia).
    assert (Hq : 0 <= n / 10 < 2 ^ Z.of_nat (S fuel)).
    { split; [apply Z.div_pos; lia|].
      rewrite (Nat2Z.inj_succ (S fuel)), Z.pow_succ_r in Hn by lia.
      apply Z.div_lt_upper_bound; lia. }
    destruct (IH (n / 10) (String (chr (48 + n mod 10)) acc) Hq)
      as (c & ds & E & Hd & Hv & Hz & Hm).
    destruct (digit_chr (n mod 10)) as (D1 & D2 & _ & _);
      [pose proof (Z.mod_pos_bound n 10); lia|].
    exists c, (ds ++ String (chr (48 + n mod 10)) "").
    split; [|split; [|split; [|split; [|exact Hm]]]].
    + change (string_of_pos_digits (S fuel) (n / 10)
                (String (chr (48 + n mod 10)) acc)
              = String c (ds ++ String (chr (48 + n mod 10)) "") ++ acc).
      rewrite E. cbn [append]. rewrite append_assoc_s. reflexivity.
    + change (String c (ds ++ String (chr (48 + n mod 10)) ""))
        with (String c ds ++ String (chr (48 + n mod 10)) "").
      rewrite str_forall_app, Hd. cbn [str_forall]. rewrite D1. reflexivity.
    + intros a.
      change (String c (ds ++ String (chr (48 + n mod 10)) ""))
        with (String c ds ++ String (chr (48 + n mod 10)) "").
      rewrite Z_of_digits_app, Hv, length_append_s. cbn [Z_of_digits String.length].
      rewrite D2.
      replace (Z.of_nat (S (String.length ds) + 1))
        with (Z.succ (Z.of_nat (S (String.length ds)))) by lia.
      rewrite Z.pow_succ_r by lia.
      pose proof (Z.div_mod n 10). lia.
    + intros ->. destruct (Hz eq_refl) as (H0 & _).
      exfalso. assert (n / 10 >= 1) by (apply Z.le_ge, Z.div_le_lower_bound; lia). lia.
Qed.

Lemma span_nondigit :
  forall t, nondigit_head t -> span is_digit t = ("", t).
Proof.
  intros [|c t] H; [reflexivity|]. cbn [span]. cbn in H. rewrite H. reflexivity.
Qed.

Lemma span_digits_then :
  forall ds t,
    str_forall is_digit ds = true -> nondigit_head t ->
    span is_digit (ds ++ t) = (ds, t).
Proof.
  intros ds t Hd Ht. rewrite (span_app _ _ _ Hd), (span_nondigit _ Ht).
  cbn [fst snd]. rewrite append_empty_r. reflexivity.
Qed.

Lemma match_frac_exp_end :
  forall t, ends_number t -> match_frac t = ("", t) /\ match_exp t = ("", t).
Proof.
  intros [|c t] H; [split; reflexivity|]. cbn in H. destruct H as (_ & H1 & H2 & H3).
  unfold match_frac, match_exp.
  destruct (Ascii.eqb_spec c "."); [congruence|].
  destruct (Ascii.eqb_spec c "e"); [congruence|].
  destruct (Ascii.eqb_spec c "E"); [congruence|]. split; reflexivity.
Qed.

(** The digits of a number, as written by [string_of_pos_digits], are read
    back as the number. *)
Lemma match_number_digits :
  forall c ds t,
    str_forall is_digit (String c ds) = true ->
    (c = "0"%char -> ds = "") ->
    c <> "-"%char ->
    ends_number t ->
    match_number (String c ds ++ t) = Some (String c ds, "", "", t)
    /\ match_number (String "-" (String c ds ++ t))
       = Some (String "-" (String c ds), "", "", t).
Proof.
  intros c ds t Hd Hz Hm Ht.
  destruct (match_frac_exp_end _ Ht) as (Ef & Ee).
  cbn [str_forall] in Hd. apply andb_true_iff in Hd. destruct Hd as (Hc & Hds).
  assert (Hi : match_integer (String c ds ++ t) = Some (String c ds, t)
               /\ match_integer (String "-" (String c ds ++ t))
                  = Some (String "-" (String c ds), t)).
  { unfold match_integer. cbn [append].
    change ("-" =? "-")%char with true. cbv beta iota.
    destruct (Ascii.eqb_spec c "-") as [->|_]; [congruence|].
    destruct (Ascii.eqb_spec c "0") as [->|_].
    - rewrite (Hz eq_refl). split; reflexivity.
    - rewrite Hc, (span_digits_then _ _ Hds (ends_number_nondigit _ Ht)).
      split; reflexivity. }
  destruct Hi as (Hi1 & Hi2). unfold match_number.
  rewrite Hi1, Hi2, Ef, Ee. split; reflexivity.
Qed.

Lemma int_str_scans :
  forall z f t,
    ends_number t -> scan_once (S f) (int_str z ++ t) = Done (JInt z) t.
Proof.
  intros z f t Ht. unfold int_str.
  destruct (Z.ltb_spec z 0) as [Hneg | Hpos].
  - rewrite Nat.add_1_r.
    assert (Hb : 0 <= - z < 2 ^ Z.of_nat (S (Z.to_nat (Z.log2 (- z))))).
    { rewrite Nat2Z.inj_succ, Z2Nat.id by apply Z.log2_nonneg.
      pose proof (Z.log2_spec (- z)). lia. }
    destruct (string_of_pos_digits_spec (Z.to_nat (Z.log2 (- z))) (- z) "" Hb)
      as (c & ds & E & Hd & Hv & Hz & Hm).
    rewrite E, append_empty_r.
    assert (Hz' : c = "0"%char -> ds = "") by (intros H; apply Hz; exact H).
    destruct (match_number_digits c ds t Hd Hz' Hm Ht) as (_ & Hn).
    change ("-" ++ String c ds) with (String "-" (String c ds)).
    change (String "-" (String c ds) ++ t) with (String "-" (String c ds ++ t)).
    rewrite (scan_once_number _ _ _ _ _ _ _ Hn).
    unfold parse_int. change ("-" =? "-")%char with true. cbv beta iota.
    rewrite Hv. f_equal. f_equal. lia.
  - rewrite Nat.add_1_r.
    assert (Hb : 0 <= z < 2 ^ Z.of_nat (S (Z.to_nat (Z.log2 z)))).
    { rewrite Nat2Z.inj_succ, Z2Nat.id by apply Z.log2_nonneg.
      destruct (Z.eq_dec z 0) as [->|]; [cbn; lia|].
      pose proof (Z.log2_spec z). lia. }
    destruct (string_of_pos_digits_spec (Z.to_nat (Z.log2 z)) z "" Hb)
      as (c & ds & E & Hd & Hv & Hz & Hm).
    rewrite E, append_empty_r.
    assert (Hz' : c = "0"%char -> ds = "") by (intros H; apply Hz; exact H).
    destruct (match_number_digits c ds t Hd Hz' Hm Ht) as (Hn & _).
    change (String c ds ++ t) with (String c (ds ++ t)) in *.
    rewrite (scan_once_number _ _ _ _ _ _ _ Hn).
    unfold parse_int.
    destruct (Ascii.eqb_spec c "-") as [->|_]; [congruence|].
    rewrite Hv, Z.mul_0_l, Z.add_0_l. reflexivity.
Qed.

(** ** Written JSON is read back *)

Lemma json_ind_nested :
  forall P : json -> Prop,
    P JNull -> (forall b, P (JBool b)) -> (forall z, P (JInt z)) ->
    (forall f, P (JFloat f)) -> (forall s, P (JStr s)) ->
    (forall l, Forall P l -> P (JList l)) ->
    (forall d, Forall (fun kv => P (snd kv)) d -> P (JDict d)) ->
    forall v, P v.
Proof.
  intros P Hn Hb Hi Hf Hs Hl Hd. fix IH 1.
  intros [| b | z | f | s | l | d];
    [exact Hn | apply Hb | apply Hi | apply Hf | apply Hs | |].
  - apply Hl. revert l. fix IHl 1. intros [|x l]; constructor; [apply IH | apply IHl].
  - apply Hd. revert d. fix IHd 1.
    intros [|[k x] d]; constructor; [apply IH | apply IHd].
Qed.

Lemma join_cons_tail :
  forall sep close a l, join sep (a :: l) ++ close = a ++ sep_tail sep close l.
Proof.
  intros sep close a l. revert a. induction l as [|b l IH]; intros a.
  - reflexivity.
  - change (join sep (a :: b :: l)) with (a ++ sep ++ join sep (b :: l)).
    rewrite !append_assoc_s, IH. reflexivity.
Qed.

Lemma quoted_app :
  forall k y, quoted k ++ y = String dquote (escaped k ++ String dquote y).
Proof.
  intros k y. unfold quoted. cbn [append]. rewrite append_assoc_s. reflexivity.
Qed.

(** An escaped character is read back as the character. *)
Lemma escape_char_scans :
  forall c rest acc,
    scanstring (escape_char c ++ rest) acc = scanstring rest (acc ++ str1 c).
Proof.
  intros [b0 b1 b2 b3 b4 b5 b6 b7] rest acc.
  destruct b0, b1, b2, b3, b4, b5, b6, b7;
    rewrite scanstring_eq;
    first [ reflexivity
          | cbv -[after_uXXXX scanstring];
            rewrite after_uXXXX_single by reflexivity; reflexivity ].
Qed.

Lemma scanstring_escaped :
  forall s acc t,
    scanstring (escaped s ++ String dquote t) acc = Done (acc ++ s) t.
Proof.
  induction s as [|c s IH]; intros acc t.
  - rewrite scanstring_eq. cbn [escaped append scanstring_step].
    rewrite Ascii.eqb_refl, append_empty_r. reflexivity.
  - cbn [escaped]. rewrite append_assoc_s, escape_char_scans, IH, append_assoc_s.
    reflexivity.
Qed.

Lemma int_str_head :
  forall z, exists c r, int_str z = String c r /\ (c =? "-")%char || is_digit c = true.
Proof.
  intros z. unfold int_str. destruct (Z.ltb_spec z 0) as [Hneg | Hpos].
  - eexists _, _. split; reflexivity.
  - rewrite Nat.add_1_r.
    assert (Hb : 0 <= z < 2 ^ Z.of_nat (S (Z.to_nat (Z.log2 z)))).
    { rewrite Nat2Z.inj_succ, Z2Nat.id by apply Z.log2_nonneg.
      destruct (Z.eq_dec z 0) as [->|]; [cbn; lia|].
      pose proof (Z.log2_spec z). lia. }
    destruct (string_of_pos_digits_spec (Z.to_nat (Z.log2 z)) z "" Hb)
      as (c & ds & E & Hd & _).
    rewrite E, append_empty_r. exists c, ds. split; [reflexivity|].
    cbn [str_forall] in Hd. apply andb_true_iff in Hd. destruct Hd as (Hc & _).
    rewrite Hc. apply orb_true_r.
Qed.

Lemma number_head_not_ws :
  forall c,
    (c =? "-")%char || is_digit c = true ->
    is_ws c = false /\ (c =? "]")%char = false.
Proof.
  intros [b0 b1 b2 b3 b4 b5 b6 b7].
  destruct b0, b1, b2, b3, b4, b5, b6, b7; intros H;
    first [discriminate H | split; reflexivity].
Qed.

(** The first character of the text of a value is no whitespace and closes
    no array. *)
Lemma json_text_head :
  forall v,
    writable v = true ->
    exists c r, json_text v = String c r /\ is_ws c = false /\ (c =? "]")%char = false.
Proof.
  intros [| [|] | z | f | s | l | d] H; try discriminate H;
    try (eexists _, _; split; [reflexivity | split; reflexivity]).
  cbn [json_text]. destruct (int_str_head z) as (c & r & E & Hc).
  exists c, r. split; [exact E|]. exact (number_head_not_ws _ Hc).
Qed.

Lemma head_not_ws :
  forall c r,
    is_ws c = false ->
    before_value_ws (String c r) = String c r
    /\ after_value_ws (String c r) = String c r
    /\ skip_ws (String c r) = String c r.
Proof.
  intros c r H. unfold before_value_ws, after_value_ws, skip_ws. cbn [span].
  rewrite H. repeat split; reflexivity.
Qed.

Lemma dict_set_fresh :
  forall (V : Type) k (v : V) d,
    existsb (String.eqb k) (map fst d) = false -> dict_set k v d = (d ++ [(k, v)])%list.
Proof.
  intros V k v d. induction d as [|[k' v'] d IH]; intros H; [reflexivity|].
  cbn [map fst existsb] in H. apply orb_false_iff in H. destruct H as (Hk & H).
  cbn [dict_set app]. rewrite Hk, (IH H). reflexivity.
Qed.

Lemma existsb_app_false :
  forall k (a b : list string),
    existsb (String.eqb k) (a ++ b) = false
    <-> existsb (String.eqb k) a = false /\ existsb (String.eqb k) b = false.
Proof. intros k a b. rewrite existsb_app. apply orb_false_iff. Qed.

Lemma distinct_app_cons :
  forall a k b,
    distinct (a ++ k :: b) = true ->
    existsb (String.eqb k) a = false /\ distinct ((a ++ [k]) ++ b) = true.
Proof.
  intros a k b H. rewrite <- app_assoc. cbn [app]. split; [|exact H].
  induction a as [|x a IH]; [reflexivity|].
  cbn [app distinct] in H. apply andb_true_iff in H. destruct H as (Hx & H).
  apply negb_true_iff in Hx. apply existsb_app_false in Hx. destruct Hx as (_ & Hx).
  cbn [existsb] in Hx |- *. apply orb_false_iff in Hx. destruct Hx as (Hx & _).
  rewrite (IH H), orb_false_r. rewrite String.eqb_sym. exact Hx.
Qed.

Lemma fold_dict_set_distinct :
  forall (d acc : list (string * json)),
    distinct (map fst (acc ++ d)) = true ->
    fold_left (fun m kv => dict_set (fst kv) (snd kv) m) d acc = (acc ++ d)%list.
Proof.
  induction d as [|[k v] d IH]; intros acc H; cbn [fold_left].
  - rewrite app_nil_r. reflexivity.
  - rewrite map_app in H. cbn [map fst] in H.
    destruct (distinct_app_cons _ _ _ H) as (Hk & H').
    cbn [fst snd]. rewrite (dict_set_fresh _ _ _ _ Hk), IH.
    + rewrite <- app_assoc. reflexivity.
    + rewrite !map_app. cbn [map fst]. exact H'.
Qed.

Lemma dict_of_pairs_distinct :
  forall d : list (string * json),
    distinct (map fst d) = true -> dict_of_pairs d = d.
Proof. intros d H. unfold dict_of_pairs. apply (fold_dict_set_distinct d []). exact H. Qed.

Lemma forallb_Forall_true :
  forall (A : Type) (p : A -> bool) l, forallb p l = true -> Forall (fun x => p x = true) l.
Proof.
  intros A p l H. apply Forall_forall. intros x Hx.
  exact (proj1 (forallb_forall p l) H x Hx).
Qed.

Lemma text_not_ws :
  forall v X,
    writable v = true ->
    before_value_ws (json_text v ++ X) = json_text v ++ X
    /\ after_value_ws (json_text v ++ X) = json_text v ++ X
    /\ exists c r, json_text v ++ X = String c r /\ (c =? "]")%char = false.
Proof.
  intros v X W. destruct (json_text_head v W) as (c & r & E & Hws & Hc).
  rewrite E. cbn [append]. destruct (head_not_ws c (r ++ X) Hws) as (H1 & H2 & _).
  split; [exact H1|]. split; [exact H2|]. eauto.
Qed.

(** The items of an array, from the first one on. *)
Lemma array_loop_items :
  forall l,
    Forall (fun x => writable x = true /\ scans x) l ->
    forall x,
      writable x = true -> scans x ->
      exists fuel0,
        forall fuel t values,
          (fuel0 <= fuel)%nat ->
          array_loop fuel (json_text x ++ sep_tail "," ("]" ++ t) (map json_text l))
            values
          = Done (JList (values ++ x :: l)) t.
Proof.
  intros l Hl. induction Hl as [|y l (Wy & Sy) _ IH]; intros x Wx (Fx & Hx).
  - exists (S Fx). intros [|f] t values Hf; [lia|].
    cbn [map sep_tail array_loop].
    rewrite (Hx f ("]" ++ t)); [|lia | intros _; cbn; repeat split; discriminate].
    reflexivity.
  - destruct (IH y Wy Sy) as (Fy & Hy).
    exists (S (Nat.max Fx Fy)). intros [|f] t values Hf; [lia|].
    cbn [map sep_tail array_loop].
    rewrite (Hx f); [|lia | intros _; cbn; repeat split; discriminate].
    change (after_value_ws ("," ++ json_text y ++ sep_tail "," ("]" ++ t) (map json_text l)))
      with (String "," (json_text y ++ sep_tail "," ("]" ++ t) (map json_text l))).
    cbv beta iota.
    change (("," =? "]")%char) with false. change (("," =? ",")%char) with true.
    cbv beta iota.
    rewrite (proj1 (text_not_ws y _ Wy)), Hy by lia.
    rewrite <- app_assoc. reflexivity.
Qed.

(** The members of an object, from just after the opening quote of the first
    name on. *)
Lemma object_loop_members :
  forall d,
    Forall (fun kv => writable (snd kv) = true /\ scans (snd kv)) d ->
    forall k v,
      writable v = true -> scans v ->
      exists fuel0,
        forall fuel t pairs,
          (fuel0 <= fuel)%nat ->
          object_loop fuel
            (escaped k ++ String dquote
                            (":" ++ json_text v
                                 ++ sep_tail "," ("}" ++ t) (map member_text d)))
            pairs
          = Done (JDict (dict_of_pairs (pairs ++ (k, v) :: d))) t.
Proof.
  intros d Hd. induction Hd as [|[k2 v2] d (W2 & S2) _ IH];
    intros k v Wv (Fv & Hv).
  - exists (S Fv). intros [|f] t pairs Hf; [lia|].
    cbn [map sep_tail object_loop].
    rewrite scanstring_escaped.
    change (before_colon_ws (":" ++ json_text v ++ "}" ++ t))
      with (String ":" (json_text v ++ "}" ++ t)).
    cbv beta iota. change ((":" =? ":")%char) with true. cbv beta iota.
    rewrite (proj1 (text_not_ws v _ Wv)).
    rewrite (Hv f ("}" ++ t)); [|lia | intros _; cbn; repeat split; discriminate].
    reflexivity.
  - cbn [fst snd] in *. destruct (IH k2 v2 W2 S2) as (F2 & H2).
    exists (S (Nat.max Fv F2)). intros [|f] t pairs Hf; [lia|].
    cbn [map sep_tail object_loop].
    rewrite scanstring_escaped.
    set (tail := sep_tail "," ("}" ++ t) (map member_text d)).
    change (before_colon_ws (":" ++ json_text v ++ "," ++ member_text (k2, v2) ++ tail))
      with (String ":" (json_text v ++ "," ++ member_text (k2, v2) ++ tail)).
    cbv beta iota. change ((":" =? ":")%char) with true. cbv beta iota.
    rewrite (proj1 (text_not_ws v _ Wv)).
    rewrite (Hv f); [|lia | intros _; cbn; repeat split; discriminate].
    change (after_value_ws ("," ++ member_text (k2, v2) ++ tail))
      with (String "," (member_text (k2, v2) ++ tail)).
    cbv beta iota.
    change (("," =? "}")%char) with false. change (("," =? ",")%char) with true.
    cbv beta iota.
    unfold member_text at 1. cbn [fst snd]. rewrite !append_assoc_s, quoted_app.
    rewrite (proj2 (proj2 (head_not_ws dquote _ eq_refl))).
    rewrite Ascii.eqb_refl.
    unfold tail. rewrite H2 by lia. rewrite <- app_assoc. reflexivity.
Qed.

Lemma json_text_scans : forall v, writable v = true -> scans v.
Proof.
  induction v as [| b | z | f | s | l IH | d IH] using json_ind_nested; intros W.
  - exists 1%nat. intros [|f] t Hf _; [lia|]. destruct t; reflexivity.
  - exists 1%nat. intros [|f] t Hf _; [lia|]. destruct b, t; reflexivity.
  - exists 1%nat. intros [|f] t Hf Hok; [lia|].
    apply int_str_scans. apply Hok. reflexivity.
  - discriminate W.
  - exists 1%nat. intros [|f] t Hf _; [lia|].
    cbn [json_text]. rewrite quoted_app. cbn [scan_once].
    rewrite Ascii.eqb_refl, scanstring_escaped. reflexivity.
  - cbn [writable] in W. apply forallb_Forall_true in W.
    assert (Hl : Forall (fun x => writable x = true /\ scans x) l).
    { clear - IH W. induction l as [|x l IHl]; constructor.
      - inversion IH; inversion W; subst. split; auto.
      - inversion IH; inversion W; subst. auto. }
    destruct l as [|x l].
    + exists 1%nat. intros [|f] t Hf _; [lia|]. reflexivity.
    + inversion Hl as [|? ? (Wx & Sx) Hl']; subst.
      destruct (array_loop_items l Hl' x Wx Sx) as (F & HF).
      exists (S F). intros [|f] t Hf _; [lia|].
      cbn [json_text]. rewrite !append_assoc_s.
      change ("[" ++ join "," (map json_text (x :: l)) ++ "]" ++ t)
        with (String "[" (join "," (json_text x :: map json_text l) ++ "]" ++ t)).
      rewrite join_cons_tail.
      cbn [scan_once].
      change (("[" =? dquote)%char) with false. change (("[" =? "{")%char) with false.
      change (("[" =? "[")%char) with true. cbv beta iota.
      destruct (text_not_ws x (sep_tail "," ("]" ++ t) (map json_text l)) Wx)
        as (_ & Ea & c & r & E & Hc).
      rewrite Ea, E, Hc, <- E, HF by lia. reflexivity.
  - cbn [writable] in W. apply andb_true_iff in W. destruct W as (Wd & W).
    apply forallb_Forall_true in W.
    assert (Hd : Forall (fun kv => writable (snd kv) = true /\ scans (snd kv)) d).
    { clear - IH W. induction d as [|kv d IHd]; constructor.
      - inversion IH; inversion W; subst. split; auto.
      - inversion IH; inversion W; subst. auto. }
    destruct d as [|[k v] d].
    + exists 1%nat. intros [|f] t Hf _; [lia|]. reflexivity.
    + inversion Hd as [|? ? (Wv & Sv) Hd']; subst. cbn [fst snd] in *.
      destruct (object_loop_members d Hd' k v Wv Sv) as (F & HF).
      exists (S F). intros [|f] t Hf _; [lia|].
      cbn [json_text]. rewrite !append_assoc_s.
      change ("{" ++ join "," (map (fun kv => quoted (fst kv) ++ ":" ++ json_text (snd kv))
                                 ((k, v) :: d)) ++ "}" ++ t)
        with (String "{" (join "," (member_text (k, v) :: map member_text d)
                            ++ "}" ++ t)).
      rewrite join_cons_tail. unfold member_text at 1. cbn [fst snd].
      rewrite !append_assoc_s, quoted_app.
      cbn [scan_once].
      change (("{" =? dquote)%char) with false. change (("{" =? "{")%char) with true.
      cbv beta iota. cbn [before_name_ws]. rewrite Ascii.eqb_refl.
      rewrite HF by lia. cbn [app].
      rewrite (dict_of_pairs_distinct _ Wd). reflexivity.
Qed.

Lemma raw_decode_written :
  forall v t,
    writable v = true -> value_ok v t ->
    raw_decode (json_text v ++ t) = Return (v, String.length (json_text v)).
Proof.
  intros v t W Hok. destruct (json_text_scans v W) as (F & HF).
  unfold raw_decode.
  set (fuel := S (2 * String.length (json_text v ++ t))).
  assert (Hdone : scan_once fuel (json_text v ++ t) = Done v t).
  { destruct (Nat.le_ge_cases F fuel) as [Hle | Hle].
    - apply HF; assumption.
    - rewrite <- (HF F t (Nat.le_refl _) Hok). symmetry.
      apply fuel_mono; [exact Hle|]. apply (proj1 (fuel_enough _)). unfold fuel. lia. }
  rewrite Hdone, length_append_s. f_equal. f_equal. lia.
Qed.

Lemma str_drop_app : forall p s, str_drop (String.length p) (p ++ s) = s.
Proof. induction p as [|c p IH]; intros s; [reflexivity | apply IH]. Qed.

Lemma substring_app_drop :
  forall p k n s, substring (String.length p + k) n (p ++ s) = substring k n s.
Proof. induction p as [|c p IH]; intros k n s; [reflexivity | apply IH]. Qed.

Lemma substring_one_in :
  forall m k s c,
    (k < String.length m)%nat -> substring k 1 (m ++ s) = String c "" -> In c (chars m).
Proof.
  induction m as [|a m IH]; intros k s c Hk H; [simpl in Hk; lia|].
  destruct k as [|k].
  - cbn [append substring] in H. injection H as -> _. left. reflexivity.
  - right. apply (IH k s c); [simpl in Hk; lia | exact H].
Qed.

(** The first brace after a text that holds none. *)
Lemma first_brace_after :
  forall p mid s,
    str_contains "{" mid = false ->
    index (String.length p) "{" (p ++ mid ++ String "{" s)
    = Some (String.length p + String.length mid)%nat.
Proof.
  intros p mid s Hm. apply index_some_iff; [discriminate|]. split; [lia|]. split.
  - unfold occurs_at. rewrite <- length_append_s, <- (Nat.add_0_r (String.length (p ++ mid))).
    rewrite <- append_assoc_s, substring_app_drop.
    cbn [String.length substring]. rewrite substring_zero. reflexivity.
  - intros j Hj Hlt Hocc. unfold occurs_at in Hocc. cbn [String.length] in Hocc.
    replace j with (String.length p + (j - String.length p))%nat in Hocc by lia.
    rewrite substring_app_drop in Hocc.
    apply substring_one_in in Hocc; [|lia].
    exact (str_contains_char_false _ _ Hm _ Hocc eq_refl).
Qed.

Lemma extract_written_object :
  forall pre key mid d rest,
    first_at (encoded_key_of key)
      (pre ++ encoded_key_of key ++ mid ++ json_text (JDict d) ++ rest)
      0 (String.length pre) ->
    str_contains "{" mid = false ->
    writable (JDict d) = true ->
    _extract_json_from_html
      (pre ++ encoded_key_of key ++ mid ++ json_text (JDict d) ++ rest) key
    = Return (JDict d).
Proof.
  intros pre key mid d rest Hfirst Hm W.
  apply (index_some_iff _ _ _ _ (encoded_key_nonempty key)) in Hfirst.
  assert (Hhead : exists s, json_text (JDict d) ++ rest = String "{" s).
  { cbn [json_text append]. eauto. }
  destruct Hhead as (s & Hs).
  assert (Hraw : pre ++ encoded_key_of key ++ mid ++ json_text (JDict d) ++ rest
                 = (pre ++ encoded_key_of key) ++ mid ++ String "{" s).
  { rewrite Hs, append_assoc_s. reflexivity. }
  pose proof (first_brace_after (pre ++ encoded_key_of key) mid s Hm) as Hb.
  rewrite <- Hraw, length_append_s in Hb.
  rewrite (extract_json_decodes _ _ _ _ Hfirst Hb).
  replace (String.length pre + String.length (encoded_key_of key) + String.length mid)%nat
    with (String.length ((pre ++ encoded_key_of key) ++ mid))
    by (rewrite !length_append_s; reflexivity).
  replace (pre ++ encoded_key_of key ++ mid ++ json_text (JDict d) ++ rest)
    with (((pre ++ encoded_key_of key) ++ mid) ++ json_text (JDict d) ++ rest)
    by (rewrite !append_assoc_s; reflexivity).
  rewrite str_drop_app, (raw_decode_written _ _ W); [reflexivity|].
  intros H. discriminate H.
Qed.

(** X2.  A mapping written in compact JSON (names that differ, no float;
    strings escaped as the encoder does) and within the limits of the
    interpreter is read
    back as it is by [_extract_json_from_html] when it follows the first
    occurrence of the quoted key, whatever text without brace stands between
    the key and the object and whatever text follows the object. *)
Theorem X2_locator_reads_written_object :
  forall pre key mid d rest,
    first_at (encoded_key_of key)
      (pre ++ encoded_key_of key ++ mid ++ json_text (JDict d) ++ rest)
      0 (String.length pre) ->
    str_contains "{" mid = false ->
    writable (JDict d) = true ->
    within_limits (JDict d) = true ->
    _extract_json_from_html
      (pre ++ encoded_key_of key ++ mid ++ json_text (JDict d) ++ rest) key
    = Return (JDict d).
Proof.
  intros pre key mid d rest Hfirst Hm W _.
  exact (extract_written_object pre key mid d rest Hfirst Hm W).
Qed.

Lemma X2_locator_reads_written_object_witness :
  _extract_json_from_html
    ("<script>var ytInitialData = [" ++ encoded_key_of "backstagePostRenderer" ++ " "
       ++ json_text (JDict written_post) ++ "];</script>")
    "backstagePostRenderer"
  = Return (JDict written_post).
Proof.
  apply (X2_locator_reads_written_object "<script>var ytInitialData = ["
           "backstagePostRenderer" " " written_post "];</script>").
  - apply index_some_iff; [discriminate | vm_compute; reflexivity].
  - reflexivity.
  - reflexivity.
  - reflexivity.
Defined.

(** ** From the page to the document *)

(** X16.  From the page to the document: when the page fetched for the post
    holds, after the first occurrence of the direct-post marker, a non-empty
    written mapping, within the limits of the interpreter, that
    [_parse_post_data] turns into a record, [load]
    returns the one document [_create_document] builds from that record, and
    logs nothing but what reading the cookie logged. *)
Theorem X16_load_of_written_post :
  forall rt session_cookies http_get utcnow self pre mid d rest post_data,
    http_get ("https://www.youtube.com/post/" ++ post_id self)
      (fst (_get_socs_cookie session_cookies))
    = Return (pre ++ encoded_key_of "backstagePostRenderer" ++ mid
                  ++ json_text (JDict d) ++ rest) ->
    first_at (encoded_key_of "backstagePostRenderer")
      (pre ++ encoded_key_of "backstagePostRenderer" ++ mid
           ++ json_text (JDict d) ++ rest)
      0 (String.length pre) ->
    str_contains "{" mid = false ->
    writable (JDict d) = true ->
    within_limits (JDict d) = true ->
    d <> [] ->
    _parse_post_data rt utcnow self (JDict d)
      ("https://www.youtube.com/post/" ++ post_id self) = Return post_data ->
    load rt session_cookies http_get utcnow self
    = (Return [_create_document rt self post_data],
       snd (_get_socs_cookie session_cookies)).
Proof.
  intros rt sc http_get utcnow self pre mid d rest post_data Hget Hfirst Hm W _ Hd Hp.
  unfold load, _load_post.
  destruct (_get_socs_cookie sc) as [cookie logged]. cbn [fst snd] in *.
  rewrite Hget. cbn [bind]. unfold _extract_post_from_html.
  rewrite (extract_written_object _ _ _ _ _ Hfirst Hm W). cbn [bind].
  destruct d as [|kv d]; [congruence|]. cbn [truthy negb bind].
  rewrite Hp. reflexivity.
Qed.

Lemma X16_load_of_written_post_witness :
  load example_runtime (Return [])
    (fun _ _ => Return ("<script>var ytInitialData = ["
                          ++ encoded_key_of "backstagePostRenderer" ++ " "
                          ++ json_text (JDict written_post) ++ "];</script>"))
    example_time example_loader
  = (Return
       [{| page_content := JStr written_text;
           metadata :=
             [("source", JStr example_url);
              ("post_id", JStr "P1");
              ("time_since", JStr "1 day ago");
              ("time_of_download", JStr example_time)] |}],
     []).
Proof.
  apply (X16_load_of_written_post example_runtime (Return [])
           (fun _ _ => Return ("<script>var ytInitialData = ["
                                 ++ encoded_key_of "backstagePostRenderer" ++ " "
                                 ++ json_text (JDict written_post) ++ "];</script>"))
           example_time example_loader
           "<script>var ytInitialData = [" " " written_post "];</script>"
           (plain_record example_loader example_url written_text example_time
              (JStr "1 day ago"))).
  - reflexivity.
  - apply index_some_iff; [discriminate | vm_compute; reflexivity].
  - reflexivity.
  - reflexivity.
  - reflexivity.
  - discriminate.
  - reflexivity.
Defined.

(** ** The exceptions of the extractors *)

Lemma raises_in_return :
  forall (A : Type) (C : exn -> Prop) (a : A), raises_in C (Return a).
Proof. intros A C a e H. discriminate H. Qed.

Lemma raises_in_raise :
  forall (A : Type) (C : exn -> Prop) e, C e -> raises_in C (@Raise A e).
Proof. intros A C e H e' E. injection E as <-. exact H. Qed.

Lemma raises_in_bind :
  forall (A B : Type) (C : exn -> Prop) (m : result A) (f : A -> result B),
    raises_in C m -> (forall a, raises_in C (f a)) -> raises_in C (bind m f).
Proof.
  intros A B C [a|e0] f Hm Hf e H; cbn [bind] in H.
  - exact (Hf a e H).
  - injection H as <-. apply Hm. reflexivity.
Qed.

Lemma raises_in_mono :
  forall (A : Type) (C C' : exn -> Prop) (m : result A),
    (forall e, C e -> C' e) -> raises_in C m -> raises_in C' m.
Proof. intros A C C' m H Hm e E. apply H, Hm, E. Qed.

Lemma raises_in_catch :
  forall (A : Type) (C C' : exn -> Prop) sel (m h : result A),
    raises_in C m -> raises_in C' h ->
    (forall e, C e -> sel e = false -> C' e) ->
    raises_in C' (catch sel m h).
Proof.
  intros A C C' sel [a|e0] h Hm Hh Hsel e H; cbn [catch] in H; [discriminate H|].
  destruct (sel e0) eqn:E.
  - exact (Hh e H).
  - injection H as <-. apply Hsel; [apply Hm; reflexivity | exact E].
Qed.

Lemma seq_index_raises :
  forall (A : Type) (l : list A) i, raises_in (fun e => e = IndexError) (seq_index l i).
Proof.
  intros A l i e H. unfold seq_index in H.
  destruct ((_ <? 0) || _); [injection H as <-; reflexivity|].
  destruct (nth_error l _); [discriminate H | injection H as <-; reflexivity].
Qed.

Lemma getitem_raises :
  forall v k,
    raises_in (fun e => (exists k', e = KeyError k') \/ e = TypeError \/ e = IndexError)
      (getitem v k).
Proof.
  intros v k e H. destruct v, k; cbn [getitem] in H;
    try (injection H as <-; eauto; fail);
    try (right; right; exact (seq_index_raises _ _ _ _ H)).
  destruct (dict_get s d); [discriminate H | injection H as <-; eauto].
Qed.

Lemma getitem_str_raises :
  forall v k,
    raises_in (fun e => (exists k', e = KeyError k') \/ e = TypeError)
      (getitem v (KStr k)).
Proof.
  intros v k e H. destruct v; cbn [getitem] in H;
    try (injection H as <-; eauto; fail).
  destruct (dict_get k d); [discriminate H | injection H as <-; eauto].
Qed.

Lemma get_method_raises :
  forall v k d, raises_in (fun e => e = AttributeError) (get_method v k d).
Proof.
  intros v k d e H. destruct v; cbn [get_method] in H;
    try (injection H as <-; reflexivity).
  destruct (dict_get k d0); discriminate H.
Qed.

Lemma iterate_raises : forall v, raises_in (fun e => e = TypeError) (iterate v).
Proof.
  intros v e H. destruct v; cbn [iterate] in H;
    first [discriminate H | injection H as <-; reflexivity].
Qed.

Lemma mapM_raises :
  forall (A B : Type) (C : exn -> Prop) (f : A -> result B) l,
    (forall a, raises_in C (f a)) -> raises_in C (mapM f l).
Proof.
  intros A B C f l Hf. induction l as [|a l IH]; cbn [mapM].
  - apply raises_in_return.
  - apply raises_in_bind; [apply Hf|]. intros b.
    apply raises_in_bind; [exact IH|]. intros bs. apply raises_in_return.
Qed.

Lemma str_join_empty_raises :
  forall l, raises_in (fun e => e = TypeError) (str_join_empty l).
Proof.
  induction l as [|x l IH]; cbn [str_join_empty]; [apply raises_in_return|].
  destruct x; try (apply raises_in_raise; reflexivity).
  apply raises_in_bind; [exact IH|]. intros r. apply raises_in_return.
Qed.

Lemma handle_text_content_raises :
  forall rt content, raises_in (fun e => e = TypeError) (_handle_text_content rt content).
Proof.
  intros rt content. unfold _handle_text_content.
  destruct content as [| | | | | |d];
    try (cbn; apply raises_in_raise; reflexivity).
  apply (raises_in_catch _ (fun e => (exists k', e = KeyError k') \/ e = TypeError)).
  - apply raises_in_bind; [apply getitem_str_raises|]. intros a.
    apply raises_in_bind; [apply getitem_str_raises|]. intros b.
    apply raises_in_bind; [apply getitem_str_raises|]. intros c.
    apply raises_in_bind.
    + intros e H. right. destruct c; cbn in H;
        first [discriminate H | injection H as <-; reflexivity].
    + intros [|m ms]; apply raises_in_return.
  - cbn [get_method]. destruct (dict_get "text" d); apply raises_in_return.
  - intros e [(k & ->) | ->] H; [discriminate H | reflexivity].
Qed.

Lemma text_of_runs_raises :
  forall rt post key,
    raises_in (fun e => (exists k', e = KeyError k') \/ e = TypeError)
      (text_of_runs rt post key).
Proof.
  intros rt post key. unfold text_of_runs.
  apply raises_in_bind; [apply getitem_str_raises|]. intros a.
  apply raises_in_bind; [apply getitem_str_raises|]. intros b.
  apply raises_in_bind;
    [apply (raises_in_mono _ _ _ _ (fun e H => or_intror H)), iterate_raises|].
  intros items.
  apply raises_in_bind;
    [apply mapM_raises; intros x;
     apply (raises_in_mono _ _ _ _ (fun e H => or_intror H)),
       handle_text_content_raises|].
  intros strings.
  apply raises_in_bind;
    [apply (raises_in_mono _ _ _ _ (fun e H => or_intror H)), str_join_empty_raises|].
  intros joined. apply raises_in_return.
Qed.

Lemma text_content_raises :
  forall rt post, raises_in (fun e => e = TypeError) (_get_text_content rt post).
Proof.
  intros rt post. unfold _get_text_content.
  apply (raises_in_catch _ _ _ _ _ _ (text_of_runs_raises rt post "contentText")).
  - apply (raises_in_catch _ _ _ _ _ _ (text_of_runs_raises rt post "content")).
    + apply raises_in_return.
    + intros e [(k & ->) | ->] H; [discriminate H | reflexivity].
  - intros e [(k & ->) | ->] H; [discriminate H | reflexivity].
Qed.

Lemma last_thumbnail_url_raises :
  forall x,
    raises_in (fun e => (exists k', e = KeyError k') \/ e = TypeError \/ e = IndexError)
      (last_thumbnail_url x).
Proof.
  intros x. unfold last_thumbnail_url.
  repeat (apply raises_in_bind; [apply getitem_raises|]; intros ?).
  apply getitem_raises.
Qed.

Lemma image_links_raises :
  forall post,
    raises_in (fun e => e = TypeError \/ e = IndexError) (_get_image_links post).
Proof.
  intros post. unfold _get_image_links, try_single_image, try_multi_image.
  assert (Hsel : forall e,
             (exists k', e = KeyError k') \/ e = TypeError \/ e = IndexError ->
             is_KeyError e = false -> e = TypeError \/ e = IndexError).
  { intros e [(k & ->) | H] Hk; [discriminate Hk | exact H]. }
  apply (raises_in_catch _
           (fun e => (exists k', e = KeyError k') \/ e = TypeError \/ e = IndexError)).
  - apply raises_in_bind; [apply getitem_raises|]. intros a.
    apply raises_in_bind; [apply last_thumbnail_url_raises|]. intros u.
    apply raises_in_return.
  - apply (raises_in_catch _
             (fun e => (exists k', e = KeyError k') \/ e = TypeError \/ e = IndexError)).
    + repeat (apply raises_in_bind; [apply getitem_raises|]; intros ?).
      apply raises_in_bind;
        [apply (raises_in_mono _ _ _ _ (fun e H => or_intror (or_introl H))),
           iterate_raises|].
      intros items.
      apply raises_in_bind;
        [apply mapM_raises; intros x; apply last_thumbnail_url_raises|].
      intros links. apply raises_in_return.
    + apply raises_in_return.
    + exact Hsel.
  - exact Hsel.
Qed.

Lemma poll_choice_raises :
  forall rt poll_text choice,
    raises_in (fun e => (exists k', e = KeyError k') \/ e = TypeError \/ e = IndexError
                        \/ e = AttributeError)
      (poll_choice rt poll_text choice).
Proof.
  intros rt poll_text choice. unfold poll_choice.
  assert (Hg : forall v k d,
             raises_in (fun e => (exists k', e = KeyError k') \/ e = TypeError
                                 \/ e = IndexError \/ e = AttributeError)
               (get_method v k d)).
  { intros v k d.
    apply (raises_in_mono _ _ _ _
             (fun e H => or_intror (or_intror (or_intror H)))), get_method_raises. }
  apply raises_in_bind; [apply Hg|]. intros a.
  apply raises_in_bind; [apply Hg|]. intros b.
  apply raises_in_bind.
  { intros e H. destruct (getitem_raises _ _ e H) as [K | [T | I]]; tauto. }
  intros c.
  apply raises_in_bind; [apply Hg|]. intros t.
  apply raises_in_bind; [apply Hg|]. intros v.
  apply raises_in_bind.
  { intros e H. right. left. destruct v; cbn in H;
      first [discriminate H | injection H as <-; reflexivity]. }
  intros [|]; apply raises_in_return.
Qed.

Lemma poll_content_raises :
  forall rt post,
    raises_in (fun e => e = TypeError \/ e = IndexError \/ e = AttributeError)
      (_get_poll_content rt post).
Proof.
  intros rt post. unfold _get_poll_content.
  apply (raises_in_catch _
           (fun e => (exists k', e = KeyError k') \/ e = TypeError \/ e = IndexError
                     \/ e = AttributeError)).
  - apply raises_in_bind;
      [intros e H; destruct (getitem_str_raises _ _ e H) as [K | T]; tauto|].
    intros a.
    apply raises_in_bind;
      [intros e H; destruct (getitem_str_raises _ _ e H) as [K | T]; tauto|].
    intros p.
    apply raises_in_bind;
      [apply (raises_in_mono _ _ _ _
                (fun e H => or_intror (or_intror (or_intror H)))), get_method_raises|].
    intros choices. destruct (negb (truthy rt choices)); [apply raises_in_return|].
    apply raises_in_bind;
      [apply (raises_in_mono _ _ _ _ (fun e H => or_intror (or_introl H))),
         iterate_raises|].
    intros items.
    apply raises_in_bind; [|intros s; apply raises_in_return].
    generalize "Poll: ". induction items as [|c cs IH]; intros acc; cbn [poll_loop].
    + apply raises_in_return.
    + apply raises_in_bind; [apply poll_choice_raises | intros s; apply IH].
  - apply raises_in_return.
  - intros e [(k & ->) | H] Hk; [discriminate Hk | exact H].
Qed.

(** X13.  The exceptions of the extractors on a post within the limits of the
    interpreter: [_get_text_content] raises nothing
    but [TypeError], [_get_image_links] nothing but [TypeError] and
    [IndexError], [_get_poll_content] nothing but these two and
    [AttributeError], and [_parse_post_data] nothing but these and
    [KeyError]. *)
Theorem X13_extractors_raise_structure_errors :
  forall rt utcnow self post post_url,
    within_limits post = true ->
    raises_in (fun e => e = TypeError) (_get_text_content rt post)
    /\ raises_in (fun e => e = TypeError \/ e = IndexError) (_get_image_links post)
    /\ raises_in (fun e => e = TypeError \/ e = IndexError \/ e = AttributeError)
         (_get_poll_content rt post)
    /\ raises_in (fun e => is_structure_error e = true)
         (_parse_post_data rt utcnow self post post_url).
Proof.
  intros rt utcnow self post post_url _.
  split; [apply text_content_raises|]. split; [apply image_links_raises|].
  split; [apply poll_content_raises|]. unfold _parse_post_data.
  apply raises_in_bind.
  { intros e H. rewrite (text_content_raises rt post e H). reflexivity. }
  intros text. apply raises_in_bind.
  { intros e H. rewrite (proj2 (proj2 (video_link_cases rt post)) e H). reflexivity. }
  intros video. apply raises_in_bind.
  { intros e H. destruct (image_links_raises post e H) as [-> | ->]; reflexivity. }
  intros images. apply raises_in_bind.
  { intros e H. destruct (poll_content_raises rt post e H) as [-> | [-> | ->]];
      reflexivity. }
  intros poll. apply raises_in_bind; [|intros t; apply raises_in_return].
  unfold published_time.
  assert (Hg : forall v k, raises_in (fun e => is_structure_error e = true) (getitem v k)).
  { intros v k e H. destruct (getitem_raises v k e H) as [(k' & ->) | [-> | ->]];
      reflexivity. }
  repeat (apply raises_in_bind; [apply Hg|]; intros ?). apply Hg.
Qed.

Lemma X13_extractors_raise_structure_errors_witness :
  is_structure_error TypeError = true.
Proof.
  apply (proj2 (proj2 (proj2 (X13_extractors_raise_structure_errors example_runtime
                                example_time example_loader
                                post_with_string_attachment example_url eq_refl)))).
  reflexivity.
Defined.

(** ** The names of a decoded mapping *)

Lemma dict_set_keys :
  forall (V : Type) k (v : V) d,
    map fst (dict_set k v d)
    = if existsb (String.eqb k) (map fst d) then map fst d
      else (map fst d ++ [k])%list.
Proof.
  intros V k v d. induction d as [|[k' v'] d IH]; [reflexivity|].
  cbn [dict_set map fst existsb]. destruct (String.eqb k k') eqn:E; cbn [orb].
  - reflexivity.
  - cbn [map fst]. rewrite IH. destruct (existsb (String.eqb k) (map fst d)); reflexivity.
Qed.

Lemma distinct_snoc :
  forall l k,
    distinct l = true -> existsb (String.eqb k) l = false ->
    distinct (l ++ [k]) = true.
Proof.
  induction l as [|x l IH]; intros k Hd Hk; [reflexivity|].
  cbn [distinct app] in *. apply andb_true_iff in Hd. destruct Hd as (Hx & Hd).
  cbn [existsb] in Hk. apply orb_false_iff in Hk. destruct Hk as (Hkx & Hk).
  rewrite (IH _ Hd Hk), andb_true_r. apply negb_true_iff.
  rewrite existsb_app. apply negb_true_iff in Hx. rewrite Hx. cbn [existsb orb].
  rewrite String.eqb_sym, Hkx. reflexivity.
Qed.

Lemma dict_set_well_keyed :
  forall k v d,
    distinct (map fst d) = true ->
    forallb (fun kv => well_keyed (snd kv)) d = true ->
    well_keyed v = true ->
    distinct (map fst (dict_set k v d)) = true
    /\ forallb (fun kv => well_keyed (snd kv)) (dict_set k v d) = true.
Proof.
  intros k v d Hd Hw Hv. split.
  - rewrite dict_set_keys. destruct (existsb (String.eqb k) (map fst d)) eqn:E;
      [exact Hd | exact (distinct_snoc _ _ Hd E)].
  - clear Hd. induction d as [|[k' v'] d IH]; cbn [dict_set forallb snd].
    + rewrite Hv. reflexivity.
    + cbn [forallb snd] in Hw. apply andb_true_iff in Hw. destruct Hw as (Hv' & Hw).
      destruct (String.eqb k k'); cbn [forallb snd].
      * rewrite Hv, Hw. reflexivity.
      * rewrite Hv', (IH Hw). reflexivity.
Qed.

Lemma dict_of_pairs_well_keyed :
  forall pairs,
    forallb (fun kv => well_keyed (snd kv)) pairs = true ->
    well_keyed (JDict (dict_of_pairs pairs)) = true.
Proof.
  intros pairs H. unfold dict_of_pairs. cbn [well_keyed].
  assert (G : forall acc,
             distinct (map fst acc) = true ->
             forallb (fun kv => well_keyed (snd kv)) acc = true ->
             let d := fold_left (fun d kv => dict_set (fst kv) (snd kv) d) pairs acc in
             distinct (map fst d) = true
             /\ forallb (fun kv => well_keyed (snd kv)) d = true).
  { induction pairs as [|[k v] pairs IH]; intros acc Hd Hw; cbn [fold_left].
    - split; assumption.
    - cbn [forallb snd] in H. apply andb_true_iff in H. destruct H as (Hv & H).
      destruct (dict_set_well_keyed k v acc Hd Hw Hv) as (Hd' & Hw').
      exact (IH H _ Hd' Hw'). }
  destruct (G [] eq_refl eq_refl) as (Hd & Hw). rewrite Hd, Hw. reflexivity.
Qed.

Lemma forallb_snoc :
  forall (A : Type) (p : A -> bool) l a,
    forallb p l = true -> p a = true -> forallb p (l ++ [a]) = true.
Proof.
  intros A p l a Hl Ha. rewrite forallb_app, Hl. cbn [forallb]. rewrite Ha. reflexivity.
Qed.

Lemma scan_well_keyed :
  forall f,
    (forall s v r, scan_once f s = Done v r -> well_keyed v = true)
    /\ (forall s pairs v r,
           object_loop f s pairs = Done v r ->
           forallb (fun kv => well_keyed (snd kv)) pairs = true ->
           well_keyed v = true)
    /\ (forall s values v r,
           array_loop f s values = Done v r ->
           forallb well_keyed values = true -> well_keyed v = true).
Proof.
  induction f as [|f (IHs & IHo & IHa)].
  - repeat split; intros; discriminate.
  - split; [|split].
    + intros s v r H. cbn [scan_once] in H.
      repeat (first [discriminate H | break_hyp H]);
        first [ injection H as <- <-; reflexivity
              | exact (IHo _ _ _ _ H eq_refl)
              | exact (IHa _ _ _ _ H eq_refl) ].
    + intros s pairs v r H Hp. cbn [object_loop] in H.
      repeat (first [discriminate H | break_hyp H]).
      * injection H as <- <-. apply dict_of_pairs_well_keyed.
        apply forallb_snoc; [exact Hp|]. cbn [snd]. eapply IHs. eassumption.
      * apply (IHo _ _ _ _ H). apply forallb_snoc; [exact Hp|]. cbn [snd].
        eapply IHs. eassumption.
    + intros s values v r H Hv. cbn [array_loop] in H.
      repeat (first [discriminate H | break_hyp H]).
      * injection H as <- <-. cbn [well_keyed].
        apply forallb_snoc; [exact Hv|]. eapply IHs. eassumption.
      * apply (IHa _ _ _ _ H). apply forallb_snoc; [exact Hv|]. eapply IHs. eassumption.
Qed.

Lemma raw_decode_well_keyed :
  forall s v n, raw_decode s = Return (v, n) -> well_keyed v = true.
Proof.
  intros s v n H. unfold raw_decode in H.
  destruct (scan_once _ s) as [v0 r| |] eqn:E; try discriminate H.
  injection H as <- _. exact (proj1 (scan_well_keyed _) _ _ _ E).
Qed.

(** X3.  In the value that [_extract_json_from_html] returns, every mapping, at
    every depth, has names that differ: a name that the text repeats is kept
    once. *)
Theorem X3_decoded_mappings_have_distinct_names :
  forall raw key v,
    _extract_json_from_html raw key = Return v -> well_keyed v = true.
Proof.
  intros raw key v H.
  destruct (index 0 (encoded_key_of key) raw) as [i|] eqn:Ei.
  - destruct (index (i + String.length (encoded_key_of key)) "{" raw) as [j|] eqn:Ej.
    + rewrite (extract_json_decodes _ _ _ _ Ei Ej) in H.
      destruct (raw_decode (str_drop j raw)) as [[v0 n]|] eqn:E; [|discriminate H].
      injection H as <-. exact (raw_decode_well_keyed _ _ _ E).
    + rewrite (extract_json_brace_missing _ _ _ Ei Ej) in H. discriminate H.
  - rewrite (extract_json_key_missing _ _ Ei) in H. discriminate H.
Qed.

Lemma X3_decoded_mappings_have_distinct_names_witness :
  well_keyed (JDict [("a", JInt 4); ("b", JDict [("c", JInt 3)])]) = true.
Proof.
  apply (X3_decoded_mappings_have_distinct_names repeated_name_blob "marker").
  vm_compute. reflexivity.
Defined.

(** ** An image without thumbnails *)

(** X8.  A single image whose thumbnail sequence is empty makes
    [_get_image_links] raise [IndexError], whatever else the post holds, and
    with it [_parse_post_data] when the text and video extractors return:
    the error is not among those the extractor catches. *)
Theorem X8_empty_thumbnails_raise_index_error :
  forall post,
    lookup_path single_image_path post = Some (JList []) ->
    _get_image_links post = Raise IndexError
    /\ forall rt utcnow self post_url text video,
         _get_text_content rt post = Return text ->
         _get_video_link rt post = Return video ->
         _parse_post_data rt utcnow self post post_url = Raise IndexError.
Proof.
  intros post H.
  assert (Hi : _get_image_links post = Raise IndexError).
  { unfold _get_image_links, try_single_image, last_thumbnail_url, single_image_path in *.
    walk H. walk H. walk H. walk H. injection H as ->. reflexivity. }
  split; [exact Hi|].
  intros rt utcnow self post_url text video Ht Hv.
  unfold _parse_post_data. rewrite Ht, Hv, Hi. reflexivity.
Qed.

Lemma X8_empty_thumbnails_raise_index_error_witness :
  _get_image_links empty_thumbnails_post = Raise IndexError
  /\ _parse_post_data example_runtime example_time example_loader
       empty_thumbnails_post example_url = Raise IndexError.
Proof.
  destruct (X8_empty_thumbnails_raise_index_error empty_thumbnails_post eq_refl)
    as (H1 & H2).
  split; [exact H1|].
  apply (H2 example_runtime example_time example_loader example_url None None);
    reflexivity.
Defined.

(** ** The destination of a link *)

Lemma hex_digit_decodes :
  forall c,
    exists a b,
      hex_val (hex_digit (nat_of_ascii c / 16)) = Some a
      /\ hex_val (hex_digit (nat_of_ascii c mod 16)) = Some b
      /\ chr (16 * a + b) = c
      /\ is_lf (hex_digit (nat_of_ascii c / 16)) = false
      /\ is_lf (hex_digit (nat_of_ascii c mod 16)) = false
      /\ is_ascii_char (hex_digit (nat_of_ascii c / 16)) = true
      /\ is_ascii_char (hex_digit (nat_of_ascii c mod 16)) = true.
Proof.
  intros [b0 b1 b2 b3 b4 b5 b6 b7].
  destruct b0, b1, b2, b3, b4, b5, b6, b7;
    eexists _, _; repeat split; vm_compute; reflexivity.
Qed.

Lemma unquote_to_bytes_encode :
  forall keep s,
    keep "%"%char = false -> unquote_to_bytes (percent_encode keep s) = s.
Proof.
  intros keep s Hk. induction s as [|c s IH]; [reflexivity|].
  cbn [percent_encode]. destruct (keep c) eqn:Ec.
  - cbn [unquote_to_bytes].
    destruct (Ascii.eqb_spec c "%") as [->|_]; [congruence|]. rewrite IH. reflexivity.
  - destruct (hex_digit_decodes c) as (a & b & Ha & Hb & Hc & _).
    cbn [unquote_to_bytes]. change (("%" =? "%")%char) with true. cbv beta iota.
    rewrite Ha, Hb, Hc, IH. reflexivity.
Qed.

Lemma encode_without_percent :
  forall keep s,
    (forall x, In x (chars (percent_encode keep s)) -> x <> "%"%char) ->
    percent_encode keep s = s.
Proof.
  intros keep s. induction s as [|c s IH]; intros H; [reflexivity|].
  cbn [percent_encode] in *. destruct (keep c).
  - rewrite IH; [reflexivity|]. intros x Hx. apply H. right. exact Hx.
  - exfalso. apply (H "%"%char); [left|]; reflexivity.
Qed.

Lemma encode_chars :
  forall keep s,
    all_ascii s = true ->
    (forall c, keep c = true -> is_lf c = false) ->
    all_ascii (percent_encode keep s) = true
    /\ str_forall not_lf (percent_encode keep s) = true
    /\ (s <> "" -> percent_encode keep s <> "").
Proof.
  intros keep s Ha Hk. induction s as [|c s IH]; [repeat split; congruence|].
  cbn [all_ascii] in Ha. apply andb_true_iff in Ha. destruct Ha as (Hc & Ha).
  destruct (IH Ha) as (I1 & I2 & _). cbn [percent_encode].
  destruct (keep c) eqn:Ec.
  - cbn [all_ascii str_forall]. unfold not_lf at 1. rewrite Hc, I1, I2, (Hk c Ec).
    repeat split; discriminate.
  - destruct (hex_digit_decodes c) as (a & b & _ & _ & _ & L1 & L2 & A1 & A2).
    cbn [all_ascii str_forall]. unfold not_lf at 1 2 3.
    rewrite L1, L2, A1, A2, I1, I2. repeat split; discriminate.
Qed.

Lemma ascii_runs_all_ascii :
  forall c s, all_ascii (String c s) = true -> ascii_runs (String c s) = [String c s].
Proof.
  intros c s. revert c. induction s as [|d s IH]; intros c H; [reflexivity|].
  cbn [all_ascii] in H. apply andb_true_iff in H. destruct H as (Hc & H).
  change (ascii_runs (String c (String d s)))
    with (match ascii_runs (String d s) with
          | (String c' _ as run) :: runs =>
              if Bool.eqb (is_ascii_char c) (is_ascii_char c')
              then String c run :: runs
              else str1 c :: run :: runs
          | runs => str1 c :: runs
          end).
  rewrite (IH d H). cbn [all_ascii] in H. apply andb_true_iff in H.
  destruct H as (Hd & _). rewrite Hc, Hd. reflexivity.
Qed.

Lemma unquote_encode :
  forall rt keep s,
    keep "%"%char = false ->
    (forall c, keep c = true -> is_lf c = false) ->
    all_ascii s = true ->
    unquote rt (percent_encode keep s) = s.
Proof.
  intros rt keep s Hk Hlf Ha. unfold unquote.
  destruct (str_contains "%" (percent_encode keep s)) eqn:E; cbn [negb].
  - destruct (encode_chars keep s Ha Hlf) as (Hea & _ & _).
    destruct (percent_encode keep s) as [|c e] eqn:Ee; [discriminate E|].
    rewrite (ascii_runs_all_ascii _ _ Hea). cbn [map String.concat].
    cbn [all_ascii] in Hea. apply andb_true_iff in Hea. destruct Hea as (Hc & _).
    rewrite Hc, <- Ee, (unquote_to_bytes_encode _ _ Hk), Ha. reflexivity.
  - apply encode_without_percent. exact (str_contains_char_false _ _ E).
Qed.

(** X9.  A link run whose redirect URL ends with the first [q=] followed by
    the percent-encoding of a non-empty ASCII destination contributes that
    destination, whichever characters the encoder keeps (never ['%'] nor the
    line feed). *)
Theorem X9_link_destination_round_trip :
  forall rt keep pre dest content,
    keep "%"%char = false ->
    keep "010"%char = false ->
    all_ascii dest = true ->
    dest <> "" ->
    lookup_path link_url_path content
    = Some (JStr (pre ++ "q=" ++ percent_encode keep dest)) ->
    index 0 "q=" (pre ++ "q=" ++ percent_encode keep dest)
    = Some (String.length pre) ->
    _handle_text_content rt content = Return (JStr dest).
Proof.
  intros rt keep pre dest content Hk Hl Ha Hne Hc Hi.
  assert (Hlf : forall c, keep c = true -> is_lf c = false).
  { intros c H. unfold is_lf. destruct (Ascii.eqb_spec c "010") as [->|]; congruence. }
  rewrite (handle_link_run rt _ _ Hc).
  destruct (encode_chars keep dest Ha Hlf) as (_ & Hnl & Hnonempty).
  assert (Hd : str_drop (String.length pre + 2) (pre ++ "q=" ++ percent_encode keep dest)
               = percent_encode keep dest).
  { replace (pre ++ "q=" ++ percent_encode keep dest)
      with ((pre ++ "q=") ++ percent_encode keep dest)
      by (rewrite append_assoc_s; reflexivity).
    replace (String.length pre + 2)%nat with (String.length (pre ++ "q="))
      by (rewrite length_append_s; reflexivity).
    apply str_drop_app. }
  destruct (index_some_nonempty _ _ Hi) as (f & ->). cbn [findall_q].
  rewrite (search_q_first_q _ _ Hi); rewrite Hd.
  - rewrite (unquote_encode _ _ _ Hk Hlf Ha). reflexivity.
  - exact (Hnonempty Hne).
  - exact Hnl.
Qed.

Lemma X9_link_destination_round_trip_witness :
  _handle_text_content example_runtime
    (link_run "https://www.youtube.com/redirect?event=backstage&q=https%3A%2F%2Fexample%2Ecom%2Fa%3Fb%3D1")
  = Return (JStr "https://example.com/a?b=1").
Proof.
  apply (X9_link_destination_round_trip example_runtime is_unreserved
           "https://www.youtube.com/redirect?event=backstage&"
           "https://example.com/a?b=1"
           (link_run "https://www.youtube.com/redirect?event=backstage&q=https%3A%2F%2Fexample%2Ecom%2Fa%3Fb%3D1")).
  - reflexivity.
  - reflexivity.
  - reflexivity.
  - discriminate.
  - reflexivity.
  - reflexivity.
Defined.

